(** * GitFlow: the branch dependency tree of [arcgitflow/gitflow.py]

    A shallow embedding of the DAG builder, the divergence calculator, the
    tree renderer / cascade engine ([print_tree]) and the orchestrator
    ([main]), with the version-control system kept behind an interface. *)

From Stdlib Require Import ZArith Ascii String List Lia.
From Stdlib Require Import DecimalString DecimalZ DecimalN DecimalPos.
From stdpp Require Import base option list strings gmap.

Local Open Scope string_scope.
Local Open Scope list_scope.

(** ** Python strings *)

Module Py.

(** [s.lstrip(chars)]: drop the leading characters that occur in [chars]. *)
Fixpoint lstrip (chars : list ascii) (s : string) : string :=
  match s with
  | EmptyString => EmptyString
  | String c s' => if bool_decide (c ∈ chars) then lstrip chars s' else s
  end.

(** The line feed. *)
Definition newline : string := String "010"%char EmptyString.

(** [s.startswith(p)]. *)
Definition startswith (s p : string) : bool := String.prefix p s.

(** [str(n)] for an [int]. *)
Definition str_int (z : Z) : string := NilZero.string_of_int (Z.to_int z).

(** The characters [str.split()] and [str.strip()] treat as white space. *)
Definition isspace (c : ascii) : bool :=
  let n := nat_of_ascii c in
  ((9 <=? n)%nat && (n <=? 13)%nat) || ((28 <=? n)%nat && (n <=? 32)%nat).

(** [s.split()]: the maximal runs of non-space characters.  [cur] is the run
    being read, reversed. *)
Fixpoint split_go (cur : list ascii) (s : string) : list string :=
  match s with
  | EmptyString =>
      match cur with [] => [] | _ => [string_of_list_ascii (rev cur)] end
  | String c s' =>
      if isspace c then
        match cur with
        | [] => split_go [] s'
        | _ => string_of_list_ascii (rev cur) :: split_go [] s'
        end
      else split_go (c :: cur) s'
  end.

Definition split (s : string) : list string := split_go [] s.

Fixpoint lstrip_space (s : string) : string :=
  match s with
  | EmptyString => EmptyString
  | String c s' => if isspace c then lstrip_space s' else s
  end.

Definition rev_string (s : string) : string :=
  string_of_list_ascii (rev (list_ascii_of_string s)).

(** [s.strip()]. *)
Definition strip (s : string) : string :=
  rev_string (lstrip_space (rev_string (lstrip_space s))).

Definition digit_of (c : ascii) : option Z :=
  let n := nat_of_ascii c in
  if ((48 <=? n)%nat && (n <=? 57)%nat)%bool then Some (Z.of_nat n - 48)%Z
  else None.

(** The digits of an [int] literal: decimal digits, where a single
    underscore may stand between two digits.  [prev] tells whether the
    previous character was a digit. *)
Fixpoint int_digits (acc : Z) (prev : bool) (s : string) : option Z :=
  match s with
  | EmptyString => if prev then Some acc else None
  | String c s' =>
      match digit_of c with
      | Some d => int_digits (acc * 10 + d)%Z true s'
      | None =>
          if (Ascii.eqb c "_" && prev)%bool then
            match s' with
            | EmptyString => None
            | String c' _ =>
                match digit_of c' with
                | Some _ => int_digits acc false s'
                | None => None
                end
            end
          else None
      end
  end.

(** The characters [int] skips around a literal: on ASCII text, those of
    C's [isspace], which leaves out the separators 28 to 31 that
    [str.strip] takes. *)
Definition isspace_int (c : ascii) : bool :=
  let n := nat_of_ascii c in
  ((9 <=? n)%nat && (n <=? 13)%nat) || (n =? 32)%nat.

Fixpoint lstrip_int (s : string) : string :=
  match s with
  | EmptyString => EmptyString
  | String c s' => if isspace_int c then lstrip_int s' else s
  end.

Definition strip_int (s : string) : string :=
  rev_string (lstrip_int (rev_string (lstrip_int s))).

(** [int(s)] on ASCII text; [None] stands for [ValueError]. *)
Definition int (s : string) : option Z :=
  match strip_int s with
  | String "+" s' => int_digits 0 false s'
  | String "-" s' => Z.opp <$> int_digits 0 false s'
  | s' => int_digits 0 false s'
  end.

End Py.

(** ** Data model *)

(** A branch object of the VCS library: its [name] and the name of the
    reference its [tracking_branch()] returns, if any.  Only these two are
    ever read by the program. *)
Record Head := mkHead {
  name : string;
  tracking_branch : option string
}.

#[global] Instance Head_eq_dec : EqDecision Head.
Proof. solve_decision. Defined.

(** What [branch_name] may be handed: [None], a string, or a branch or
    reference object, of which only the [name] matters. *)
Inductive branch_like :=
  | PyNone
  | PyStr (s : string)
  | PyObj (raw_name : string).

Definition of_head (b : Head) : branch_like := PyObj (name b).

Definition of_ref (tb : option string) : branch_like :=
  match tb with Some n => PyObj n | None => PyNone end.

Definition of_name (n : option string) : branch_like :=
  match n with Some s => PyStr s | None => PyNone end.

Inductive exn :=
  | AssertionError (msg : string)
  | CascadeException (msg : string)
  | DagParseException (msg : string)
  | GitCommandError (msg : string)
  | ValueError (msg : string)
  | AttributeError (msg : string)
  | OtherException (msg : string).

(** [obj.name.lstrip("./")]. *)
Definition obj_name (raw : string) : string := Py.lstrip ["."; "/"]%char raw.

(** [branch_name(branch)]: the assertion fails on [None]; a string is
    returned as it is; an object gives its name without leading dots and
    slashes. *)
Definition branch_name (branch : branch_like) : exn + string :=
  match branch with
  | PyNone => inl (AssertionError "Must have a valid branch to get the name!")
  | PyStr s => inr s
  | PyObj raw => inr (obj_name raw)
  end.

(** ** DAG builder *)

Abbreviation DAG := (gmap string (list Head)).

(** [dag.setdefault(k, [])]. *)
Definition setdefault (k : string) (dag : DAG) : DAG :=
  match dag !! k with
  | Some _ => dag
  | None => <[k := []]> dag
  end.

(** [dag[k].append(b)] on a [defaultdict(list)]: a missing entry is created
    empty first. *)
Definition append_child (k : string) (b : Head) (dag : DAG) : DAG :=
  <[k := default [] (dag !! k) ++ [b]]> dag.

(** One iteration of the loop of [build_git_dag].  [branch_name] is applied
    to branch objects only, where it is [obj_name]. *)
Definition build_step (acc : DAG * list string) (b : Head) : DAG * list string :=
  let '(dag, roots) := acc in
  let bname := obj_name (name b) in
  let dag := setdefault bname dag in
  match tracking_branch b with
  | Some tb =>
      let tbname := obj_name tb in
      let roots :=
        if Py.startswith tbname "origin" then roots ++ [tbname] else roots in
      (append_child tbname b dag, roots)
  | None => (dag, roots ++ [bname])
  end.

(** [build_git_dag(r)], on the enumeration [r.branches]. *)
Definition build_git_dag (branches : list Head) : DAG * list string :=
  fold_left build_step branches (∅, []).

(** ** The version-control system and the terminal *)

(** The operations the program calls on the VCS library, over an abstract
    repository state [world].  A command returns [Some msg] when the library
    raises [GitCommandError(msg)].  Branch objects are taken as
    [git_branches] lists them; no operation below changes a branch's
    tracking configuration. *)
Class Git := {
  world : Type;
  (** [git rev-parse --show-toplevel]; [None]: the command fails. *)
  git_toplevel : world -> option string;
  (** [os.path.exists]. *)
  path_exists : string -> world -> bool;
  (** [r.branches], in enumeration order. *)
  git_branches : world -> list Head;
  (** [repo.active_branch]; [inl msg]: [TypeError(msg)], HEAD is detached. *)
  git_active_branch : world -> string + Head;
  (** [git rev-list --count --left-right a...b]; [None]: the call raises. *)
  git_rev_list_count : string -> world -> option string;
  (** [git rebase --reapply-cherry-picks --fork-point new_base feature]. *)
  git_rebase : string -> string -> world -> option string * world;
  (** [git rebase --abort]. *)
  git_rebase_abort : world -> option string * world;
  (** [git push --force origin branch --no-verify]. *)
  git_push_force : string -> world -> option string * world;
  (** [git checkout target]; the library drops a [None] argument, which
      leaves the command without a target. *)
  git_checkout : option string -> world -> option string * world;
  (** [repo.remote().fetch(name)]; [Some msg]: any exception. *)
  git_fetch : string -> world -> option string * world;
  (** [git reset --keep ref]. *)
  git_reset_keep : string -> world -> option string * world
}.

(** [termcolor.colored(text, color)]. *)
Class Termcolor := { colored : string -> string -> string }.

(** What a run does that can be observed, in order. *)
Inductive event :=
  | Stdout (line : string)
  | GitRebase (new_base feature : string) (err : option string)
  | GitRebaseAbort (err : option string)
  | GitPush (branch : string) (err : option string)
  | GitCheckout (target : option string) (err : option string)
  | GitFetch (branch : string) (err : option string)
  | GitResetKeep (ref : string) (err : option string).

#[global] Instance event_eq_dec : EqDecision event.
Proof. solve_decision. Defined.

(** The handle [repo]; the repository's state is the [world]. *)
Inductive Repo := TheRepo.

Inductive outcome (A : Type) :=
  | Ret (a : A)
  | Raise (e : exn)
  | OutOfFuel.
Arguments Ret {A} a.
Arguments Raise {A} e.
Arguments OutOfFuel {A}.

Section Program.
Context {G : Git} {T : Termcolor}.

Record State := mkState {
  st_world : world;
  st_trace : list event
}.

(** Computations: state passing with exceptions. *)
Definition M (A : Type) : Type := State -> outcome A * State.

Definition ret {A} (a : A) : M A := fun s => (Ret a, s).
Definition raise {A} (e : exn) : M A := fun s => (Raise e, s).
Definition out_of_fuel {A} : M A := fun s => (OutOfFuel, s).

Definition bind {A B} (m : M A) (k : A -> M B) : M B :=
  fun s =>
    match m s with
    | (Ret a, s') => k a s'
    | (Raise e, s') => (Raise e, s')
    | (OutOfFuel, s') => (OutOfFuel, s')
    end.

Definition lift {A} (r : exn + A) : M A :=
  match r with inl e => raise e | inr a => ret a end.

(** [try: body / except <catches> as e: handler(e)]. *)
Definition try_except {A} (body : M A) (catches : exn -> bool)
    (handler : exn -> M A) : M A :=
  fun s =>
    match body s with
    | (Raise e, s') => if catches e then handler e s' else (Raise e, s')
    | r => r
    end.

Definition emit (e : event) : M unit :=
  fun s => (Ret tt, mkState (st_world s) (st_trace s ++ [e])).

(** [print(line)]. *)
Definition print (line : string) : M unit := emit (Stdout line).

(** A read of the repository. *)
Definition query {A} (f : world -> A) : M A := fun s => (Ret (f (st_world s)), s).

(** A command: the repository moves on, the call is recorded with its
    result, and the result is handed back. *)
Definition command (f : world -> option string * world)
    (ev : option string -> event) : M (option string) :=
  fun s =>
    let '(r, w) := f (st_world s) in
    (Ret r, mkState w (st_trace s ++ [ev r])).

End Program.

Notation "'let*' x ':=' m 'in' k" := (bind m (fun x => k))
  (at level 10, x binder, m at level 100, k at level 200,
   format "'[v' 'let*'  x  ':='  m  'in' '/' k ']'").
Notation "m ';;' k" := (bind m (fun _ => k))
  (at level 100, k at level 200, right associativity,
   format "'[v' m  ';;' '/' k ']'").

(** ** The program *)

Section Gitflow.
Context {G : Git} {T : Termcolor}.

(** [except git.GitCommandError] and [except Exception]. *)
Definition is_GitCommandError (e : exn) : bool :=
  match e with GitCommandError _ => true | _ => false end.

Definition is_Exception (e : exn) : bool := true.

(** [str(e)]. *)
Definition exn_str (e : exn) : string :=
  match e with
  | AssertionError m | CascadeException m | DagParseException m
  | GitCommandError m | ValueError m | AttributeError m
  | OtherException m => m
  end.

(** The body of the [try] of [commit_delta_by_branch_name]: run the
    command, split its output and read every field as an [int]; the two
    results are unpacked from a list of exactly two. *)
Definition read_delta (range : string) (repo : option Repo) : M (Z * Z) :=
  match repo with
  | None => raise (AttributeError "'NoneType' object has no attribute 'git'")
  | Some _ =>
      let* out := query (git_rev_list_count range) in
      match out with
      | None => raise (GitCommandError "rev-list")
      | Some delta_str =>
          match mapM (fun count => Py.int (Py.strip count))
                     (Py.split delta_str) with
          | Some [parent_divergence; cur_branch_divergence] =>
              ret (parent_divergence, cur_branch_divergence)
          | _ => raise (ValueError "rev-list output")
          end
      end
  end.

Definition commit_delta_by_branch_name (cur_branch_name parent_branch_name : string)
    (repo : option Repo) : M (option Z * option Z) :=
  try_except
    (let* d := read_delta (cur_branch_name +:+ "..." +:+ parent_branch_name) repo in
     ret (Some (fst d), Some (snd d)))
    is_Exception
    (fun _ => ret (None, None)).

Definition replace_colored (s : string) (color : string) : string := s.

(** ["".join(["  "] * depth)]. *)
Fixpoint tabs (depth : nat) : string :=
  match depth with O => "" | S d => "  " +:+ tabs d end.

Definition create_branch_str (bname : string) (active_branch : option Head)
    (depth : nat) (parent_bname : string) (repo : option Repo)
    (no_color : bool) : M string :=
  let color_fn := if no_color then replace_colored else colored in
  let tabstr := tabs depth in
  let branch_str :=
    if Nat.eqb depth 0 then " " +:+ bname else tabstr +:+ " |-> " +:+ bname in
  let* branch_str :=
    if (negb (String.eqb parent_bname "") && bool_decide (is_Some repo))%bool then
      let* d := commit_delta_by_branch_name bname parent_bname repo in
      let '(cur_ahead, parent_ahead) := d in
      let branch_str := branch_str +:+ "  " in
      let parent_ahead_str :=
        match parent_ahead with
        | Some n =>
            if negb (Z.eqb n 0) then color_fn ("-" +:+ Py.str_int n) "red"
            else "-" +:+ Py.str_int n
        | None => "?"
        end in
      let cur_ahead_str :=
        match cur_ahead with
        | Some n =>
            if negb (Z.eqb n 0) then color_fn ("+" +:+ Py.str_int n) "green"
            else "-" +:+ Py.str_int n
        | None => "?"
        end in
      match cur_ahead, parent_ahead with
      | Some _, Some _ =>
          ret (branch_str +:+ "(" +:+ parent_ahead_str +:+ ", " +:+ cur_ahead_str +:+ ")")
      | _, _ => ret (color_fn (branch_str +:+ "(Upstream Branch Not Found)") "red")
      end
    else ret branch_str in
  let* active_bname :=
    lift (branch_name (match active_branch with
                       | Some h => of_head h
                       | None => PyNone
                       end)) in
  if String.eqb bname active_bname then
    ret (color_fn (branch_str +:+ " *(active branch)") "green")
  else ret branch_str.

Definition active_branch_from_repo (repo : option Repo) (verbose : bool)
    : M (option Head) :=
  match repo with
  | None => ret None
  | Some _ =>
      let* r := query git_active_branch in
      match r with
      | inr h => ret (Some h)
      | inl e =>
          (if verbose then
             print ("Could not get active branch due to error: " +:+ e)
           else ret tt) ;;
          ret None
      end
  end.

Definition refresh_branch (branch : branch_like) (repo : Repo) : M unit :=
  try_except
    (let* n := lift (branch_name branch) in
     let* r := command (git_fetch n) (GitFetch n) in
     match r with
     | Some msg => raise (OtherException msg)
     | None =>
         let* n := lift (branch_name branch) in
         let* r := command (git_reset_keep ("origin/" +:+ n))
                           (GitResetKeep ("origin/" +:+ n)) in
         match r with
         | Some msg => raise (GitCommandError msg)
         | None => ret tt
         end
     end)
    is_Exception
    (fun e =>
       let* n := lift (branch_name branch) in
       print ("Failed to refresh " +:+ n +:+ " with error:" +:+ Py.newline
                +:+ colored (exn_str e) "red")).

Definition abort_reabse (repo : Repo) : M unit :=
  let* r := command git_rebase_abort GitRebaseAbort in
  match r with
  | None => ret tt
  | Some msg =>
      print (colored "Skipping abort rebase since no rebase is in progress" "red") ;;
      print (colored msg "yellow")
  end.

Definition cascade_abort_notice : string :=
  "Aborting cascade for this branch. Please resolve conflicts on your own.".

Definition force_push_no_verify (repo : Repo) (branch : string) : M unit :=
  print ("git push --force origin " +:+ branch +:+ " --no-verify") ;;
  let* r := command (git_push_force branch) (GitPush branch) in
  match r with
  | None => ret tt
  | Some msg =>
      print (colored "Failed to push branch due to error:" "red") ;;
      print (colored msg "yellow") ;;
      print (colored cascade_abort_notice "red")
  end.

Definition rebase_onto (repo : Repo) (new_base feature_branch : string)
    : M string :=
  let rebase_cmd_str :=
    "git rebase -i --reapply-cherry-picks --fork-point " +:+ new_base +:+ " "
      +:+ feature_branch in
  print rebase_cmd_str ;;
  let* r := command (git_rebase new_base feature_branch)
                    (GitRebase new_base feature_branch) in
  match r with
  | None => ret rebase_cmd_str
  | Some msg => raise (GitCommandError msg)
  end.

(** The cascade of one child, from the announcement to the end of the
    [try] statement.  [true]: go on to the child's subtree; [false]: the
    handler ran and ended in [continue]. *)
Definition cascade_child (repo : option Repo) (bname parent : string)
    (push_updates : bool) : M bool :=
  match repo with
  | None => raise (CascadeException "Must also supply a repo!")
  | Some r =>
      print ("Rebasing " +:+ bname +:+ " onto " +:+ parent +:+ "...") ;;
      try_except
        (let* rebase_cmd_str := rebase_onto r parent bname in
         print ("Rebase command: " +:+ rebase_cmd_str) ;;
         (if push_updates then force_push_no_verify r bname else ret tt) ;;
         ret true)
        is_GitCommandError
        (fun e =>
           print (colored "Failed cascade due to error:" "red") ;;
           print (colored (exn_str e) "yellow") ;;
           print (colored cascade_abort_notice "red") ;;
           print "Continuing to next subtree..." ;;
           abort_reabse r ;;
           ret false)
  end.

(** The [for branch in dag[current_branch_name]] loop of [print_tree];
    [rec bname] is the recursive call on the child.  The value of
    [branch_name(branch.tracking_branch())] is computed once and used at
    its three places. *)
Fixpoint for_children (rec : string -> M bool) (active_branch : option Head)
    (depth : nat) (repo : option Repo) (cascade color push_updates : bool)
    (children : list Head) : M bool :=
  match children with
  | [] => ret true
  | branch :: rest =>
      let* bname := lift (branch_name (of_head branch)) in
      let* parent := lift (branch_name (of_ref (tracking_branch branch))) in
      let* line :=
        create_branch_str bname active_branch depth parent repo (negb color) in
      print line ;;
      let* go_on :=
        (if cascade then cascade_child repo bname parent push_updates
         else ret true) in
      if go_on then
        let* leaf_node_reached := rec bname in
        if negb leaf_node_reached then ret false
        else for_children rec active_branch depth repo cascade color
               push_updates rest
      else
        for_children rec active_branch depth repo cascade color push_updates
          rest
  end.

(** [print_tree].  The recursion follows the DAG, so it is bounded by
    [fuel]; a start name may be [None] (see [main]). *)
Fixpoint print_tree (fuel : nat) (dag : DAG) (current_branch_name : option string)
    (depth : nat) (repo : option Repo) (cascade color push_updates : bool)
    : M bool :=
  match fuel with
  | O => out_of_fuel
  | S fuel' =>
      let* active_branch := active_branch_from_repo repo false in
      match current_branch_name with
      | None => ret true
      | Some cur =>
          match dag !! cur with
          | None => ret true
          | Some children =>
              if Nat.eqb depth 0 then
                let* line :=
                  create_branch_str cur active_branch depth "" None
                    (negb color) in
                print line ;;
                print_tree fuel' dag (Some cur) (depth + 1) repo cascade color
                  push_updates
              else
                for_children
                  (fun bname =>
                     print_tree fuel' dag (Some bname) (depth + 1) repo
                       cascade color push_updates)
                  active_branch depth repo cascade color push_updates children
          end
      end
  end.

(** [print_dag]: the loop over the roots stops at the first walk that
    returns [False]. *)
Fixpoint print_dag (fuel : nat) (dag : DAG) (roots : list (option string))
    (repo : option Repo) (cascade color push_updates : bool) : M unit :=
  match roots with
  | [] => ret tt
  | root_branch_name :: rest =>
      let* ok := print_tree fuel dag root_branch_name 0 repo cascade color
                   push_updates in
      if negb ok then ret tt
      else print_dag fuel dag rest repo cascade color push_updates
  end.

(** [repo.exc], the expression of the [except] clause of [checkout]: a
    [git.Repo] object has no attribute [exc], so evaluating the clause
    raises [AttributeError] instead of giving a class to match. *)
Definition repo_exc (repo : Repo) : exn + (exn -> bool) :=
  inl (AttributeError "'Repo' object has no attribute 'exc'").

(** [checkout(branch_name, repo, fail)].  When the command fails, the
    [except] clause is evaluated first; its body is what the source
    writes. *)
Definition checkout (target : option string) (repo : Repo) (fail : bool)
    : M bool :=
  let* r := command (git_checkout target) (GitCheckout target) in
  match r with
  | Some msg =>
      let* catches := lift (repo_exc repo) in
      if catches (GitCommandError msg) then
        print ("Branch, " +:+ default "None" target +:+ ", likely does not exist") ;;
        if fail then raise (GitCommandError msg) else ret false
      else raise (GitCommandError msg)
  | None => ret true
  end.

(** [os.path.join(a, b)] for a relative [b]. *)
Definition path_join (a b : string) : string :=
  if String.eqb a "" then b
  else if String.eqb (String.substring (String.length a - 1) 1 a) "/" then a +:+ b
  else a +:+ "/" +:+ b.

Definition find_git_dir : M string :=
  let* top := query git_toplevel in
  match top with
  | None => raise (GitCommandError "rev-parse --show-toplevel")
  | Some t => ret (path_join t ".git")
  end.

(** The parsed command line. *)
Record Args := mkArgs {
  arg_cascade : bool;
  arg_branch : option string;
  arg_refresh : bool;
  arg_color : bool;
  arg_push : bool
}.

(** Python's truth value of [args.branch]: [None] and the empty string
    are false. *)
Definition truthy (o : option string) : bool :=
  match o with
  | Some s => negb (String.eqb s "")
  | None => false
  end.

(** [main], after [parse_args].  Opening the repository at the directory
    found is taken to succeed. *)
Definition main (fuel : nat) (args : Args) : M unit :=
  let* git_dir := find_git_dir in
  let* found := query (path_exists git_dir) in
  if negb found then raise (DagParseException "Must be in git directory!")
  else
    let repo := TheRepo in
    let* branches := query git_branches in
    let '(dag, roots) := build_git_dag branches in
    let roots := Some <$> roots in
    let* initial_active_branch := active_branch_from_repo (Some repo) true in
    let active_branch_name :=
      (fun h => obj_name (name h)) <$> initial_active_branch in
    let branch := if truthy (arg_branch args) then arg_branch args
                  else active_branch_name in
    let roots := if truthy (arg_branch args) then [branch] else roots in
    let* active_branch_name :=
      (if bool_decide (branch <> active_branch_name) then
         checkout branch repo true ;; ret branch
       else ret active_branch_name) in
    (if arg_refresh args then refresh_branch (of_name active_branch_name) repo
     else ret tt) ;;
    let roots := if arg_cascade args then [active_branch_name] else roots in
    print_dag fuel dag roots (Some repo) (arg_cascade args) (arg_color args)
      (arg_push args) ;;
    if arg_cascade args then
      let target := name <$> initial_active_branch in
      let* r := command (git_checkout target) (GitCheckout target) in
      match r with
      | Some msg => raise (GitCommandError msg)
      | None =>
          print "Status after cascade:" ;;
          print_dag fuel dag roots (Some repo) false (arg_color args) false
      end
    else ret tt.

(** The process's exit status: [sys.exit(main())] exits with 0 when [main]
    returns, an uncaught exception ends the process with status 1. *)
Definition exit_status (o : outcome unit) : option Z :=
  match o with
  | Ret _ => Some 0%Z
  | Raise _ => Some 1%Z
  | OutOfFuel => None
  end.

(** A run from the repository state [w]. *)
Definition run (fuel : nat) (args : Args) (w : world) : outcome unit * State :=
  main fuel args (mkState w []).

End Gitflow.

(** ** The shape of a DAG *)

Definition child_names (children : list Head) : list string :=
  (fun b => obj_name (name b)) <$> children.

(** [c] is listed as a child under the key [p]. *)
Definition child_of (dag : DAG) (p c : string) : Prop :=
  exists children, dag !! p = Some children /\ c ∈ child_names children.

(** The branches a walk from [a] can come to, [a] itself apart. *)
Inductive reachable (dag : DAG) (a : string) : string -> Prop :=
  | reach_child c : child_of dag a c -> reachable dag a c
  | reach_step y c : reachable dag a y -> child_of dag y c -> reachable dag a c.

(** [rank] goes down along every edge. *)
Definition ranked (rank : string -> nat) (dag : DAG) : Prop :=
  map_Forall (fun p children =>
    Forall (fun c => rank c < rank p) (child_names children)) dag.

(** A DAG without cycles: it has a ranking. *)
Definition acyclic (dag : DAG) : Prop := exists rank, ranked rank dag.

(** Every listed child has a tracking branch, as in the data model: a
    branch without one is in nobody's child list. *)
Definition tracked (dag : DAG) : Prop :=
  map_Forall (fun _ children =>
    Forall (fun b => is_Some (tracking_branch b)) children) dag.

(** Every branch is listed once, under one key: the DAG is a forest, as the
    builder makes it from branches of distinct names. *)
Definition forest (dag : DAG) : Prop :=
  (forall p children, dag !! p = Some children -> NoDup (child_names children)) /\
  (forall p q c, child_of dag p c -> child_of dag q c -> p = q).

(** ** What a trace tells *)


(** The lines printed. *)
Definition printed (tr : list event) : list string :=
  omap (fun e => match e with Stdout l => Some l | _ => None end) tr.

(** The commands sent to the VCS: every event that is not a [Stdout]. *)
Definition commands (tr : list event) : list event :=
  List.filter (fun e => match e with Stdout _ => false | _ => true end) tr.

Section Environment.
Context {G : Git}.

(** HEAD is on a branch. *)
Definition attached (w : world) : Prop :=
  exists h, git_active_branch w = inr h.

(** A repository context can be located. *)
Definition located (w : world) : Prop :=
  exists top, git_toplevel w = Some top /\
    path_exists (path_join top ".git") w = true.

End Environment.

(** ** Text of the counts *)

(** No character of [s] is white space. *)
Definition spaceless (s : string) : Prop :=
  Forall (fun c => Py.isspace c = false) (list_ascii_of_string s).

(** The value of the decimal [d] read after [acc]. *)
Fixpoint uint_val (d : Decimal.uint) (acc : Z) : Z :=
  match d with
  | Decimal.Nil => acc
  | Decimal.D0 d => uint_val d (acc * 10)
  | Decimal.D1 d => uint_val d (acc * 10 + 1)
  | Decimal.D2 d => uint_val d (acc * 10 + 2)
  | Decimal.D3 d => uint_val d (acc * 10 + 3)
  | Decimal.D4 d => uint_val d (acc * 10 + 4)
  | Decimal.D5 d => uint_val d (acc * 10 + 5)
  | Decimal.D6 d => uint_val d (acc * 10 + 6)
  | Decimal.D7 d => uint_val d (acc * 10 + 7)
  | Decimal.D8 d => uint_val d (acc * 10 + 8)
  | Decimal.D9 d => uint_val d (acc * 10 + 9)
  end%Z.

(** The output of [git rev-list --count --left-right a...b] for [left]
    commits reachable from [a] only and [right] from [b] only. *)
Definition left_right_count (left right : Z) : string :=
  Py.str_int left +:+ String "009"%char (Py.str_int right).


(** ** A small repository to run the program on

    HEAD, the branches, the rebases that stop on a conflict and the pushes
    the remote rejects; enough of a VCS to evaluate the program. *)

Module Sim.

Record repo_state := mkRepo {
  in_work_tree : bool;
  heads : list Head;
  HEAD : option string;
  rebasing : option string;
  conflicts : list string;
  rejected : list string;
  counts : list (string * string)
}.

Definition set_head (h : option string) (r : option string) (w : repo_state)
    : repo_state :=
  mkRepo (in_work_tree w) (heads w) h r (conflicts w) (rejected w) (counts w).

Definition active (w : repo_state) : string + Head :=
  match HEAD w with
  | None => inl "HEAD is a detached symbolic reference"
  | Some n =>
      inr (default (mkHead n None)
             (List.find (fun h => String.eqb (name h) n) (heads w)))
  end.

Definition rebase (new_base feature : string) (w : repo_state)
    : option string * repo_state :=
  if bool_decide (feature ∈ conflicts w) then
    (Some "could not apply", set_head None (Some feature) w)
  else (None, set_head (Some feature) None w).

Definition rebase_abort (w : repo_state) : option string * repo_state :=
  match rebasing w with
  | Some feature => (None, set_head (Some feature) None w)
  | None => (Some "No rebase in progress?", w)
  end.

Definition push_force (b : string) (w : repo_state)
    : option string * repo_state :=
  if bool_decide (b ∈ rejected w) then (Some "remote rejected", w)
  else (None, w).

Definition checkout_to (target : option string) (w : repo_state)
    : option string * repo_state :=
  match target with
  | None => (None, w)
  | Some n =>
      if bool_decide (n ∈ name <$> heads w) then
        (None, set_head (Some n) (rebasing w) w)
      else (Some "pathspec did not match", w)
  end.

Definition rev_list (range : string) (w : repo_state) : option string :=
  snd <$> List.find (fun kv => String.eqb (fst kv) range) (counts w).

Definition git : Git := {|
  world := repo_state;
  git_toplevel w := if in_work_tree w then Some "/repo" else None;
  path_exists p w := (in_work_tree w && String.eqb p "/repo/.git")%bool;
  git_branches := heads;
  git_active_branch := active;
  git_rev_list_count := rev_list;
  git_rebase := rebase;
  git_rebase_abort := rebase_abort;
  git_push_force := push_force;
  git_checkout := checkout_to;
  git_fetch n w := (None, w);
  git_reset_keep r w := (None, w)
|}.

(** The state of a run in the repository state [w], after the trace [tr]. *)
Definition state (w : repo_state) (tr : list event) : @State git :=
  @mkState git w tr.

(** Colours shown as tags. *)
Definition tags : Termcolor :=
  {| colored text color := "<" +:+ color +:+ ">" +:+ text +:+ "</>" |}.

(** The repository of the tests: [master], [A] on [master], [B] on [A];
    a local upstream is named with a leading [./]. *)
Definition branch_A : Head := mkHead "A" (Some "./master").
Definition branch_B : Head := mkHead "B" (Some "./A").
Definition branch_master : Head := mkHead "master" None.

Definition branches3 : list Head := [branch_A; branch_B; branch_master].

Definition repo3 (head : option string) (conflicts rejected : list string)
    : repo_state :=
  mkRepo true branches3 head None conflicts rejected
    [ ("A...master", left_right_count 2 2); ("B...A", left_right_count 1 0) ].

(** Two branches on the same remote branch. *)
Definition branch_dev : Head := mkHead "dev" (Some "origin/main").
Definition branch_fix : Head := mkHead "fix" (Some "origin/main").

Definition branches_origin : list Head := [branch_dev; branch_fix].

Definition repo_origin : repo_state :=
  mkRepo true branches_origin (Some "dev") None [] []
    [ ("dev...origin/main", left_right_count 1 0) ].

(** The DAG of the repository of the tests. *)
Definition dag3 : DAG := (build_git_dag branches3).1.

Definition rank3 (s : string) : nat :=
  if String.eqb s "master" then 2 else if String.eqb s "A" then 1 else 0.

Definition rank_origin (s : string) : nat :=
  if String.eqb s "origin/main" then 1 else 0.

End Sim.

(** ** The builder's result, said directly *)

(** [b] tracks a branch named [k]. *)
Definition tracks (k : string) (b : Head) : Prop :=
  obj_name <$> tracking_branch b = Some k.

#[global] Instance tracks_dec k b : Decision (tracks k b).
Proof. unfold tracks. apply _. Defined.

(** [k] becomes a key when [b] is read: [b] is named [k] or tracks [k]. *)
Definition touches (k : string) (b : Head) : Prop :=
  obj_name (name b) = k \/ tracks k b.

#[global] Instance touches_dec k b : Decision (touches k b).
Proof. unfold touches. apply _. Defined.

(** What reading [b] adds to the roots. *)
Definition root_of (b : Head) : option string :=
  match tracking_branch b with
  | Some tb =>
      if Py.startswith (obj_name tb) "origin" then Some (obj_name tb) else None
  | None => Some (obj_name (name b))
  end.

(** The number of occurrences of [x] in [l]. *)
Definition occurrences {A} `{EqDecision A} (x : A) (l : list A) : nat :=
  length (filter (fun y => y = x) l).

(** ** The events of one edge of a cascade *)

Section Edge.
Context {T : Termcolor}.

Definition rebase_cmd (new_base feature : string) : string :=
  "git rebase -i --reapply-cherry-picks --fork-point " +:+ new_base +:+ " "
    +:+ feature.

(** A rebase of [bname] onto [parent] that fails with [msg], and the abort
    that follows, which ends with [aborted]. *)
Definition failed_rebase_events (bname parent msg : string)
    (aborted : option string) : list event :=
  [ Stdout ("Rebasing " +:+ bname +:+ " onto " +:+ parent +:+ "...");
    Stdout (rebase_cmd parent bname);
    GitRebase parent bname (Some msg);
    Stdout (colored "Failed cascade due to error:" "red");
    Stdout (colored msg "yellow");
    Stdout (colored cascade_abort_notice "red");
    Stdout "Continuing to next subtree...";
    GitRebaseAbort aborted ] ++
  match aborted with
  | Some m =>
      [ Stdout (colored "Skipping abort rebase since no rebase is in progress" "red");
        Stdout (colored m "yellow") ]
  | None => []
  end.

(** A rebase of [bname] onto [parent] that succeeds. *)
Definition rebased_events (bname parent : string) : list event :=
  [ Stdout ("Rebasing " +:+ bname +:+ " onto " +:+ parent +:+ "...");
    Stdout (rebase_cmd parent bname);
    GitRebase parent bname None;
    Stdout ("Rebase command: " +:+ rebase_cmd parent bname) ].

(** The force-push of [bname], which ends with [pushed]. *)
Definition push_events (bname : string) (pushed : option string) : list event :=
  [ Stdout ("git push --force origin " +:+ bname +:+ " --no-verify");
    GitPush bname pushed ] ++
  match pushed with
  | Some m =>
      [ Stdout (colored "Failed to push branch due to error:" "red");
        Stdout (colored m "yellow");
        Stdout (colored cascade_abort_notice "red") ]
  | None => []
  end.

End Edge.

(** ** What a cascade leaves in the trace *)

(** The names of the children listed under [c]; none when [c] is no key. *)
Definition kids (dag : DAG) (c : string) : list string :=
  child_names (default [] (dag !! c)).

(** [R], the rebases a walk attempted, against the DAG, for a walk that
    works through the branches [frontier] and below them. *)
Record walk_ok (dag : DAG) (frontier : list string) (R : list (string * bool))
    : Prop := {
  (** only branches of the frontier and below are attempted; *)
  walk_reach : forall x, x ∈ R.*1 ->
    exists c, c ∈ frontier /\ (x = c \/ reachable dag c x);
  (** every branch of the frontier is attempted; *)
  walk_front : forall c, c ∈ frontier -> c ∈ R.*1;
  (** below a branch whose rebase succeeded, every child is attempted; *)
  walk_down : forall p c, (p, true) ∈ R -> child_of dag p c -> c ∈ R.*1;
  (** when no rebase fails, everything below the frontier is attempted; *)
  walk_all : Forall (fun r => r.2 = true) R ->
    forall c x, c ∈ frontier -> reachable dag c x -> x ∈ R.*1;
  (** a branch is attempted only in the frontier or as the child of a
      branch whose rebase succeeded. *)
  walk_only : forall x, x ∈ R.*1 ->
    x ∈ frontier \/ exists p, (p, true) ∈ R /\ child_of dag p x
}.

(** ** Computations and the trace *)

Section Framing.
Context {G : Git}.

(** [m] only adds to the trace and does not read it: run after [tr], it
    does what it does after the empty trace, with [tr] in front. *)
Definition framed {A} (m : M A) : Prop :=
  forall w tr,
    m (mkState w tr) =
      ((m (mkState w [])).1,
       mkState (st_world (m (mkState w [])).2)
               (tr ++ st_trace (m (mkState w [])).2)).

End Framing.

Section Rendering.
Context {G : Git} {T : Termcolor}.

(** The line [create_branch_str] makes in the repository state [w]. *)
Definition branch_line (w : world) (bname : string)
    (active_branch : option Head) (depth : nat) (parent_bname : string)
    (repo : option Repo) (no_color : bool) : string :=
  match (create_branch_str bname active_branch depth parent_bname repo
           no_color (mkState w [])).1 with
  | Ret line => line
  | _ => ""
  end.

(** The lines of the branches below [cur], in the order of the walk: every
    child of [cur], each followed by the lines of what is below it. *)
Fixpoint subtree_lines (fuel : nat) (dag : DAG) (w : world)
    (active_branch : option Head) (color : bool) (depth : nat) (cur : string)
    : list string :=
  match fuel with
  | O => []
  | S fuel' =>
      flat_map
        (fun b =>
           branch_line w (obj_name (name b)) active_branch depth
             (obj_name (default "" (tracking_branch b))) (Some TheRepo)
             (negb color)
           :: subtree_lines fuel' dag w active_branch color (depth + 1)
                (obj_name (name b)))
        (default [] (dag !! cur))
  end.

(** The lines of the tree of [root]: its own line and the lines below it;
    nothing when [root] is no key. *)
Definition tree_lines (fuel : nat) (dag : DAG) (w : world)
    (active_branch : option Head) (color : bool) (root : option string)
    : list string :=
  match root ≫= (fun k => dag !! k), root with
  | Some _, Some cur =>
      branch_line w cur active_branch 0 "" None (negb color)
      :: subtree_lines fuel dag w active_branch color 1 cur
  | _, _ => []
  end.

End Rendering.

(** The rank of a start name. *)
Definition rank_of (rank : string -> nat) (start : option string) : nat :=
  match start with Some c => rank c | None => 0 end.

(** [b] has no tracking branch and is named [t]. *)
Definition untracked_named (t : string) (b : Head) : Prop :=
  tracking_branch b = None /\ obj_name (name b) = t.

#[global] Instance untracked_named_dec t b : Decision (untracked_named t b).
Proof. unfold untracked_named. apply _. Defined.


(** ** What a computation does to the repository and the trace *)

Section Steps.
Context {G : Git}.

(** [m], run from [s], adds [tr] to the trace and takes the repository
    from its state in [s] to a state related to it and to [tr] by [R]. *)
Definition steps_at {A} (R : world -> world -> list event -> Prop)
    (m : M A) (s : State) : Prop :=
  exists tr,
    st_trace (m s).2 = st_trace s ++ tr /\
    R (st_world s) (st_world (m s).2) tr.

Definition steps {A} (R : world -> world -> list event -> Prop) (m : M A)
    : Prop :=
  forall s, steps_at R m s.

(** A relation that computations can be composed under: doing nothing
    is in it, and so is one step after another. *)
Record composable (R : world -> world -> list event -> Prop) : Prop := {
  composable_nil : forall w, R w w [];
  composable_app : forall w1 w2 w3 tr1 tr2,
    R w1 w2 tr1 -> R w2 w3 tr2 -> R w1 w3 (tr1 ++ tr2)
}.

End Steps.

(** An event that is a printed line. *)
Definition is_stdout (e : event) : Prop :=
  match e with Stdout _ => True | _ => False end.

(** The commands of one edge of a cascade: a rebase that succeeds,
    followed by the push of the same branch when pushes are asked for; or
    a rebase that fails, followed by the abort. *)
Inductive edge_commands (push_updates : bool) : list event -> Prop :=
  | edge_rebased new_base feature :
      push_updates = false ->
      edge_commands push_updates [GitRebase new_base feature None]
  | edge_pushed new_base feature pushed :
      push_updates = true ->
      edge_commands push_updates
        [GitRebase new_base feature None; GitPush feature pushed]
  | edge_failed new_base feature msg aborted :
      edge_commands push_updates
        [GitRebase new_base feature (Some msg); GitRebaseAbort aborted].

(** A sequence of commands made of the commands of edges, one edge after
    another. *)
Definition edge_after_edge (push_updates : bool) (cmds : list event) : Prop :=
  exists edges,
    cmds = mjoin edges /\ Forall (edge_commands push_updates) edges.

(** The rebase [e], if it is one, is the rebase of a branch listed in
    [dag] onto the branch it tracks. *)
Definition rebase_onto_tracked (dag : DAG) (e : event) : Prop :=
  match e with
  | GitRebase new_base feature _ =>
      exists k children b t,
        dag !! k = Some children /\ b ∈ children /\
        tracking_branch b = Some t /\
        feature = obj_name (name b) /\ new_base = obj_name t
  | _ => True
  end.

(** What [e] needs on the command line: a rebase or an abort needs
    [--cascade], a push needs [--cascade] and [--push]. *)
Definition allowed_by (args : Args) (e : event) : Prop :=
  match e with
  | GitRebase _ _ _ | GitRebaseAbort _ => arg_cascade args = true
  | GitPush _ _ => arg_cascade args = true /\ arg_push args = true
  | _ => True
  end.

(** ** What a computation may do *)

Section Relations.
Context {G : Git}.

(** Reading: the repository stays as it is and only lines are added. *)
Definition reads_only (w w' : world) (tr : list event) : Prop :=
  w' = w /\ Forall is_stdout tr.

(** The commands of the trace are those of edges, one after another. *)
Definition by_edges (push_updates : bool) (w w' : world) (tr : list event)
    : Prop :=
  edge_after_edge push_updates (commands tr).

(** Every rebase in the trace is one of a listed branch onto the branch it
    tracks. *)
Definition onto_tracked (dag : DAG) (w w' : world) (tr : list event) : Prop :=
  Forall (rebase_onto_tracked dag) tr.

(** Every event of the trace is one the command line allows. *)
Definition within (args : Args) (w w' : world) (tr : list event) : Prop :=
  Forall (allowed_by args) tr.

(** The one line a run prints when HEAD is on no branch. *)
Definition detached_notice (msg : string) : event :=
  Stdout ("Could not get active branch due to error: " +:+ msg).

(** The branch a rebase or a push is about is below [cur]. *)
Definition in_subtree (dag : DAG) (cur : string) (e : event) : Prop :=
  match e with
  | GitRebase _ feature _ | GitPush feature _ => reachable dag cur feature
  | _ => True
  end.

Definition below (dag : DAG) (cur : string) (w w' : world) (tr : list event)
    : Prop :=
  Forall (in_subtree dag cur) tr.

End Relations.

(** ** What the roots lead to *)

(** The branch named [n] is on a tree of the output: it is a root, or a
    walk from a root comes to it. *)
Definition shown (dag : DAG) (roots : list string) (n : string) : Prop :=
  n ∈ roots \/ exists r, r ∈ roots /\ reachable dag r n.

(** ** The entries of a rendering *)

(** The branches below [cur] in the order of the walk, each with the depth
    of its line. *)
Fixpoint subtree_entries (fuel : nat) (dag : DAG) (depth : nat) (cur : string)
    : list (nat * Head) :=
  match fuel with
  | O => []
  | S fuel' =>
      flat_map
        (fun b =>
           (depth, b)
           :: subtree_entries fuel' dag (depth + 1) (obj_name (name b)))
        (default [] (dag !! cur))
  end.

Definition entry_names (entries : list (nat * Head)) : list string :=
  (fun e => obj_name (name e.2)) <$> entries.

Section Entries.
Context {G : Git} {T : Termcolor}.

(** The line of an entry. *)
Definition entry_line (w : world) (active_branch : option Head) (color : bool)
    (e : nat * Head) : string :=
  branch_line w (obj_name (name e.2)) active_branch e.1
    (obj_name (default "" (tracking_branch e.2))) (Some TheRepo) (negb color).

End Entries.

(** No character of [s] is a space or a line feed, and [s] is not empty:
    what a branch name has to be for its line to be read back. *)
Definition plain_name (s : string) : Prop :=
  s <> "" /\
  Forall (fun c => c <> " "%char /\ c <> "010"%char) (list_ascii_of_string s).

(** ** The rest of [gitflow.py] *)

Section ByBranch.
Context {G : Git}.

(** [commit_delta_by_branch(cur_branch, repo)]. *)
Definition commit_delta_by_branch (cur_branch : Head) (repo : option Repo)
    : M (option Z * option Z) :=
  let* cur_branch_name := lift (branch_name (of_head cur_branch)) in
  let* parent_branch_name :=
    lift (branch_name (of_ref (tracking_branch cur_branch))) in
  commit_delta_by_branch_name cur_branch_name parent_branch_name repo.

End ByBranch.

(** A commit object: its hash and its parents, the first one first.  The
    history is finite and has no cycle. *)
#[warnings="-register-all"] Inductive Commit :=
  mkCommit (hexsha : string) (parents : list Commit).

Definition parents (c : Commit) : list Commit :=
  match c with mkCommit _ ps => ps end.

(** [get_commit_for_branch(branch)], from [branch.commit]: follow the
    first parent while the commit has more than one. *)
Fixpoint get_commit_for_branch (commit : Commit) : Commit :=
  match commit with
  | mkCommit _ (first :: _ :: _) => get_commit_for_branch first
  | _ => commit
  end.

(** [r] is come to from [c] by first parents, through merges only. *)
Inductive through_merges : Commit -> Commit -> Prop :=
  | merges_none c : through_merges c c
  | merges_step hexsha first second rest r :
      through_merges first r ->
      through_merges (mkCommit hexsha (first :: second :: rest)) r.

(** Induction along the first parents. *)
Fixpoint Commit_first_parent_ind (P : Commit -> Prop)
    (Hroot : forall hexsha, P (mkCommit hexsha []))
    (Hstep : forall hexsha first rest, P first ->
               P (mkCommit hexsha (first :: rest)))
    (c : Commit) {struct c} : P c :=
  match c with
  | mkCommit hexsha [] => Hroot hexsha
  | mkCommit hexsha (first :: rest) =>
      Hstep hexsha first rest
        (Commit_first_parent_ind P Hroot Hstep first)
  end.

(** * [prune_branches.py] *)

Module Prune.

(** What the shell is to the program: a command is run and ends with
    status zero ([true]) or not. *)
Class Shell := {
  shell_world : Type;
  check_call : string -> shell_world -> bool * shell_world
}.

(** [s] without the prefix [p], when it has it. *)
Fixpoint strip_prefix (p s : string) : option string :=
  match p, s with
  | EmptyString, _ => Some s
  | String a p', String b s' =>
      if Ascii.eqb a b then strip_prefix p' s' else None
  | String _ _, EmptyString => None
  end.

(** The group [.+?] of the pattern, read after [acc], up to the first
    space that follows; [.] matches no line feed. *)
Fixpoint group_end (acc s : string) : option string :=
  match s with
  | EmptyString => None
  | String c s' =>
      if Ascii.eqb c " " then Some acc
      else if Ascii.eqb c "010" then None
      else group_end (acc +:+ String c EmptyString) s'
  end.

(** The group from its first character, which may be any but a line
    feed. *)
Definition group (s : string) : option string :=
  match s with
  | EmptyString => None
  | String c s' =>
      if Ascii.eqb c "010" then None else group_end (String c EmptyString) s'
  end.

(** [pattern.search(line)] for the default pattern
    [\|-> (?P<raw_branch_name>.+?) ]: the first position from which the
    pattern matches, and the group there. *)
Fixpoint search (line : string) : option string :=
  match line with
  | EmptyString => None
  | String _ rest =>
      match strip_prefix "|-> " line ≫= group with
      | Some g => Some g
      | None => search rest
      end
  end.

Definition extract_raw_branch_name (line : string) : option string :=
  search line.

(** [re.match(r'\s*origin\/', line)]. *)
Definition is_remote (line : string) : bool :=
  Py.startswith (Py.lstrip_space line) "origin/".

(** [text.split('\n')], [cur] being the piece that is read. *)
Fixpoint split_on (sep : ascii) (cur text : string) : list string :=
  match text with
  | EmptyString => [cur]
  | String c text' =>
      if Ascii.eqb c sep then cur :: split_on sep EmptyString text'
      else split_on sep (cur +:+ String c EmptyString) text'
  end.

(** The lines of the status that are not empty. *)
Definition status_lines (output : string) : list string :=
  List.filter (fun line => negb (String.eqb line ""))
    (split_on "010" EmptyString output).

(** The lookup from a line of the status to the branch name read from
    it. *)
Definition raw_branch_map (gf_status : list string) : gmap string string :=
  foldl (fun m line =>
           match extract_raw_branch_name line with
           | None => m
           | Some raw_branch_name => <[line := raw_branch_name]> m
           end) ∅ gf_status.

Inductive event :=
  | Warned (line : string)
  | Called (cmd : string) (ok : bool).

Inductive result :=
  | Returned (status : Z)
  | CalledProcessError (cmd : string)
  | PickError.

(** The characters that the shell takes as they are wherever they stand in
    a word: the letters, the digits and [_ - . /]. *)
Definition shell_char (c : ascii) : bool :=
  let n := nat_of_ascii c in
  ((48 <=? n) && (n <=? 57) || (65 <=? n) && (n <=? 90) ||
   (97 <=? n) && (n <=? 122) ||
   (n =? 95) || (n =? 45) || (n =? 46) || (n =? 47))%nat.

(** A word of such characters, which is not empty. *)
Definition shell_word (s : string) : Prop :=
  s <> "" /\
  Forall (fun c => shell_char c = true) (list_ascii_of_string s).

(** The command line of the words [args]. *)
Definition command_line (args : list string) : string :=
  String.concat " " args.

Section Main.
Context {Sh : Shell}.

(** What [shell=True] does with a line of such words that begins with
    [git]: the shell finds no operator, no quote and no expansion in it,
    and runs [git] on the words, which is [exec] on them. *)
Definition runs_git
    (exec : list string -> shell_world -> bool * shell_world) : Prop :=
  forall args w,
    Forall shell_word args ->
    check_call (command_line ("git" :: args)) w = exec ("git" :: args) w.

(** The loop over the selections. *)
Fixpoint prune_selected (m : gmap string string) (selections : list string)
    (w : shell_world) (tr : list event) : result * shell_world * list event :=
  match selections with
  | [] => (Returned 0, w, tr)
  | line :: rest =>
      if is_remote line then prune_selected m rest w tr
      else
        match m !! line with
        | None =>
            prune_selected m rest w
              (tr ++ [Warned ("Warning! Could not find raw branch name for "
                               +:+ line)])
        | Some raw_branch_name =>
            let cmd := "git branch -D " +:+ raw_branch_name in
            let '(ok, w') := check_call cmd w in
            if ok then prune_selected m rest w' (tr ++ [Called cmd true])
            else (CalledProcessError cmd, w', tr ++ [Called cmd false])
        end
  end.

(** [main]: [gitflow] is the output of [gitflow --no-color], if that ended
    with status zero, and [pick] the selection the user makes among the
    lines, if the picker returns one. *)
Definition main (gitflow : option string)
    (pick : list string -> option (list string)) (w : shell_world)
    : result * shell_world * list event :=
  match gitflow with
  | None => (CalledProcessError "gitflow --no-color", w, [])
  | Some output =>
      let gf_status := status_lines output in
      let gf_to_raw_branch_map := raw_branch_map gf_status in
      match pick gf_status with
      | None => (PickError, w, [])
      | Some selections =>
          prune_selected gf_to_raw_branch_map selections w []
      end
  end.

End Main.

End Prune.

(** ** The repository along a run *)

Section Replay.
Context {G : Git}.

(** What the command behind [e] does to the repository. *)
Definition apply_event (w : world) (e : event) : world :=
  match e with
  | Stdout _ => w
  | GitRebase new_base feature _ => (git_rebase new_base feature w).2
  | GitRebaseAbort _ => (git_rebase_abort w).2
  | GitPush branch _ => (git_push_force branch w).2
  | GitCheckout target _ => (git_checkout target w).2
  | GitFetch branch _ => (git_fetch branch w).2
  | GitResetKeep ref _ => (git_reset_keep ref w).2
  end.

(** The repository after the commands of [tr], sent from [w]. *)
Definition replay (tr : list event) (w : world) : world :=
  foldl apply_event w tr.

(** At some point of the run that sent [tr] from [w], HEAD was on no
    branch. *)
Definition head_lost (w : world) (tr : list event) : Prop :=
  exists tr1 tr2, tr = tr1 ++ tr2 /\ ~ attached (replay tr1 w).


(** [m], run from [s], adds to the trace, leaves the repository as the
    commands it sent make it, and raises nothing but the assertion of
    [branch_name], and that only when HEAD was on no branch at some
    point. *)
Definition ends_at {A} (m : M A) (s : State) : Prop :=
  exists tr,
    st_trace (m s).2 = st_trace s ++ tr /\
    st_world (m s).2 = replay tr (st_world s) /\
    forall e, (m s).1 = Raise e ->
      exists msg, e = AssertionError msg /\ head_lost (st_world s) tr.

(** The trace follows the repository. *)
Definition follows (w w' : world) (tr : list event) : Prop :=
  w' = replay tr w.

End Replay.




(** ** Failures and their reports *)

Section Reports.
Context {T : Termcolor}.



End Reports.




(** ** Further cases to run the program on *)

Module Cases.

(** A branch that tracks itself. *)
Definition branches_loop : list Head := [mkHead "A" (Some "./A")].

Definition dag_loop : DAG := (build_git_dag branches_loop).1.

(** A branch on a remote that is not [origin]. *)
Definition branch_feature : Head := mkHead "feature" (Some "upstream/main").

Definition branches_foreign : list Head := [branch_feature].

(** A merge of two commits without parents, and one of them. *)
Definition commit_a : Commit := mkCommit "a" [].

Definition commit_merge : Commit :=
  mkCommit "m" [commit_a; mkCommit "b" []].


(** A checkout as git has it for the references that are no local branch:
    that of a reference some branch tracks succeeds and leaves HEAD on no
    branch. *)
Definition checkout_ref (target : option string) (w : Sim.repo_state)
    : option string * Sim.repo_state :=
  match target with
  | None => (None, w)
  | Some n =>
      if bool_decide (n ∈ name <$> Sim.heads w) then
        (None, Sim.set_head (Some n) (Sim.rebasing w) w)
      else if bool_decide (Some n ∈ tracking_branch <$> Sim.heads w) then
        (None, Sim.set_head None (Sim.rebasing w) w)
      else (Some "pathspec did not match", w)
  end.

(** The small repository with such a checkout. *)
Definition git_remotes : Git := {|
  world := Sim.repo_state;
  git_toplevel := @git_toplevel Sim.git;
  path_exists := @path_exists Sim.git;
  git_branches := @git_branches Sim.git;
  git_active_branch := @git_active_branch Sim.git;
  git_rev_list_count := @git_rev_list_count Sim.git;
  git_rebase := @git_rebase Sim.git;
  git_rebase_abort := @git_rebase_abort Sim.git;
  git_push_force := @git_push_force Sim.git;
  git_checkout := checkout_ref;
  git_fetch := @git_fetch Sim.git;
  git_reset_keep := @git_reset_keep Sim.git
|}.




(** The words of a command, which spaces separate. *)
Definition words (cmd : string) : list string :=
  List.filter (fun word => negb (String.eqb word ""))
    (Prune.split_on " " EmptyString cmd).

(** The running of a program on its arguments, which succeeds and is
    recorded. *)
Definition execvp (args : list string) (w : list (list string))
    : bool * list (list string) :=
  (true, w ++ [args]).

(** A shell that reads a line as the commands that [;] separates and runs
    each on its words. *)
Definition sh : Prune.Shell :=
  {| Prune.shell_world := list (list string);
     Prune.check_call cmd w :=
       (true, w ++ (words <$> Prune.split_on ";" EmptyString cmd)) |}.

End Cases.

(** * Properties *)

(** ** The DAG builder *)

Section Builder.

Lemma setdefault_lookup k k' (dag : DAG) :
  setdefault k dag !! k' =
    if decide (k = k') then Some (default [] (dag !! k')) else dag !! k'.
Proof.
  unfold setdefault. destruct (decide (k = k')) as [->|Hne].
  - destruct (dag !! k') eqn:E; simpl; [by rewrite E | by rewrite lookup_insert_eq].
  - destruct (dag !! k) eqn:E; [done | by rewrite lookup_insert_ne].
Qed.

Lemma append_child_lookup k b k' (dag : DAG) :
  append_child k b dag !! k' =
    if decide (k = k') then Some (default [] (dag !! k') ++ [b]) else dag !! k'.
Proof.
  unfold append_child. destruct (decide (k = k')) as [->|Hne].
  - by rewrite lookup_insert_eq.
  - by rewrite lookup_insert_ne.
Qed.

Lemma build_step_lookup dag roots b k :
  (build_step (dag, roots) b).1 !! k =
    if decide (touches k b)
    then Some (default [] (dag !! k) ++ filter (tracks k) [b])
    else dag !! k.
Proof.
  rewrite filter_cons, filter_nil.
  destruct (decide (touches k b)) as [Ht|Ht];
    destruct (decide (tracks k b)) as [Hk|Hk];
    destruct b as [n [tb|]]; unfold build_step, touches, tracks in *;
    cbn in *;
    rewrite ?append_child_lookup, ?setdefault_lookup;
    repeat case_decide; subst; cbn; rewrite ?app_nil_r;
    try reflexivity; try congruence; try tauto;
    exfalso; intuition congruence.
Qed.

Lemma build_step_roots dag roots b :
  (build_step (dag, roots) b).2 = roots ++ option_list (root_of b).
Proof.
  unfold build_step, root_of. destruct (tracking_branch b); simpl; [|done].
  destruct (Py.startswith _ _); simpl; [done | by rewrite app_nil_r].
Qed.

Lemma filter_tracks_untouched k bs :
  ¬ Exists (touches k) bs → filter (tracks k) bs = [].
Proof.
  induction bs as [|b bs IH]; intros Hn; [done|].
  rewrite filter_cons, decide_False.
  - apply IH. intros Hc. apply Hn. by right.
  - intros Hc. apply Hn. left. by right.
Qed.

Lemma fold_build_lookup bs dag roots k :
  (fold_left build_step bs (dag, roots)).1 !! k =
    if decide (Exists (touches k) bs)
    then Some (default [] (dag !! k) ++ filter (tracks k) bs)
    else dag !! k.
Proof.
  revert dag roots. induction bs as [|b bs IH]; intros dag roots.
  - simpl. destruct (decide (Exists (touches k) [])) as [H|H]; [|done].
    by apply Exists_nil in H.
  - cbn [fold_left]. destruct (build_step (dag, roots) b) as [d1 r1] eqn:E.
    rewrite IH. pose proof (build_step_lookup dag roots b k) as Hs.
    rewrite E in Hs; simpl in Hs. rewrite Hs. clear Hs E IH.
    rewrite (filter_cons _ b bs).
    destruct (decide (Exists (touches k) bs)) as [Hbs|Hbs];
      destruct (decide (touches k b)) as [Hb|Hb];
      destruct (decide (Exists (touches k) (b :: bs))) as [Hc|Hc];
      rewrite ?Exists_cons in Hc; try tauto; simpl.
    + rewrite <- app_assoc, filter_cons, filter_nil.
      by destruct (decide (tracks k b)).
    + destruct (decide (tracks k b)) as [Hk|Hk]; [|done].
      exfalso. apply Hb. by right.
    + rewrite (filter_tracks_untouched k bs Hbs), filter_cons, filter_nil.
      by destruct (decide (tracks k b)).
Qed.

Lemma fold_build_roots bs dag roots :
  (fold_left build_step bs (dag, roots)).2 = roots ++ omap root_of bs.
Proof.
  revert dag roots. induction bs as [|b bs IH]; intros dag roots.
  - cbn. by rewrite app_nil_r.
  - cbn [fold_left]. destruct (build_step (dag, roots) b) as [d1 r1] eqn:E.
    rewrite IH. pose proof (build_step_roots dag roots b) as Hs.
    rewrite E in Hs; simpl in Hs. rewrite Hs, <- app_assoc. f_equal.
    cbn. by destruct (root_of b).
Qed.

Lemma build_git_dag_lookup bs k :
  (build_git_dag bs).1 !! k =
    if decide (Exists (touches k) bs) then Some (filter (tracks k) bs) else None.
Proof. unfold build_git_dag. rewrite fold_build_lookup, lookup_empty. done. Qed.

Lemma build_git_dag_roots bs : (build_git_dag bs).2 = omap root_of bs.
Proof. unfold build_git_dag. by rewrite fold_build_roots. Qed.

Lemma occurrences_filter {A} `{EqDecision A} (P : A -> Prop)
    `{forall x, Decision (P x)} (x : A) (l : list A) :
  P x -> occurrences x (filter P l) = occurrences x l.
Proof.
  intros Hx. unfold occurrences. induction l as [|y l IH]; [done|].
  rewrite !filter_cons.
  destruct (decide (P y)) as [Hy|Hy]; destruct (decide (y = x)) as [->|Hne];
    rewrite ?filter_cons; try rewrite decide_True by done;
    try rewrite decide_False by done; simpl; try rewrite IH; try done.
Qed.

Lemma occurrences_absent {A} `{EqDecision A} (x : A) (l : list A) :
  x ∉ l -> occurrences x l = 0.
Proof.
  unfold occurrences. induction l as [|y l IH]; intros Hx; [done|].
  apply not_elem_of_cons in Hx as [Hne Hx].
  rewrite filter_cons, decide_False by done. by apply IH.
Qed.

Lemma occurrences_NoDup {A} `{EqDecision A} (x : A) (l : list A) :
  NoDup l -> x ∈ l -> occurrences x l = 1.
Proof.
  unfold occurrences. induction 1 as [|y l Hy Hl IH]; intros Hx.
  - by apply elem_of_nil in Hx.
  - rewrite filter_cons. destruct (decide (y = x)) as [->|Hne].
    + simpl. f_equal. by apply (occurrences_absent x l).
    + apply IH. apply elem_of_cons in Hx as [->|]; done.
Qed.

(** C2.  For every enumeration of branches: a branch without a tracking
    branch has its name in the roots; a branch with a tracking branch is in
    the child list kept under the tracking branch's name (an entry that
    exists), as often as the enumeration lists it, so exactly once when
    the enumeration lists every branch once; and the tracking branch's
    name is in the roots when it begins with the remote prefix. *)
Theorem build_git_dag_places_branches (bs : list Head) (b : Head) :
  b ∈ bs ->
  match tracking_branch b with
  | None => obj_name (name b) ∈ (build_git_dag bs).2
  | Some tb =>
      (exists children,
         (build_git_dag bs).1 !! obj_name tb = Some children /\
         occurrences b children = occurrences b bs /\
         (NoDup bs -> occurrences b children = 1)) /\
      (Py.startswith (obj_name tb) "origin" = true ->
       obj_name tb ∈ (build_git_dag bs).2)
  end.
Proof.
  intros Hb. rewrite build_git_dag_roots.
  destruct (tracking_branch b) as [tb|] eqn:Htb.
  - assert (Ht : tracks (obj_name tb) b) by (unfold tracks; by rewrite Htb).
    split.
    + exists (filter (tracks (obj_name tb)) bs).
      rewrite build_git_dag_lookup, decide_True.
      * split; [done|]. rewrite occurrences_filter by done.
        split; [done|]. intros Hnd. by apply occurrences_NoDup.
      * apply Exists_exists. exists b. split; [done|]. by right.
    + intros Hp. apply list_elem_of_omap. exists b. split; [done|].
      unfold root_of. by rewrite Htb, Hp.
  - apply list_elem_of_omap. exists b. split; [done|].
    unfold root_of. by rewrite Htb.
Qed.

Lemma build_git_dag_tracked bs : tracked (build_git_dag bs).1.
Proof.
  intros k children Hl. rewrite build_git_dag_lookup in Hl.
  destruct (decide (Exists (touches k) bs)); [|done]. inversion Hl; subst.
  apply Forall_forall. intros b Hb. apply list_elem_of_filter in Hb as [Hb _].
  unfold tracks in Hb. destruct (tracking_branch b); [eauto | done].
Qed.

Lemma NoDup_fmap_same {A B} (f : A -> B) (l : list A) x y :
  NoDup (f <$> l) -> x ∈ l -> y ∈ l -> f x = f y -> x = y.
Proof.
  induction l as [|a l IH]; intros Hnd Hx Hy Hf.
  - by apply elem_of_nil in Hx.
  - cbn in Hnd. apply NoDup_cons in Hnd as [Ha Hnd].
    apply elem_of_cons in Hx as [->|Hx], Hy as [->|Hy]; auto.
    + exfalso. apply Ha. rewrite Hf. by apply (list_elem_of_fmap_2 f).
    + exfalso. apply Ha. rewrite <- Hf. by apply (list_elem_of_fmap_2 f).
Qed.

Lemma NoDup_child_names_filter (P : Head -> Prop) `{forall b, Decision (P b)} bs :
  NoDup (child_names bs) -> NoDup (child_names (filter P bs)).
Proof.
  unfold child_names. induction bs as [|b bs IH]; intros Hnd; [constructor|].
  cbn in Hnd. apply NoDup_cons in Hnd as [Hb Hnd]. rewrite filter_cons.
  destruct (decide (P b)); [|by apply IH].
  cbn. apply NoDup_cons. split; [|by apply IH].
  intros Hin. apply Hb. apply list_elem_of_fmap in Hin as (b' & Heq & Hb').
  apply list_elem_of_filter in Hb' as [_ Hb']. rewrite Heq.
  by apply (list_elem_of_fmap_2 (fun b => obj_name (name b))).
Qed.

(** From branches of distinct names the builder makes a forest. *)
Lemma build_git_dag_forest bs :
  NoDup (child_names bs) -> forest (build_git_dag bs).1.
Proof.
  intros Hnd. split.
  - intros p children Hl. rewrite build_git_dag_lookup in Hl.
    destruct (decide (Exists (touches p) bs)); [|done]. inversion Hl; subst.
    by apply NoDup_child_names_filter.
  - intros p q c (lp & Hlp & Hcp) (lq & Hlq & Hcq).
    rewrite build_git_dag_lookup in Hlp, Hlq.
    destruct (decide (Exists (touches p) bs)); [|done].
    destruct (decide (Exists (touches q) bs)); [|done].
    inversion Hlp; inversion Hlq; subst.
    apply list_elem_of_fmap in Hcp as (b & -> & Hb).
    apply list_elem_of_fmap in Hcq as (b' & Hn & Hb').
    apply list_elem_of_filter in Hb as [Hp Hb], Hb' as [Hq Hb'].
    assert (b = b') as <-
      by (by apply (NoDup_fmap_same (fun b => obj_name (name b)) bs)).
    unfold tracks in Hp, Hq. congruence.
Qed.

End Builder.

(** ** Reading the counts *)

Section Strings.

Lemma uint_val_acc d (acc : positive) :
  uint_val d (Z.pos acc) = Z.pos (Pos.of_uint_acc d acc).
Proof.
  revert acc. induction d; intros acc; simpl; try done;
    rewrite <- IHd; f_equal; lia.
Qed.

Lemma uint_val_of_uint d : uint_val d 0 = Z.of_N (Pos.of_uint d).
Proof.
  induction d; simpl; try done; rewrite <- uint_val_acc; f_equal; lia.
Qed.

Lemma uint_val_to_uint p : uint_val (Pos.to_uint p) 0 = Z.pos p.
Proof. by rewrite uint_val_of_uint, DecimalPos.Unsigned.of_to. Qed.

Lemma int_digits_cons c s acc prev d :
  Py.digit_of c = Some d ->
  Py.int_digits acc prev (String c s) = Py.int_digits (acc * 10 + d) true s.
Proof. intros H. simpl. by rewrite H. Qed.

Ltac read_digit :=
  match goal with
  | |- context [Py.int_digits _ _ (String ?c _)] =>
      let v := eval vm_compute in (Py.digit_of c) in
      match v with
      | Some ?k => rewrite (int_digits_cons c _ _ _ k) by (vm_compute; reflexivity)
      end
  end.

Lemma int_digits_uint_true d acc :
  Py.int_digits acc true (NilEmpty.string_of_uint d) = Some (uint_val d acc).
Proof.
  revert acc. induction d; intros acc; [done | ..];
    cbn [NilEmpty.string_of_uint uint_val];
    read_digit; rewrite IHd; do 2 f_equal; lia.
Qed.

Lemma int_digits_uint d acc prev :
  d <> Decimal.Nil ->
  Py.int_digits acc prev (NilEmpty.string_of_uint d) = Some (uint_val d acc).
Proof.
  intros Hd. destruct d; [done | ..];
    cbn [NilEmpty.string_of_uint uint_val];
    read_digit; rewrite int_digits_uint_true; do 2 f_equal; lia.
Qed.

Lemma spaceless_uint d : spaceless (NilEmpty.string_of_uint d).
Proof.
  unfold spaceless. induction d; simpl; constructor; done.
Qed.

Lemma lstrip_space_spaceless s : spaceless s -> Py.lstrip_space s = s.
Proof.
  unfold spaceless. destruct s as [|c s]; [done|]. simpl.
  intros H. apply Forall_cons in H as [-> _]. done.
Qed.

Lemma rev_string_involutive s : Py.rev_string (Py.rev_string s) = s.
Proof.
  unfold Py.rev_string.
  by rewrite list_ascii_of_string_of_list_ascii, rev_involutive,
    string_of_list_ascii_of_string.
Qed.

Lemma spaceless_rev s : spaceless s -> spaceless (Py.rev_string s).
Proof.
  unfold spaceless, Py.rev_string. rewrite list_ascii_of_string_of_list_ascii.
  intros H. apply Forall_forall. intros c Hc.
  apply list_elem_of_In, in_rev, list_elem_of_In in Hc.
  by apply (proj1 (Forall_forall _ _) H).
Qed.

Lemma strip_spaceless s : spaceless s -> Py.strip s = s.
Proof.
  intros H. unfold Py.strip.
  rewrite (lstrip_space_spaceless s H).
  rewrite (lstrip_space_spaceless _ (spaceless_rev s H)).
  apply rev_string_involutive.
Qed.

Lemma isspace_int_isspace c : Py.isspace c = false -> Py.isspace_int c = false.
Proof. destruct c as [[] [] [] [] [] [] [] []]; vm_compute; congruence. Qed.

Lemma lstrip_int_spaceless s : spaceless s -> Py.lstrip_int s = s.
Proof.
  unfold spaceless. destruct s as [|c s]; [done|]. simpl.
  intros H. apply Forall_cons in H as [Hc _].
  by rewrite (isspace_int_isspace c Hc).
Qed.

Lemma strip_int_spaceless s : spaceless s -> Py.strip_int s = s.
Proof.
  intros H. unfold Py.strip_int.
  rewrite (lstrip_int_spaceless s H).
  rewrite (lstrip_int_spaceless _ (spaceless_rev s H)).
  apply rev_string_involutive.
Qed.

Lemma spaceless_str_int z : spaceless (Py.str_int z).
Proof.
  unfold Py.str_int. destruct z as [|p|p]; simpl.
  - repeat constructor.
  - unfold NilZero.string_of_uint. destruct (Pos.to_uint p); try apply spaceless_uint.
    repeat constructor.
  - unfold NilZero.string_of_uint. constructor; [done|].
    destruct (Pos.to_uint p); try apply spaceless_uint. repeat constructor.
Qed.

Lemma str_int_nonempty z : Py.str_int z <> "".
Proof.
  unfold Py.str_int. destruct z as [|p|p]; simpl; try done.
  pose proof (DecimalPos.Unsigned.to_uint_nonnil p) as Hn.
  unfold NilZero.string_of_uint. destruct (Pos.to_uint p); done.
Qed.

(** [int(str(z)) = z]. *)
Lemma int_str_int z : Py.int (Py.str_int z) = Some z.
Proof.
  unfold Py.int. rewrite (strip_int_spaceless _ (spaceless_str_int z)).
  unfold Py.str_int. destruct z as [|p|p]; simpl; try done.
  - pose proof (DecimalPos.Unsigned.to_uint_nonnil p) as Hn.
    pose proof (uint_val_to_uint p) as Hv.
    unfold NilZero.string_of_uint.
    destruct (Pos.to_uint p) eqn:E; try done; simpl;
      rewrite <- Hv; simpl;
      match goal with
      | |- context [Py.int_digits ?a ?b (NilEmpty.string_of_uint ?d)] =>
          destruct d; [done | rewrite int_digits_uint by done; done ..]
      end.
  - pose proof (DecimalPos.Unsigned.to_uint_nonnil p) as Hn.
    pose proof (uint_val_to_uint p) as Hv.
    unfold NilZero.string_of_uint.
    destruct (Pos.to_uint p) eqn:E; try done; simpl;
      replace (Z.neg p) with (- Z.pos p)%Z by done; rewrite <- Hv; simpl;
      match goal with
      | |- context [Py.int_digits ?a ?b (NilEmpty.string_of_uint ?d)] =>
          destruct d; [done | rewrite int_digits_uint by done; done ..]
      end.
Qed.

Lemma split_go_spaceless s cur rest :
  spaceless s ->
  Py.split_go cur (s +:+ rest) =
    Py.split_go (rev (list_ascii_of_string s) ++ cur) rest.
Proof.
  unfold spaceless. revert cur. induction s as [|c s IH]; intros cur H; [done|].
  simpl in H. apply Forall_cons in H as [Hc H]. simpl. rewrite Hc.
  rewrite IH by done. by rewrite <- app_assoc.
Qed.

Lemma rev_nonempty {A} (l : list A) : l <> [] -> rev l <> [].
Proof. destruct l; [done|]. simpl. intros _ H. by apply app_eq_nil in H as [_ ?]. Qed.

Lemma chars_nonempty s : s <> "" -> list_ascii_of_string s <> [].
Proof. by destruct s. Qed.

Lemma append_empty_r s : s +:+ "" = s.
Proof.
  induction s as [|c s IH]; [done|].
  change (String c (s +:+ "") = String c s). by rewrite IH.
Qed.

(** Two fields with a tab between them are split into the two. *)
Lemma split_two a b :
  spaceless a -> spaceless b -> a <> "" -> b <> "" ->
  Py.split (a +:+ String "009"%char b) = [a; b].
Proof.
  intros Ha Hb Hna Hnb. unfold Py.split.
  rewrite (split_go_spaceless a [] _ Ha), app_nil_r.
  pose proof (rev_nonempty _ (chars_nonempty a Hna)) as Hra.
  cbn [Py.split_go]. change (Py.isspace "009") with true. cbv iota.
  destruct (rev (list_ascii_of_string a)) as [|x l] eqn:E; [done|].
  rewrite <- E, rev_involutive, string_of_list_ascii_of_string. f_equal.
  rewrite <- (append_empty_r b) at 1.
  rewrite (split_go_spaceless b [] _ Hb), app_nil_r.
  pose proof (rev_nonempty _ (chars_nonempty b Hnb)) as Hrb.
  cbn [Py.split_go].
  destruct (rev (list_ascii_of_string b)) as [|y l'] eqn:E'; [done|].
  by rewrite <- E', rev_involutive, string_of_list_ascii_of_string.
Qed.

End Strings.

(** ** The divergence calculator *)

Section Delta.
Context {G : Git} {T : Termcolor}.

Lemma read_delta_counts range s left right :
  git_rev_list_count range (st_world s) = Some (left_right_count left right) ->
  read_delta range (Some TheRepo) s = (Ret (left, right), s).
Proof.
  intros H. unfold read_delta, bind, query. rewrite H.
  unfold left_right_count.
  rewrite split_two by
    (try apply spaceless_str_int; try apply str_int_nonempty).
  cbn [mapM]. unfold mbind, option_bind.
  rewrite !strip_spaceless by apply spaceless_str_int.
  rewrite !int_str_int. done.
Qed.

(** C4.  The divergence calculator always returns a pair and never raises,
    and it leaves the state as it was.  When the command fails, the pair is
    [(None, None)]; when the command reports [left] commits reachable from
    the first branch only and [right] from the second only, the pair is
    [(left, right)]. *)
Theorem commit_delta_returns_pair_never_raises
    (branch_a branch_b : string) (repo : option Repo) (s : State) :
  exists d,
    commit_delta_by_branch_name branch_a branch_b repo s = (Ret d, s) /\
    (git_rev_list_count (branch_a +:+ "..." +:+ branch_b) (st_world s) = None ->
     d = (None, None)) /\
    (forall left right,
       repo = Some TheRepo ->
       git_rev_list_count (branch_a +:+ "..." +:+ branch_b) (st_world s)
         = Some (left_right_count left right) ->
       d = (Some left, Some right)).
Proof.
  unfold commit_delta_by_branch_name, try_except, bind.
  destruct (read_delta (branch_a +:+ "..." +:+ branch_b) repo s) as [o s'] eqn:E.
  assert (Hs : s' = s).
  { unfold read_delta in E. destruct repo; [|by inversion E].
    unfold bind, query in E.
    destruct (git_rev_list_count _ _); [|by inversion E].
    destruct (mapM _ _) as [[|x [|y [|z l]]]|]; by inversion E. }
  subst s'. destruct o as [[l r]|e|].
  - exists (Some l, Some r). split; [done|]. split.
    + intros Hn. unfold read_delta in E. destruct repo; [|by inversion E].
      unfold bind, query in E. rewrite Hn in E. by inversion E.
    + intros left right -> Hc.
      rewrite (read_delta_counts _ _ _ _ Hc) in E. by inversion E.
  - exists (None, None). split; [done|]. split; [done|].
    intros left right -> Hc.
    rewrite (read_delta_counts _ _ _ _ Hc) in E. by inversion E.
  - exfalso. unfold read_delta in E. destruct repo; [|by inversion E].
    unfold bind, query in E.
    destruct (git_rev_list_count _ _); [|by inversion E].
    destruct (mapM _ _) as [[|x [|y [|z l]]]|]; by inversion E.
Qed.

End Delta.

(** ** One step of the walk *)

Section Steps.
Context {G : Git} {T : Termcolor}.

Lemma commit_delta_total cur parent repo (s : State) :
  exists d, commit_delta_by_branch_name cur parent repo s = (Ret d, s).
Proof.
  unfold commit_delta_by_branch_name, try_except, bind.
  destruct (read_delta (cur +:+ "..." +:+ parent) repo s) as [o s'] eqn:E.
  assert (Hs : s' = s).
  { unfold read_delta in E. destruct repo; [|by inversion E].
    unfold bind, query in E.
    destruct (git_rev_list_count _ _); [|by inversion E].
    destruct (mapM _ _) as [[|x [|y [|z l]]]|]; by inversion E. }
  subst s'. destruct o as [[l r]|e|]; eauto.
  exfalso. unfold read_delta in E. destruct repo; [|by inversion E].
  unfold bind, query in E.
  destruct (git_rev_list_count _ _); [|by inversion E].
  destruct (mapM _ _) as [[|x [|y [|z l]]]|]; by inversion E.
Qed.

(** With HEAD on a branch, a line is made and nothing else happens. *)
Lemma create_branch_str_attached bname h depth parent repo no_color (s : State) :
  exists line,
    create_branch_str bname (Some h) depth parent repo no_color s = (Ret line, s).
Proof.
  unfold create_branch_str, bind.
  destruct (negb (String.eqb parent "") && bool_decide (is_Some repo))%bool.
  - destruct (commit_delta_total bname parent repo s) as [[ca pa] ->].
    destruct ca, pa; cbn; destruct (String.eqb bname _); eauto.
  - cbn. destruct (String.eqb bname _); eauto.
Qed.

(** Without an active branch, the assertion of [branch_name] fails. *)
Lemma create_branch_str_detached bname depth parent repo no_color (s : State) :
  exists msg,
    create_branch_str bname None depth parent repo no_color s
      = (Raise (AssertionError msg), s).
Proof.
  unfold create_branch_str, bind.
  destruct (negb (String.eqb parent "") && bool_decide (is_Some repo))%bool.
  - destruct (commit_delta_total bname parent repo s) as [[ca pa] ->].
    destruct ca, pa; cbn; eauto.
  - cbn. eauto.
Qed.

Lemma active_branch_attached (s : State) h :
  git_active_branch (st_world s) = inr h ->
  active_branch_from_repo (Some TheRepo) false s = (Ret (Some h), s).
Proof. intros H. unfold active_branch_from_repo, bind, query. by rewrite H. Qed.

Lemma active_branch_quiet repo (s : State) :
  exists a, active_branch_from_repo repo false s = (Ret a, s).
Proof.
  unfold active_branch_from_repo, bind, query. destruct repo; [|eauto].
  destruct (git_active_branch _); cbn; eauto.
Qed.

Lemma app_cons_assoc {A} (l : list A) x l' : (l ++ [x]) ++ l' = l ++ x :: l'.
Proof. by rewrite <- app_assoc. Qed.

(** What the cascade of one child does, by the results of the commands. *)
Lemma cascade_child_run bname parent push_updates (s : State) :
  cascade_child (Some TheRepo) bname parent push_updates s =
    match git_rebase parent bname (st_world s) with
    | (Some msg, w1) =>
        (Ret false,
         mkState (git_rebase_abort w1).2
           (st_trace s ++
              failed_rebase_events bname parent msg (git_rebase_abort w1).1))
    | (None, w1) =>
        if push_updates then
          (Ret true,
           mkState (git_push_force bname w1).2
             (st_trace s ++ rebased_events bname parent ++
                push_events bname (git_push_force bname w1).1))
        else
          (Ret true, mkState w1 (st_trace s ++ rebased_events bname parent))
    end.
Proof.
  unfold cascade_child, try_except, rebase_onto, force_push_no_verify,
    abort_reabse, bind, print, emit, command, ret, raise,
    failed_rebase_events, rebased_events, push_events, rebase_cmd; cbn.
  destruct (git_rebase parent bname (st_world s)) as [[msg|] w1]; cbn.
  - destruct (git_rebase_abort w1) as [[m|] w2]; cbn;
      rewrite ?app_cons_assoc; done.
  - destruct push_updates; cbn.
    + destruct (git_push_force bname w1) as [[m|] w2]; cbn;
        rewrite ?app_cons_assoc; done.
    + rewrite ?app_cons_assoc; done.
Qed.

End Steps.

Section Edges.
Context {G : Git} {T : Termcolor}.

(** The loop at a child with a tracking branch, HEAD being on a branch:
    the line is printed, and the rest goes by [go_on]. *)
Lemma for_children_cons rec h depth repo cascade color push_updates b t rest
    (s : State) :
  tracking_branch b = Some t ->
  exists line,
    create_branch_str (obj_name (name b)) (Some h) depth (obj_name t) repo
      (negb color) s = (Ret line, s) /\
    for_children rec (Some h) depth repo cascade color push_updates (b :: rest) s =
      (let* go_on :=
         (if cascade
          then cascade_child repo (obj_name (name b)) (obj_name t) push_updates
          else ret true) in
       if go_on then
         let* leaf_node_reached := rec (obj_name (name b)) in
         if negb leaf_node_reached then ret false
         else for_children rec (Some h) depth repo cascade color push_updates rest
       else for_children rec (Some h) depth repo cascade color push_updates rest)
      (mkState (st_world s) (st_trace s ++ [Stdout line])).
Proof.
  intros Ht.
  destruct (create_branch_str_attached (obj_name (name b)) h depth (obj_name t)
              repo (negb color) s) as [line Hline].
  exists line. split; [done|].
  cbn [for_children]. rewrite Ht. cbn [of_head of_ref branch_name lift].
  unfold bind at 1. cbn [ret]. unfold bind at 1. cbn [ret].
  unfold bind at 1. rewrite Hline. unfold bind at 1. cbn [print emit]. done.
Qed.

(** C1.  In a cascade, at a child whose rebase onto its parent fails: the
    failure is logged and the rebase is aborted, whatever the abort does (a
    failed abort adds two log lines); no push is sent; the loop goes on
    with the next sibling; and the walk is not called on the failed child.
    The loop is [for_children], the loop of [print_tree] at any key of any
    DAG, with [rec] for the recursive call. *)
Theorem failed_rebase_skips_subtree rec h depth color push_updates b t rest
    (s : State) msg w1 :
  tracking_branch b = Some t ->
  git_rebase (obj_name t) (obj_name (name b)) (st_world s) = (Some msg, w1) ->
  exists line,
    let evs := failed_rebase_events (obj_name (name b)) (obj_name t) msg
                 (git_rebase_abort w1).1 in
    for_children rec (Some h) depth (Some TheRepo) true color push_updates
      (b :: rest) s =
    for_children rec (Some h) depth (Some TheRepo) true color push_updates rest
      (mkState (git_rebase_abort w1).2 (st_trace s ++ Stdout line :: evs)) /\
    commands evs =
      [GitRebase (obj_name t) (obj_name (name b)) (Some msg);
       GitRebaseAbort (git_rebase_abort w1).1].
Proof.
  intros Ht Hr.
  destruct (for_children_cons rec h depth (Some TheRepo) true color
              push_updates b t rest s Ht) as (line & _ & ->).
  exists line. cbn zeta. split.
  - unfold bind at 1. rewrite cascade_child_run. cbn [st_world st_trace].
    rewrite Hr. by rewrite app_cons_assoc.
  - unfold failed_rebase_events. by destruct (git_rebase_abort w1).1.
Qed.

(** C5.  In a cascade with [push_updates], at a child whose rebase succeeds
    and whose push fails with [msg]: the failure of the push is logged, no
    abort of the rebase is sent, and the walk goes into the child's subtree
    and then on to the siblings as after any successful rebase. *)
Theorem failed_push_keeps_rebase rec h depth color b t rest (s : State) msg
    w1 w2 :
  tracking_branch b = Some t ->
  git_rebase (obj_name t) (obj_name (name b)) (st_world s) = (None, w1) ->
  git_push_force (obj_name (name b)) w1 = (Some msg, w2) ->
  exists line,
    let evs := rebased_events (obj_name (name b)) (obj_name t) ++
               push_events (obj_name (name b)) (Some msg) in
    for_children rec (Some h) depth (Some TheRepo) true color true (b :: rest) s =
    (let* leaf_node_reached := rec (obj_name (name b)) in
     if negb leaf_node_reached then ret false
     else for_children rec (Some h) depth (Some TheRepo) true color true rest)
      (mkState w2 (st_trace s ++ Stdout line :: evs)) /\
    commands evs =
      [GitRebase (obj_name t) (obj_name (name b)) None;
       GitPush (obj_name (name b)) (Some msg)].
Proof.
  intros Ht Hr Hp.
  destruct (for_children_cons rec h depth (Some TheRepo) true color
              true b t rest s Ht) as (line & _ & ->).
  exists line. cbn zeta. split; [|done].
  unfold bind at 1. rewrite cascade_child_run. cbn [st_world st_trace].
  rewrite Hr, Hp. cbn [fst snd]. by rewrite app_cons_assoc.
Qed.


(** C6.  For a start name that is not a key of the DAG ([None] included),
    the walk returns [True] at once: nothing is printed, no command is
    sent, and the state is as before. *)
Theorem print_tree_absent_start fuel (dag : DAG) start depth repo cascade color
    push_updates (s : State) :
  start ≫= (fun k => dag !! k) = None ->
  print_tree (S fuel) dag start depth repo cascade color push_updates s
    = (Ret true, s).
Proof.
  intros Hs. cbn [print_tree]. unfold bind.
  destruct (active_branch_quiet repo s) as [a ->].
  destruct start as [k|]; [|reflexivity].
  cbn in Hs. rewrite Hs. reflexivity.
Qed.

End Edges.

(** ** Reachability in a ranked forest *)

Section Graph.
Implicit Types (dag : DAG) (rank : string -> nat).

Lemma ranked_child rank dag p c :
  ranked rank dag -> child_of dag p c -> rank c < rank p.
Proof.
  intros Hr (children & Hl & Hc).
  specialize (Hr p children Hl). cbn in Hr.
  by apply (proj1 (Forall_forall _ _) Hr).
Qed.

Lemma ranked_reachable rank dag a x :
  ranked rank dag -> reachable dag a x -> rank x < rank a.
Proof.
  intros Hr. induction 1 as [c Hc|y c _ IH Hc].
  - by apply (ranked_child rank dag).
  - pose proof (ranked_child rank dag y c Hr Hc). lia.
Qed.

Lemma acyclic_irreflexive dag x : acyclic dag -> ~ reachable dag x x.
Proof.
  intros [rank Hr] Hx. pose proof (ranked_reachable rank dag x x Hr Hx). lia.
Qed.

(** A walk from a child is a walk from the parent. *)
Lemma reachable_from_child dag a c x :
  child_of dag a c -> reachable dag c x -> reachable dag a x.
Proof.
  intros Hc. induction 1 as [x Hx|y x _ IH Hx].
  - eapply reach_step; [by apply reach_child | done].
  - eapply reach_step; [exact IH | done].
Qed.

(** A walk starts with a child. *)
Lemma reachable_first dag a x :
  reachable dag a x ->
  exists c, child_of dag a c /\ (x = c \/ reachable dag c x).
Proof.
  induction 1 as [c Hc|y c _ (c0 & Hc0 & IH) Hc].
  - exists c. auto.
  - exists c0. split; [done|]. right. destruct IH as [->|IH].
    + by apply reach_child.
    + by eapply reach_step.
Qed.

(** In a forest, two branches that come to the same branch lie on one
    path. *)
Lemma reachable_comparable dag a b x :
  forest dag -> reachable dag a x -> reachable dag b x ->
  a = b \/ reachable dag a b \/ reachable dag b a.
Proof.
  intros [_ Hu] Ha. revert b. induction Ha as [x Hx|y x Hy IH Hx]; intros b Hb.
  - destruct Hb as [x Hbx|y' x Hy' Hx'].
    + left. by apply (Hu a b x).
    + rewrite (Hu a y' x Hx Hx'). auto.
  - destruct Hb as [x Hbx|y' x Hy' Hx'].
    + rewrite <- (Hu y b x Hx Hbx). auto.
    + rewrite <- (Hu y y' x Hx Hx') in Hy'. by apply IH.
Qed.

(** The subtrees of two children of one branch share nothing. *)
Lemma siblings_disjoint rank dag p c c' x :
  ranked rank dag -> forest dag ->
  child_of dag p c -> child_of dag p c' -> c <> c' ->
  (x = c \/ reachable dag c x) -> (x = c' \/ reachable dag c' x) -> False.
Proof.
  intros Hr Hf Hc Hc' Hne Hx Hx'.
  assert (Hup : forall d d', child_of dag p d -> child_of dag p d' ->
                  reachable dag d d' -> False).
  { intros d d' Hd Hd' Hdd.
    destruct (reachable_first dag d d' Hdd) as (e & He & _).
    inversion Hdd as [? Hch|y ? Hy Hch]; subst.
    - rewrite (proj2 Hf d p d' Hch Hd') in Hd.
      pose proof (ranked_child rank dag p p Hr Hd). lia.
    - rewrite (proj2 Hf y p d' Hch Hd') in Hy.
      pose proof (ranked_reachable rank dag d p Hr Hy).
      pose proof (ranked_child rank dag p d Hr Hd). lia. }
  destruct Hx as [->|Hx], Hx' as [->|Hx'].
  - done.
  - by apply (Hup c' c).
  - by apply (Hup c c').
  - destruct (reachable_comparable dag c c' x Hf Hx Hx') as [?|[?|?]];
      [done | by apply (Hup c c') | by apply (Hup c' c)].
Qed.

Lemma child_of_lookup dag p children c :
  dag !! p = Some children -> child_of dag p c <-> c ∈ child_names children.
Proof.
  intros Hl. split.
  - intros (l & Hl' & Hc). by simplify_eq.
  - intros Hc. by exists children.
Qed.

End Graph.

(** ** The rebases of a walk *)

Section WalkShape.
Implicit Types (dag : DAG) (R : list (string * bool)).

Lemma kids_child_of dag c x : x ∈ kids dag c <-> child_of dag c x.
Proof.
  unfold kids, child_of. split.
  - destruct (dag !! c) as [l|]; cbn; [eauto|]. intros H. by apply elem_of_nil in H.
  - intros (l & -> & Hx). done.
Qed.



Lemma walk_nodup_cons rank dag p c (ok : bool) R_sub R_rest rest :
  ranked rank dag -> forest dag ->
  child_of dag p c -> (forall c', c' ∈ rest -> child_of dag p c') -> c ∉ rest ->
  (if ok then walk_ok dag (kids dag c) R_sub else R_sub = []) ->
  NoDup R_sub.*1 ->
  walk_ok dag rest R_rest -> NoDup R_rest.*1 ->
  NoDup ((c, ok) :: R_sub ++ R_rest).*1.
Proof.
  intros Hr Hf Hc Hrest Hnotin Hsub Hnd1 Hw2 Hnd2.
  assert (Hbelow : forall x, x ∈ R_sub.*1 -> reachable dag c x).
  { intros x Hx. destruct ok; [|subst; by apply elem_of_nil in Hx].
    destruct (walk_reach _ _ _ Hsub x Hx) as (c0 & Hc0 & Hx0).
    apply kids_child_of in Hc0. destruct Hx0 as [->|Hx0].
    - by apply reach_child.
    - by apply (reachable_from_child dag c c0). }
  assert (Hother : forall x, x ∈ R_rest.*1 ->
            exists c', c' <> c /\ child_of dag p c' /\ (x = c' \/ reachable dag c' x)).
  { intros x Hx. destruct (walk_reach _ _ _ Hw2 x Hx) as (c' & Hc' & Hx').
    exists c'. split; [|split; [by apply Hrest | done]]. by intros ->. }
  cbn [fmap list_fmap fst]. rewrite fmap_app. apply NoDup_cons. split.
  - intros Hx. apply elem_of_app in Hx as [Hx|Hx].
    + apply Hbelow in Hx. pose proof (ranked_reachable rank dag c c Hr Hx). lia.
    + destruct (Hother c Hx) as (c' & Hne & Hc' & Hx').
      apply (siblings_disjoint rank dag p c c' c Hr Hf Hc Hc'); auto.
  - apply NoDup_app. split; [done|]. split; [|done].
    intros x Hx1 Hx2. apply Hbelow in Hx1.
    destruct (Hother x Hx2) as (c' & Hne & Hc' & Hx').
    apply (siblings_disjoint rank dag p c c' x Hr Hf Hc Hc'); auto.
Qed.



End WalkShape.

(** ** The rebases in a trace *)

Section Walk.
Context {G : Git} {T : Termcolor}.






End Walk.

Section NeverFalse.
Context {G : Git} {T : Termcolor}.

(** [bind] hands on [False] only from its continuation. *)
Lemma bind_never_false {A} (m : M A) (k : A -> M bool) (s : State) :
  (forall a s', m s = (Ret a, s') -> (k a s').1 <> Ret false) ->
  (bind m k s).1 <> Ret false.
Proof.
  intros H. unfold bind. destruct (m s) as [[a|e|] s'] eqn:E; [|done|done].
  by apply H.
Qed.

Lemma for_children_never_false (rec : string -> M bool) ab depth repo cascade
    color push_updates children :
  (forall bname s, (rec bname s).1 <> Ret false) ->
  forall s,
    (for_children rec ab depth repo cascade color push_updates children s).1
      <> Ret false.
Proof.
  intros Hrec. induction children as [|b rest IH]; intros s; [done|].
  cbn [for_children].
  apply bind_never_false; intros bname s1 _.
  apply bind_never_false; intros parent s2 _.
  apply bind_never_false; intros line s3 _.
  apply bind_never_false; intros [] s4 _.
  apply bind_never_false; intros [|] s5 _; [|apply IH].
  apply bind_never_false; intros leaf s6 Hleaf.
  destruct leaf; [apply IH|].
  exfalso. apply (Hrec bname s5). by rewrite Hleaf.
Qed.

(** The walk never returns [False]. *)
Lemma print_tree_never_false fuel (dag : DAG) start depth repo cascade color
    push_updates (s : State) :
  (print_tree fuel dag start depth repo cascade color push_updates s).1
    <> Ret false.
Proof.
  revert start depth s. induction fuel as [|fuel IH]; intros start depth s;
    [done|].
  cbn [print_tree]. apply bind_never_false; intros ab s1 _.
  destruct start as [cur|]; [|done].
  destruct (dag !! cur) as [children|]; [|done].
  destruct (Nat.eqb depth 0).
  - apply bind_never_false; intros line s2 _.
    apply bind_never_false; intros [] s3 _. apply IH.
  - apply for_children_never_false. intros bname s2. apply IH.
Qed.

End NeverFalse.

(** ** The trace is only added to *)

Section Frames.
Context {G : Git} {T : Termcolor}.

Lemma framed_ret {A} (a : A) : framed (ret a).
Proof. intros w tr. cbn. by rewrite app_nil_r. Qed.

Lemma framed_raise {A} (e : exn) : framed (@raise G A e).
Proof. intros w tr. cbn. by rewrite app_nil_r. Qed.

Lemma framed_out_of_fuel {A} : framed (@out_of_fuel G A).
Proof. intros w tr. cbn. by rewrite app_nil_r. Qed.

Lemma framed_lift {A} (r : exn + A) : framed (lift r).
Proof. destruct r; [apply framed_raise | apply framed_ret]. Qed.

Lemma framed_emit e : framed (emit e).
Proof. intros w tr. done. Qed.

Lemma framed_query {A} (f : world -> A) : framed (query f).
Proof. intros w tr. cbn. by rewrite app_nil_r. Qed.

Lemma framed_command f ev : framed (command f ev).
Proof. intros w tr. unfold command. cbn. by destruct (f w). Qed.

Lemma framed_bind {A B} (m : M A) (k : A -> M B) :
  framed m -> (forall a, framed (k a)) -> framed (bind m k).
Proof.
  intros Hm Hk w tr. unfold bind. rewrite (Hm w tr).
  destruct (m (mkState w [])) as [[a|e|] [w1 tr1]]; cbn; try done.
  rewrite (Hk a w1 (tr ++ tr1)), (Hk a w1 tr1). cbn.
  by rewrite app_assoc.
Qed.

Lemma framed_try_except {A} (m : M A) catches handler :
  framed m -> (forall e, framed (handler e)) -> framed (try_except m catches handler).
Proof.
  intros Hm Hh w tr. unfold try_except. rewrite (Hm w tr).
  destruct (m (mkState w [])) as [[a|e|] [w1 tr1]]; cbn; try done.
  destruct (catches e); [|done].
  rewrite (Hh e w1 (tr ++ tr1)), (Hh e w1 tr1). cbn.
  by rewrite app_assoc.
Qed.

Lemma framed_if {A} (b : bool) (m1 m2 : M A) :
  framed m1 -> framed m2 -> framed (if b then m1 else m2).
Proof. by destruct b. Qed.

Ltac frame_step :=
  first
    [ apply framed_ret | apply framed_raise | apply framed_out_of_fuel
    | apply framed_lift | apply framed_emit | apply framed_query
    | apply framed_command
    | lazymatch goal with
      | |- framed (bind _ _) => apply framed_bind; [|intros ?]
      | |- framed (try_except _ _ _) => apply framed_try_except; [|intros ?]
      end
    | match goal with
      | |- framed ?m =>
          match m with context [match ?x with _ => _ end] => destruct x end
      end ].

Ltac frame := repeat frame_step.

Lemma framed_commit_delta cur parent repo :
  framed (commit_delta_by_branch_name cur parent repo).
Proof. unfold commit_delta_by_branch_name, read_delta. frame. Qed.

Lemma framed_create_branch_str bname ab depth parent repo no_color :
  framed (create_branch_str bname ab depth parent repo no_color).
Proof.
  unfold create_branch_str. frame; try apply framed_commit_delta.
Qed.

Lemma framed_active_branch repo verbose :
  framed (active_branch_from_repo repo verbose).
Proof. unfold active_branch_from_repo. frame. Qed.

Lemma framed_cascade_child repo bname parent push_updates :
  framed (cascade_child repo bname parent push_updates).
Proof.
  unfold cascade_child, rebase_onto, force_push_no_verify, abort_reabse.
  frame.
Qed.

Lemma framed_for_children rec ab depth repo cascade color push_updates children :
  (forall bname, framed (rec bname)) ->
  framed (for_children rec ab depth repo cascade color push_updates children).
Proof.
  intros Hrec. induction children as [|b rest IH]; cbn [for_children];
    frame; auto using framed_create_branch_str, framed_cascade_child.
Qed.

Lemma framed_print_tree fuel (dag : DAG) start depth repo cascade color
    push_updates :
  framed (print_tree fuel dag start depth repo cascade color push_updates).
Proof.
  revert start depth. induction fuel as [|fuel IH]; intros start depth;
    cbn [print_tree]; frame;
    auto using framed_active_branch, framed_create_branch_str.
  apply framed_for_children. intros bname. apply IH.
Qed.

End Frames.

(** ** Rendering the roots *)

Section Roots.
Context {G : Git} {T : Termcolor}.

Variables (rank : string -> nat) (dag : DAG) (w : world) (h : Head).
Variables (color push_updates : bool).
Hypothesis Hrank : ranked rank dag.
Hypothesis Htracked : tracked dag.
Hypothesis Hhead : git_active_branch w = inr h.

Lemma branch_line_made bname depth parent repo no_color tr line :
  create_branch_str bname (Some h) depth parent repo no_color (mkState w tr)
    = (Ret line, mkState w tr) ->
  branch_line w bname (Some h) depth parent repo no_color = line.
Proof.
  intros H. unfold branch_line.
  rewrite (framed_create_branch_str bname (Some h) depth parent repo no_color
             w tr) in H.
  injection H as H1 _. by rewrite H1.
Qed.

Lemma render_children fuel cur depth :
  (forall c tr, rank c < rank cur ->
     print_tree fuel dag (Some c) (depth + 1) (Some TheRepo) false color
       push_updates (mkState w tr)
     = (Ret true,
        mkState w
          (tr ++ (Stdout <$> subtree_lines fuel dag w (Some h) color
                               (depth + 1) c)))) ->
  forall bs tr,
    Forall (fun b => is_Some (tracking_branch b)) bs ->
    (forall c, c ∈ child_names bs -> child_of dag cur c) ->
    for_children
      (fun bname =>
         print_tree fuel dag (Some bname) (depth + 1) (Some TheRepo) false
           color push_updates)
      (Some h) depth (Some TheRepo) false color push_updates bs (mkState w tr)
    = (Ret true,
       mkState w
         (tr ++ (Stdout <$>
                   flat_map
                     (fun b =>
                        branch_line w (obj_name (name b)) (Some h) depth
                          (obj_name (default "" (tracking_branch b)))
                          (Some TheRepo) (negb color)
                        :: subtree_lines fuel dag w (Some h) color (depth + 1)
                             (obj_name (name b)))
                     bs))).
Proof.
  intros IHsub. induction bs as [|b rest IH]; intros tr Htb Hpar.
  { cbn. by rewrite app_nil_r. }
  apply Forall_cons in Htb as [[t Ht] Htb].
  assert (Hc : child_of dag cur (obj_name (name b))) by (apply Hpar; left).
  pose proof (ranked_child rank dag cur _ Hrank Hc) as Hlt.
  destruct (for_children_cons
              (fun bname =>
                 print_tree fuel dag (Some bname) (depth + 1) (Some TheRepo)
                   false color push_updates)
              h depth (Some TheRepo) false color push_updates b t rest
              (mkState w tr) Ht) as (line & Hline & ->).
  apply branch_line_made in Hline.
  unfold bind at 1. cbn [ret st_world st_trace].
  unfold bind at 1. rewrite (IHsub _ _ Hlt). cbn [negb].
  rewrite IH; [|done|intros c Hin; apply Hpar; by right].
  f_equal. f_equal. cbn [flat_map]. rewrite Ht. cbn [default id].
  rewrite Hline, fmap_app, fmap_cons, <- !app_assoc. done.
Qed.

Lemma render_subtree fuel cur depth tr :
  rank cur < fuel -> depth <> 0 ->
  print_tree fuel dag (Some cur) depth (Some TheRepo) false color push_updates
    (mkState w tr)
  = (Ret true,
     mkState w
       (tr ++ (Stdout <$> subtree_lines fuel dag w (Some h) color depth cur))).
Proof.
  revert cur depth tr.
  induction fuel as [|fuel IH]; intros cur depth tr Hlt Hd; [lia|].
  cbn [print_tree subtree_lines]. unfold bind at 1.
  rewrite (active_branch_attached (mkState w tr) h Hhead).
  destruct (dag !! cur) as [children|] eqn:Hl; cbn [default].
  - destruct (Nat.eqb_neq depth 0) as [_ ->]; [|done].
    apply (render_children fuel cur depth).
    + intros c tr' Hc. apply IH; lia.
    + apply (Htracked cur children Hl).
    + intros c Hc. by apply (child_of_lookup dag cur children).
  - cbn. by rewrite app_nil_r.
Qed.

(** A rendering from a root prints the lines of its tree and leaves the
    repository as it was. *)
Lemma render_root start tr fuel :
  rank_of rank start + 1 < fuel ->
  print_tree fuel dag start 0 (Some TheRepo) false color push_updates
    (mkState w tr)
  = (Ret true,
     mkState w
       (tr ++ (Stdout <$> tree_lines (fuel - 1) dag w (Some h) color start))).
Proof.
  intros Hfuel. destruct fuel as [|fuel]; [lia|].
  replace (S fuel - 1) with fuel by lia.
  unfold tree_lines. cbn [print_tree]. unfold bind at 1.
  rewrite (active_branch_attached (mkState w tr) h Hhead).
  destruct start as [cur|]; cbn [mbind option_bind];
    [|cbn; by rewrite app_nil_r].
  destruct (dag !! cur) as [children|] eqn:Hl;
    [|cbn; by rewrite app_nil_r].
  cbn [Nat.eqb].
  destruct (create_branch_str_attached cur h 0 "" None (negb color)
              (mkState w tr)) as [line Hline].
  unfold bind at 1. rewrite Hline. apply branch_line_made in Hline.
  unfold bind at 1. cbn [print emit st_world st_trace].
  rewrite render_subtree; [|cbn in Hfuel; lia|done].
  rewrite Hline, fmap_cons, <- app_assoc. done.
Qed.

Lemma print_dag_render roots tr fuel :
  Forall (fun r => rank_of rank r + 1 < fuel) roots ->
  print_dag fuel dag roots (Some TheRepo) false color push_updates
    (mkState w tr)
  = (Ret tt,
     mkState w
       (tr ++ (Stdout <$>
                 mjoin (tree_lines (fuel - 1) dag w (Some h) color <$> roots)))).
Proof.
  intros Hfuel. revert tr.
  induction roots as [|r roots IH]; intros tr.
  - cbn. by rewrite app_nil_r.
  - apply Forall_cons in Hfuel as [Hr Hfuel]. cbn [print_dag].
    unfold bind. rewrite render_root by done. cbn [negb].
    rewrite IH by done. cbn. by rewrite fmap_app, app_assoc.
Qed.

End Roots.

Section RootList.
Context {G : Git} {T : Termcolor}.

Lemma enough_fuel rank (roots : list (option string)) :
  exists fuel0, forall fuel, fuel0 <= fuel ->
    Forall (fun r => rank_of rank r + 1 < fuel) roots.
Proof.
  induction roots as [|r roots [f IH]].
  - exists 0. intros. constructor.
  - exists (f + rank_of rank r + 2). intros fuel Hf. constructor; [lia|].
    apply IH. lia.
Qed.

Lemma occurrences_roots (bs : list Head) t :
  Py.startswith t "origin" = true ->
  occurrences t (omap root_of bs) =
    length (filter (tracks t) bs) + length (filter (untracked_named t) bs).
Proof.
  intros Hp. unfold occurrences. induction bs as [|b bs IH]; [done|].
  rewrite !(filter_cons _ b bs). cbn [omap list_omap].
  destruct b as [n [tb|]]; unfold root_of, tracks, untracked_named in *;
    cbn [tracking_branch name fmap option_fmap option_map] in *.
  - destruct (decide (Some (obj_name tb) = Some t)) as [Ht|Ht].
    + inversion Ht; subst. rewrite Hp. rewrite filter_cons, decide_True by done.
      rewrite decide_False by (intros [? _]; done). cbn. by rewrite IH.
    + rewrite decide_False by (intros [? _]; done).
      destruct (Py.startswith (obj_name tb) "origin"); [|done].
      rewrite filter_cons, decide_False by congruence. done.
  - rewrite decide_False by done.
    destruct (decide (obj_name n = t)) as [Hn|Hn].
    + rewrite decide_True by done. rewrite filter_cons, decide_True by done.
      cbn. rewrite IH. lia.
    + rewrite decide_False by (intros [_ ?]; done).
      rewrite filter_cons, decide_False by done. done.
Qed.

(** C10.  The roots are not deduplicated: a name with the remote prefix
    occurs in them once for every branch that tracks it (and once for every
    branch of that name without a tracking branch); and the rendering loop
    prints, root after root in the order of the list, the whole subtree of
    each ([tree_lines]: the line of the root and, in the order of the
    walk, a line for every branch below it), so the tree of a name is
    printed once for each of its occurrences (the rendering being one that
    ends: no cycle in the DAG, HEAD on a branch). *)
Theorem duplicate_roots_rendered_again (bs : list Head) (color push_updates : bool)
    (w : world) (h : Head) (tr : list event) :
  (forall t, Py.startswith t "origin" = true ->
     occurrences t (build_git_dag bs).2 =
       length (filter (tracks t) bs) + length (filter (untracked_named t) bs)) /\
  (acyclic (build_git_dag bs).1 -> git_active_branch w = inr h ->
   exists fuel0, forall fuel, fuel0 <= fuel ->
     print_dag (S fuel) (build_git_dag bs).1 (Some <$> (build_git_dag bs).2)
       (Some TheRepo) false color push_updates (mkState w tr)
     = (Ret tt,
        mkState w
          (tr ++
           (Stdout <$>
              mjoin (tree_lines fuel (build_git_dag bs).1 w (Some h) color
                       <$> (Some <$> (build_git_dag bs).2)))))).
Proof.
  split.
  - intros t Hp. rewrite build_git_dag_roots. by apply occurrences_roots.
  - intros [rank Hrank] Hh.
    destruct (enough_fuel rank (Some <$> (build_git_dag bs).2)) as [fuel0 Hf].
    exists fuel0. intros fuel Hfuel.
    rewrite (print_dag_render rank _ w h color push_updates Hrank
               (build_git_dag_tracked bs) Hh).
    + by replace (S fuel - 1) with fuel by lia.
    + eapply Forall_impl; [apply (Hf fuel Hfuel)|]. cbn. intros; lia.
Qed.

End RootList.

(** ** The program on the small repository *)

Section OnSim.

Lemma sim_ranked3 : ranked Sim.rank3 (build_git_dag Sim.branches3).1.
Proof.
  intros k children Hl. rewrite build_git_dag_lookup in Hl.
  destruct (decide (Exists (touches k) Sim.branches3)); [|done].
  inversion Hl; subst. apply Forall_forall. intros c Hc.
  apply list_elem_of_fmap in Hc as (b & -> & Hb).
  apply list_elem_of_filter in Hb as [Ht Hb].
  unfold tracks in Ht.
  repeat (apply elem_of_cons in Hb as [->|Hb]); cbn in Ht;
    try (by apply elem_of_nil in Hb); inversion Ht; subst; vm_compute; lia.
Qed.

Lemma sim_ranked_origin :
  ranked Sim.rank_origin (build_git_dag Sim.branches_origin).1.
Proof.
  intros k children Hl. rewrite build_git_dag_lookup in Hl.
  destruct (decide (Exists (touches k) Sim.branches_origin)); [|done].
  inversion Hl; subst. apply Forall_forall. intros c Hc.
  apply list_elem_of_fmap in Hc as (b & -> & Hb).
  apply list_elem_of_filter in Hb as [Ht Hb].
  unfold tracks in Ht.
  repeat (apply elem_of_cons in Hb as [->|Hb]); cbn in Ht;
    try (by apply elem_of_nil in Hb); inversion Ht; subst; vm_compute; lia.
Qed.

Lemma sim_forest3 : forest (build_git_dag Sim.branches3).1.
Proof.
  apply build_git_dag_forest.
  apply (bool_decide_unpack (NoDup (child_names Sim.branches3))). by vm_compute.
Qed.

End OnSim.

(** ** The theorems at work on the small repository *)

Section Instances.

(** The rendering of the repository of the tests, HEAD on [B]. *)
Example rendering_of_the_tests_repository :
  let r := @run Sim.git Sim.tags 5 (mkArgs false None false false false)
             (Sim.repo3 (Some "B") [] []) in
  r.1 = Ret tt /\
  printed (st_trace r.2) =
    [" master"; "   |-> A  (-2, +2)"; "     |-> B  (-0, +1) *(active branch)"].
Proof. cbn zeta. split; vm_compute; reflexivity. Qed.

(** At a detached HEAD the first line of a rendering is not made: the
    assertion of [branch_name] fails on the missing active branch. *)
Example rendering_at_detached_head_raises :
  (@run Sim.git Sim.tags 5 (mkArgs false None false false false)
     (Sim.repo3 None [] [])).1
  = Raise (AssertionError "Must have a valid branch to get the name!").
Proof. vm_compute. reflexivity. Qed.

(** A cascade from [master] with a conflict on [A]: [A] is attempted and
    aborted, [B] below it is left alone, and HEAD returns to [B]. *)
Example cascade_with_conflict_on_A :
  let r := @run Sim.git Sim.tags 5 (mkArgs true (Some "master") false true false)
             (Sim.repo3 (Some "B") ["A"] []) in
  r.1 = Ret tt /\
  commands (st_trace r.2) =
    [GitCheckout (Some "master") None;
     GitRebase "master" "A" (Some "could not apply"); GitRebaseAbort None;
     GitCheckout (Some "B") None] /\
  Sim.HEAD (st_world r.2) = Some "B".
Proof. cbn zeta. repeat split; vm_compute; reflexivity. Qed.

(** C2 on the repository of the tests, for [A], which tracks [master]. *)
Lemma build_git_dag_places_branches_witness :
  Sim.branch_A ∈ Sim.branches3 /\
  exists children,
    (build_git_dag Sim.branches3).1 !! "master" = Some children /\
    occurrences Sim.branch_A children = 1.
Proof.
  assert (H : Sim.branch_A ∈ Sim.branches3) by (left).
  split; [exact H|].
  destruct (build_git_dag_places_branches Sim.branches3 Sim.branch_A H)
    as [(children & Hl & _ & Hn) _].
  exists children. split; [exact Hl|]. apply Hn.
  apply (bool_decide_unpack (NoDup Sim.branches3)). vm_compute. exact I.
Defined.

(** C6 for a name that is no key. *)
Lemma print_tree_absent_start_witness :
  Some "topic" ≫= (fun k => Sim.dag3 !! k) = None /\
  @print_tree Sim.git Sim.tags 1 Sim.dag3 (Some "topic") 0 (Some TheRepo)
    true true false (Sim.state (Sim.repo3 (Some "B") [] []) [])
    = (Ret true, Sim.state (Sim.repo3 (Some "B") [] []) []).
Proof.
  assert (H : Some "topic" ≫= (fun k => Sim.dag3 !! k) = None)
    by (vm_compute; reflexivity).
  split; [exact H|].
  exact (@print_tree_absent_start Sim.git Sim.tags 0 Sim.dag3 (Some "topic")
           0 (Some TheRepo) true true false
           (Sim.state (Sim.repo3 (Some "B") [] []) []) H).
Defined.

(** C1 where the rebase of [A] onto [master] stops on a conflict. *)
Lemma failed_rebase_skips_subtree_witness :
  let w := Sim.repo3 (Some "master") ["A"] [] in
  tracking_branch Sim.branch_A = Some "./master" /\
  @git_rebase Sim.git "master" "A" w
    = (Some "could not apply", Sim.set_head None (Some "A") w) /\
  exists line,
    @for_children Sim.git Sim.tags (fun _ => @ret Sim.git bool true)
      (Some Sim.branch_master) 1
      (Some TheRepo) true true true [Sim.branch_A; Sim.branch_B]
      (Sim.state w []) =
    @for_children Sim.git Sim.tags (fun _ => @ret Sim.git bool true)
      (Some Sim.branch_master) 1
      (Some TheRepo) true true true [Sim.branch_B]
      (Sim.state (Sim.set_head (Some "A") None w)
         (Stdout line ::
            @failed_rebase_events Sim.tags "A" "master" "could not apply" None)).
Proof.
  cbn zeta.
  assert (H1 : tracking_branch Sim.branch_A = Some "./master") by reflexivity.
  assert (H2 : @git_rebase Sim.git (obj_name "./master") (obj_name (name Sim.branch_A))
                 (st_world (Sim.state (Sim.repo3 (Some "master") ["A"] []) []))
               = (Some "could not apply",
                  Sim.set_head None (Some "A")
                    (Sim.repo3 (Some "master") ["A"] [])))
    by (vm_compute; reflexivity).
  split; [exact H1|]. split; [exact H2|].
  destruct (@failed_rebase_skips_subtree Sim.git Sim.tags
              (fun _ => @ret Sim.git bool true)
              Sim.branch_master 1 true true Sim.branch_A "./master"
              [Sim.branch_B]
              (Sim.state (Sim.repo3 (Some "master") ["A"] []) [])
              "could not apply" _ H1 H2) as (line & Hrun & _).
  exists line. exact Hrun.
Defined.

(** C5 where the remote rejects the push of [A]. *)
Lemma failed_push_keeps_rebase_witness :
  let w := Sim.repo3 (Some "master") [] ["A"] in
  let w1 := Sim.set_head (Some "A") None w in
  tracking_branch Sim.branch_A = Some "./master" /\
  @git_rebase Sim.git "master" "A" w = (None, w1) /\
  @git_push_force Sim.git "A" w1 = (Some "remote rejected", w1) /\
  exists line,
    @for_children Sim.git Sim.tags (fun _ => @ret Sim.git bool true)
      (Some Sim.branch_master) 1
      (Some TheRepo) true true true [Sim.branch_A] (Sim.state w []) =
    (let* leaf_node_reached := @ret Sim.git bool true in
     if negb leaf_node_reached then ret false
     else @for_children Sim.git Sim.tags (fun _ => @ret Sim.git bool true)
      (Some Sim.branch_master) 1
            (Some TheRepo) true true true [])
      (Sim.state w1
         (Stdout line ::
            @rebased_events "A" "master" ++
            @push_events Sim.tags "A" (Some "remote rejected"))).
Proof.
  cbn zeta.
  assert (H1 : tracking_branch Sim.branch_A = Some "./master") by reflexivity.
  assert (H2 : @git_rebase Sim.git (obj_name "./master") (obj_name (name Sim.branch_A))
                 (st_world (Sim.state (Sim.repo3 (Some "master") [] ["A"]) []))
               = (None, Sim.set_head (Some "A") None
                          (Sim.repo3 (Some "master") [] ["A"])))
    by (vm_compute; reflexivity).
  assert (H3 : @git_push_force Sim.git (obj_name (name Sim.branch_A))
                 (Sim.set_head (Some "A") None
                    (Sim.repo3 (Some "master") [] ["A"]))
               = (Some "remote rejected",
                  Sim.set_head (Some "A") None
                    (Sim.repo3 (Some "master") [] ["A"])))
    by (vm_compute; reflexivity).
  split; [exact H1|]. split; [exact H2|]. split; [exact H3|].
  destruct (@failed_push_keeps_rebase Sim.git Sim.tags
              (fun _ => @ret Sim.git bool true)
              Sim.branch_master 1 true Sim.branch_A "./master" []
              (Sim.state (Sim.repo3 (Some "master") [] ["A"]) [])
              "remote rejected" _ _ H1 H2 H3) as (line & Hrun & _).
  exists line. exact Hrun.
Defined.

(** C4 on the counts of [A] against [master]. *)
Lemma commit_delta_returns_pair_never_raises_witness :
  let s := Sim.state (Sim.repo3 (Some "B") [] []) [] in
  @git_rev_list_count Sim.git "A...master" (st_world s)
    = Some (left_right_count 2 2) /\
  @commit_delta_by_branch_name Sim.git "A" "master" (Some TheRepo) s
    = (Ret (Some 2%Z, Some 2%Z), s).
Proof.
  cbn zeta.
  assert (H : @git_rev_list_count Sim.git ("A" +:+ "..." +:+ "master")
                (st_world (Sim.state (Sim.repo3 (Some "B") [] []) []))
              = Some (left_right_count 2 2)) by (vm_compute; reflexivity).
  split; [exact H|].
  destruct (@commit_delta_returns_pair_never_raises Sim.git "A" "master"
              (Some TheRepo) (Sim.state (Sim.repo3 (Some "B") [] []) []))
    as (d & Hrun & _ & Hd).
  rewrite Hrun. rewrite (Hd 2%Z 2%Z eq_refl H). reflexivity.
Defined.

(** C10 on two branches that track [origin/main]. *)
Lemma duplicate_roots_rendered_again_witness :
  acyclic (build_git_dag Sim.branches_origin).1 /\
  @git_active_branch Sim.git Sim.repo_origin = inr Sim.branch_dev /\
  (build_git_dag Sim.branches_origin).2 = ["origin/main"; "origin/main"] /\
  occurrences "origin/main" (build_git_dag Sim.branches_origin).2 = 2 /\
  exists fuel0, forall fuel, fuel0 <= fuel ->
    @print_dag Sim.git Sim.tags (S fuel) (build_git_dag Sim.branches_origin).1
      (Some <$> (build_git_dag Sim.branches_origin).2) (Some TheRepo) false
      true false (Sim.state Sim.repo_origin [])
    = (Ret tt,
       Sim.state Sim.repo_origin
         ([] ++
          (Stdout <$>
             mjoin (@tree_lines Sim.git Sim.tags fuel
                      (build_git_dag Sim.branches_origin).1 Sim.repo_origin
                      (Some Sim.branch_dev) true
                      <$> (Some <$> (build_git_dag Sim.branches_origin).2))))).
Proof.
  assert (H1 : acyclic (build_git_dag Sim.branches_origin).1)
    by (exists Sim.rank_origin; exact sim_ranked_origin).
  assert (H2 : @git_active_branch Sim.git Sim.repo_origin = inr Sim.branch_dev)
    by reflexivity.
  split; [exact H1|]. split; [exact H2|].
  split; [vm_compute; reflexivity|].
  destruct (@duplicate_roots_rendered_again Sim.git Sim.tags
              Sim.branches_origin true false Sim.repo_origin Sim.branch_dev [])
    as [Hocc Hrender].
  destruct (Hrender H1 H2) as [fuel0 Hrun].
  split.
  - rewrite (Hocc "origin/main" eq_refl). reflexivity.
  - exists fuel0. intros fuel Hfuel. exact (Hrun fuel Hfuel).
Defined.

(** The lines of that rendering: the tree of [origin/main], twice. *)
Example rendering_of_duplicate_roots :
  printed (st_trace
    (@run Sim.git Sim.tags 5 (mkArgs false None false false false)
       Sim.repo_origin).2)
  = [" origin/main"; "   |-> dev  (-0, +1) *(active branch)";
     "   |-> fix  (Upstream Branch Not Found)";
     " origin/main"; "   |-> dev  (-0, +1) *(active branch)";
     "   |-> fix  (Upstream Branch Not Found)"].
Proof. vm_compute. reflexivity. Qed.

(** C8 at a detached HEAD: a cascade from [master] checks out [master],
    rebases [A] and [B], and then sends a checkout without a target; the
    run ends on [B], not where it started. *)
Theorem cascade_from_detached_head_not_restored :
  let w := Sim.repo3 None [] [] in
  let r := @run Sim.git Sim.tags 6 (mkArgs true (Some "master") false true false) w in
  Sim.HEAD w = None /\
  r.1 = Ret tt /\
  commands (st_trace r.2) =
    [GitCheckout (Some "master") None; GitRebase "master" "A" None;
     GitRebase "A" "B" None; GitCheckout None None] /\
  Sim.HEAD (st_world r.2) = Some "B".
Proof.
  cbn zeta. repeat split; vm_compute; reflexivity.
Qed.

End Instances.

(** * Further properties *)

(** ** Composing what computations do *)

Section StepLemmas.
Context {G : Git} {T : Termcolor}.
Variable R : world -> world -> list event -> Prop.
Hypothesis HR : composable R.

Lemma steps_ret {A} (a : A) : steps R (ret a).
Proof.
  intros s. exists []. cbn. rewrite app_nil_r. split; [done|].
  apply (composable_nil R HR).
Qed.

Lemma steps_raise {A} (e : exn) : steps R (@raise G A e).
Proof.
  intros s. exists []. cbn. rewrite app_nil_r. split; [done|].
  apply (composable_nil R HR).
Qed.

Lemma steps_out_of_fuel {A} : steps R (@out_of_fuel G A).
Proof.
  intros s. exists []. cbn. rewrite app_nil_r. split; [done|].
  apply (composable_nil R HR).
Qed.

Lemma steps_lift {A} (r : exn + A) : steps R (lift r).
Proof. destruct r; [apply steps_raise | apply steps_ret]. Qed.

Lemma steps_query {A} (f : world -> A) : steps R (query f).
Proof.
  intros s. exists []. cbn. rewrite app_nil_r. split; [done|].
  apply (composable_nil R HR).
Qed.

Lemma steps_emit e : (forall w, R w w [e]) -> steps R (emit e).
Proof. intros He s. exists [e]. cbn. split; [done | apply He]. Qed.

Lemma steps_command f ev :
  (forall w, R w (f w).2 [ev (f w).1]) -> steps R (command f ev).
Proof.
  intros Hc s. exists [ev (f (st_world s)).1]. unfold command.
  specialize (Hc (st_world s)). destruct (f (st_world s)) as [r w']. done.
Qed.

Lemma steps_at_bind {A B} (m : M A) (k : A -> M B) s :
  steps_at R m s ->
  (forall a s', m s = (Ret a, s') -> steps_at R (k a) s') ->
  steps_at R (bind m k) s.
Proof.
  intros (tr1 & Htr1 & H1) Hk. unfold steps_at, bind. revert Htr1 H1 Hk.
  destruct (m s) as [[a|e|] s']; cbn [fst snd]; intros Htr1 H1 Hk;
    [|exists tr1; split; assumption ..].
  destruct (Hk a s' eq_refl) as (tr2 & Htr2 & H2).
  exists (tr1 ++ tr2). rewrite Htr2, Htr1, app_assoc. split; [done|].
  by apply (composable_app R HR _ (st_world s')).
Qed.

Lemma steps_bind {A B} (m : M A) (k : A -> M B) :
  steps R m -> (forall a, steps R (k a)) -> steps R (bind m k).
Proof.
  intros Hm Hk s. apply steps_at_bind; [apply Hm|]. intros a s' _. apply Hk.
Qed.

Lemma steps_try_except {A} (m : M A) catches handler :
  steps R m -> (forall e, steps R (handler e)) ->
  steps R (try_except m catches handler).
Proof.
  intros Hm Hh s. destruct (Hm s) as (tr1 & Htr1 & H1).
  unfold steps_at, try_except. revert Htr1 H1.
  destruct (m s) as [[a|e|] s']; cbn [fst snd]; intros Htr1 H1;
    [exists tr1; split; assumption | | exists tr1; split; assumption].
  destruct (catches e); [|exists tr1; split; assumption].
  destruct (Hh e s') as (tr2 & Htr2 & H2).
  exists (tr1 ++ tr2). rewrite Htr2, Htr1, app_assoc. split; [done|].
  by apply (composable_app R HR _ (st_world s')).
Qed.

(** The program's own functions, for a relation that printing is in. *)
Hypothesis Hprint : forall w line, R w w [Stdout line].

Ltac steps_step :=
  first
    [ apply steps_ret | apply steps_raise | apply steps_out_of_fuel
    | apply steps_lift | apply steps_query
    | apply steps_emit; intros ?; apply Hprint
    | lazymatch goal with
      | |- steps _ (bind _ _) => apply steps_bind; [|intros ?]
      | |- steps _ (try_except _ _ _) => apply steps_try_except; [|intros ?]
      end
    | match goal with
      | |- steps _ ?m =>
          match m with context [match ?x with _ => _ end] => destruct x end
      end ].

Ltac steps_all := repeat steps_step.

Lemma steps_print line : steps R (print line).
Proof. apply steps_emit. intros w. apply Hprint. Qed.

Lemma steps_commit_delta cur parent repo :
  steps R (commit_delta_by_branch_name cur parent repo).
Proof. unfold commit_delta_by_branch_name, read_delta. steps_all. Qed.

Lemma steps_create_branch_str bname ab depth parent repo no_color :
  steps R (create_branch_str bname ab depth parent repo no_color).
Proof.
  unfold create_branch_str. steps_all; try apply steps_commit_delta.
Qed.

Lemma steps_active_branch repo verbose :
  steps R (active_branch_from_repo repo verbose).
Proof. unfold active_branch_from_repo. steps_all. Qed.

Lemma steps_for_children rec ab depth repo cascade color push_updates children :
  (forall b, b ∈ children -> steps R (rec (obj_name (name b)))) ->
  (cascade = true -> forall b t, b ∈ children -> tracking_branch b = Some t ->
     steps R (cascade_child repo (obj_name (name b)) (obj_name t) push_updates)) ->
  steps R (for_children rec ab depth repo cascade color push_updates children).
Proof.
  induction children as [|b rest IH]; intros Hrec Hedge;
    cbn [for_children]; [apply steps_ret|].
  assert (IH' : steps R (for_children rec ab depth repo cascade color
                           push_updates rest)).
  { apply IH.
    - intros b' Hb. apply Hrec. by right.
    - intros Hc b' t Hb. apply Hedge; [done | by right]. }
  intros s.
  apply steps_at_bind; [apply steps_lift|]. intros bname s1 E1.
  cbn in E1. injection E1 as <- <-.
  apply steps_at_bind; [apply steps_lift|]. intros parent s2 E2.
  destruct (tracking_branch b) as [t|] eqn:Ht; cbn in E2; [|done].
  injection E2 as <- <-.
  apply steps_bind; [apply steps_create_branch_str|]. intros line.
  apply steps_bind; [apply steps_print|]. intros _.
  apply steps_bind.
  - destruct cascade; [|apply steps_ret]. apply Hedge; [done | left | done].
  - intros [|]; [|done]. apply steps_bind; [apply Hrec; left|].
    intros [|]; cbn [negb]; [done | apply steps_ret].
Qed.

Lemma steps_print_tree fuel (dag : DAG) start depth repo cascade color
    push_updates :
  (cascade = true -> forall k children b t,
     dag !! k = Some children -> b ∈ children -> tracking_branch b = Some t ->
     steps R (cascade_child repo (obj_name (name b)) (obj_name t) push_updates)) ->
  steps R (print_tree fuel dag start depth repo cascade color push_updates).
Proof.
  intros Hedge. revert start depth.
  induction fuel as [|fuel IH]; intros start depth; cbn [print_tree];
    [apply steps_out_of_fuel|].
  apply steps_bind; [apply steps_active_branch|]. intros ab.
  destruct start as [cur|]; [|apply steps_ret].
  destruct (dag !! cur) as [children|] eqn:Hl; [|apply steps_ret].
  destruct (Nat.eqb depth 0).
  - apply steps_bind; [apply steps_create_branch_str|]. intros line.
    apply steps_bind; [apply steps_print | intros _; apply IH].
  - apply steps_for_children; [intros b _; apply IH|].
    intros Hc b t Hb Ht. by apply (Hedge Hc cur children).
Qed.

Lemma steps_print_dag fuel (dag : DAG) roots repo cascade color push_updates :
  (cascade = true -> forall k children b t,
     dag !! k = Some children -> b ∈ children -> tracking_branch b = Some t ->
     steps R (cascade_child repo (obj_name (name b)) (obj_name t) push_updates)) ->
  steps R (print_dag fuel dag roots repo cascade color push_updates).
Proof.
  intros Hedge. induction roots as [|r roots IH]; cbn [print_dag];
    [apply steps_ret|].
  apply steps_bind; [by apply steps_print_tree|].
  intros [|]; cbn [negb]; [done | apply steps_ret].
Qed.

End StepLemmas.

(** ** What a walk never does *)

Section WalkSafety.
Context {G : Git} {T : Termcolor}.

Lemma commands_app tr1 tr2 : commands (tr1 ++ tr2) = commands tr1 ++ commands tr2.
Proof. unfold commands. apply List.filter_app. Qed.

Lemma commands_stdout tr : Forall is_stdout tr -> commands tr = [].
Proof.
  induction 1 as [|e tr He _ IH]; [done|]. destruct e; done.
Qed.

Lemma reads_only_composable : composable reads_only.
Proof.
  split.
  - intros w. split; [done | constructor].
  - intros w1 w2 w3 tr1 tr2 [-> H1] [-> H2]. split; [done|].
    by apply Forall_app.
Qed.

Lemma reads_only_print w line : reads_only w w [Stdout line].
Proof. split; [done|]. by repeat constructor. Qed.

(** X1.  A rendering, of any DAG, from any start and at any depth, with
    any fuel and whether it returns, raises or runs out of fuel, leaves the
    repository as it was and adds nothing but printed lines to the trace:
    it sends no command. *)
Theorem rendering_sends_no_command fuel (dag : DAG) start depth repo color
    push_updates (s : State) :
  let r := print_tree fuel dag start depth repo false color push_updates s in
  st_world r.2 = st_world s /\
  exists tr, st_trace r.2 = st_trace s ++ tr /\
             Forall is_stdout tr /\ commands tr = [].
Proof.
  cbn zeta.
  destruct (steps_print_tree reads_only reads_only_composable
              reads_only_print fuel dag start depth repo false color
              push_updates ltac:(done) s) as (tr & Htr & Hw & Hst).
  split; [done|]. exists tr. split; [done|]. split; [done|].
  by apply commands_stdout.
Qed.

Lemma by_edges_composable push_updates : composable (by_edges push_updates).
Proof.
  split.
  - intros w. exists []. split; [done | constructor].
  - intros w1 w2 w3 tr1 tr2 (e1 & H1 & F1) (e2 & H2 & F2).
    exists (e1 ++ e2). unfold by_edges in *.
    rewrite commands_app, H1, H2. split; [|by apply Forall_app].
    by rewrite join_app.
Qed.

Lemma by_edges_print push_updates w line :
  by_edges push_updates w w [Stdout line].
Proof. exists []. split; [done | constructor]. Qed.

Lemma commands_failed bname parent msg aborted :
  commands (failed_rebase_events bname parent msg aborted) =
    [GitRebase parent bname (Some msg); GitRebaseAbort aborted].
Proof. by destruct aborted. Qed.

Lemma commands_pushed bname pushed :
  commands (push_events bname pushed) = [GitPush bname pushed].
Proof. by destruct pushed. Qed.

Lemma edge_after_edge_one push_updates cmds :
  edge_commands push_updates cmds -> edge_after_edge push_updates cmds.
Proof.
  intros H. exists [cmds]. split; [cbn; by rewrite app_nil_r|].
  by repeat constructor.
Qed.

Lemma by_edges_cascade_child repo bname parent push_updates :
  steps (by_edges push_updates) (cascade_child repo bname parent push_updates).
Proof.
  destruct repo as [[]|];
    [|apply steps_raise, by_edges_composable].
  intros s. unfold steps_at. rewrite cascade_child_run.
  destruct (git_rebase parent bname (st_world s)) as [[msg|] w1].
  - eexists. split; [reflexivity|]. unfold by_edges.
    rewrite commands_failed. apply edge_after_edge_one, edge_failed.
  - destruct push_updates eqn:Hp.
    + eexists. split; [reflexivity|]. unfold by_edges.
      rewrite commands_app, commands_pushed. cbn.
      by apply edge_after_edge_one, edge_pushed.
    + eexists. split; [reflexivity|]. unfold by_edges. cbn.
      by apply edge_after_edge_one, edge_rebased.
Qed.

(** X2.  The commands a walk sends, in any mode and however it ends, are
    the commands of edges, one edge after another: a rebase that succeeds,
    with the push of the same branch after it exactly when pushes are asked
    for, or a rebase that fails, with the abort after it.  No other
    command is sent, and none in another order. *)
Theorem walk_commands_go_edge_by_edge fuel (dag : DAG) start depth repo cascade
    color push_updates (s : State) :
  exists tr,
    st_trace (print_tree fuel dag start depth repo cascade color push_updates
                s).2 = st_trace s ++ tr /\
    edge_after_edge push_updates (commands tr).
Proof.
  apply (steps_print_tree (by_edges push_updates)
           (by_edges_composable push_updates) (by_edges_print push_updates)).
  intros _ k children b t _ _ _. apply by_edges_cascade_child.
Qed.

Lemma edge_after_edge_push push_updates cmds before feature pushed after :
  edge_after_edge push_updates cmds ->
  cmds = before ++ GitPush feature pushed :: after ->
  push_updates = true /\
  exists before' new_base,
    before = before' ++ [GitRebase new_base feature None].
Proof.
  intros (edges & -> & Hall). revert before.
  induction Hall as [|e edges He _ IH]; intros before Heq.
  - by destruct before.
  - cbn in Heq. destruct He as [nb f Hp|nb f r Hp|nb f msg r].
    + destruct before as [|x before]; cbn in Heq; [done|].
      injection Heq as <- Heq. destruct (IH before Heq) as (? & b' & n & ->).
      split; [done|]. by exists (GitRebase nb f None :: b'), n.
    + destruct before as [|x [|y before]]; cbn in Heq; [done| |].
      * injection Heq as <- <- <- _. split; [done|]. by exists [], nb.
      * injection Heq as <- <- Heq.
        destruct (IH before Heq) as (? & b' & n & ->). split; [done|].
        by exists (GitRebase nb f None :: GitPush f r :: b'), n.
    + destruct before as [|x [|y before]]; cbn in Heq; [done..|].
      injection Heq as <- <- Heq.
      destruct (IH before Heq) as (? & b' & n & ->). split; [done|].
      by exists (GitRebase nb f (Some msg) :: GitRebaseAbort r :: b'), n.
Qed.

(** X3.  A walk pushes a branch only when pushes are asked for, and only
    as the very next command after the rebase of that same branch has
    succeeded: never a branch whose rebase failed or was not attempted. *)
Theorem push_only_after_own_rebase fuel (dag : DAG) start depth repo cascade
    color push_updates (s : State) tr before feature pushed after :
  st_trace (print_tree fuel dag start depth repo cascade color push_updates
              s).2 = st_trace s ++ tr ->
  commands tr = before ++ GitPush feature pushed :: after ->
  push_updates = true /\
  exists before' new_base,
    before = before' ++ [GitRebase new_base feature None].
Proof.
  intros Htr Hcmds.
  destruct (steps_print_tree (by_edges push_updates)
              (by_edges_composable push_updates)
              (by_edges_print push_updates) fuel dag start depth repo cascade
              color push_updates
              ltac:(intros; apply by_edges_cascade_child) s)
    as (tr' & Htr' & Hedges).
  rewrite Htr in Htr'. apply app_inv_head in Htr'. subst tr'.
  by apply (edge_after_edge_push push_updates (commands tr) before feature
              pushed after).
Qed.

Lemma onto_tracked_composable dag : composable (onto_tracked dag).
Proof.
  split.
  - intros w. constructor.
  - intros w1 w2 w3 tr1 tr2 H1 H2. by apply Forall_app.
Qed.

(** X4.  Every rebase a walk sends is the rebase of a branch listed in the
    DAG onto the branch that branch tracks; the key it is listed under
    plays no part in the command. *)
Theorem rebases_are_onto_tracking_branch fuel (dag : DAG) start depth repo
    cascade color push_updates (s : State) :
  exists tr,
    st_trace (print_tree fuel dag start depth repo cascade color push_updates
                s).2 = st_trace s ++ tr /\
    Forall (rebase_onto_tracked dag) tr.
Proof.
  apply (steps_print_tree (onto_tracked dag) (onto_tracked_composable dag)).
  - intros w line. by repeat constructor.
  - intros _ k children b t Hl Hb Ht.
    destruct repo as [[]|];
      [|apply steps_raise, onto_tracked_composable].
    intros s'. unfold steps_at. rewrite cascade_child_run.
    assert (Hreb : forall err,
      rebase_onto_tracked dag
        (GitRebase (obj_name t) (obj_name (name b)) err)).
    { intros err. by exists k, children, b, t. }
    destruct (git_rebase (obj_name t) (obj_name (name b)) (st_world s'))
      as [[msg|] w1].
    + eexists. split; [reflexivity|]. unfold onto_tracked, failed_rebase_events.
      destruct (git_rebase_abort w1).1; repeat constructor; apply Hreb.
    + destruct push_updates.
      * eexists. split; [reflexivity|]. unfold onto_tracked, rebased_events,
          push_events.
        destruct (git_push_force _ w1).1; repeat constructor; apply Hreb.
      * eexists. split; [reflexivity|]. unfold onto_tracked, rebased_events.
        repeat constructor; apply Hreb.
Qed.

End WalkSafety.

(** ** What a run never does *)

Section RefreshSteps.
Context {G : Git} {T : Termcolor}.
Variable R : world -> world -> list event -> Prop.
Hypothesis HR : composable R.
Hypothesis Hprint : forall w line, R w w [Stdout line].
Hypothesis Hfetch :
  forall n w, R w (git_fetch n w).2 [GitFetch n (git_fetch n w).1].
Hypothesis Hreset :
  forall r w, R w (git_reset_keep r w).2 [GitResetKeep r (git_reset_keep r w).1].

Lemma steps_refresh_branch branch repo : steps R (refresh_branch branch repo).
Proof.
  unfold refresh_branch. apply (steps_try_except R HR).
  - apply (steps_bind R HR); [apply (steps_lift R HR)|]. intros n.
    apply (steps_bind R HR); [apply (steps_command R), Hfetch|].
    intros [msg|]; [apply (steps_raise R HR)|].
    apply (steps_bind R HR); [apply (steps_lift R HR)|]. intros n'.
    apply (steps_bind R HR); [apply (steps_command R), Hreset|].
    intros [msg|]; [apply (steps_raise R HR) | apply (steps_ret R HR)].
  - intros e. apply (steps_bind R HR); [apply (steps_lift R HR)|]. intros n.
    apply (steps_print R Hprint).
Qed.

End RefreshSteps.

Section MainSteps.
Context {G : Git} {T : Termcolor}.
Variable R : world -> world -> list event -> Prop.
Hypothesis HR : composable R.
Hypothesis Hprint : forall w line, R w w [Stdout line].
Variable args : Args.
Hypothesis Hcheckout :
  truthy (arg_branch args) = true \/ arg_cascade args = true ->
  forall t w, R w (git_checkout t w).2 [GitCheckout t (git_checkout t w).1].
Hypothesis Hrefresh :
  arg_refresh args = true ->
  forall branch, steps R (refresh_branch branch TheRepo).
Hypothesis Hedge :
  arg_cascade args = true ->
  forall bname parent,
    steps R (cascade_child (Some TheRepo) bname parent (arg_push args)).

Lemma steps_checkout target repo fail :
  truthy (arg_branch args) = true \/ arg_cascade args = true ->
  steps R (checkout target repo fail).
Proof.
  intros Hc. unfold checkout.
  apply (steps_bind R HR); [apply (steps_command R), (Hcheckout Hc)|].
  intros [msg|]; [|apply (steps_ret R HR)].
  apply (steps_bind R HR); [apply (steps_lift R HR)|]. intros catches.
  destruct (catches _); [|apply (steps_raise R HR)].
  apply (steps_bind R HR); [apply (steps_print R Hprint)|]. intros _.
  destruct fail; [apply (steps_raise R HR) | apply (steps_ret R HR)].
Qed.

Lemma steps_find_git_dir : steps R find_git_dir.
Proof.
  unfold find_git_dir. apply (steps_bind R HR); [apply (steps_query R HR)|].
  intros [t|]; [apply (steps_ret R HR) | apply (steps_raise R HR)].
Qed.

Lemma steps_main fuel : steps R (main fuel args).
Proof.
  unfold main. pose proof steps_checkout as Hco.
  pose proof Hrefresh as Hre.
  apply (steps_bind R HR); [apply steps_find_git_dir|]. intros git_dir.
  apply (steps_bind R HR); [apply (steps_query R HR)|]. intros found.
  destruct (negb found); [apply (steps_raise R HR)|].
  apply (steps_bind R HR); [apply (steps_query R HR)|]. intros branches.
  destruct (build_git_dag branches) as [dag roots].
  apply (steps_bind R HR); [apply (steps_active_branch R HR Hprint)|].
  intros initial.
  apply (steps_bind R HR).
  { destruct (truthy (arg_branch args)) eqn:Hb.
    - destruct (bool_decide _); [|apply (steps_ret R HR)].
      apply (steps_bind R HR); [apply Hco; by left|].
      intros _. apply (steps_ret R HR).
    - rewrite bool_decide_eq_false_2 by (intros H; by apply H).
      apply (steps_ret R HR). }
  intros active.
  apply (steps_bind R HR).
  { destruct (arg_refresh args) eqn:Hr;
      [by apply Hre | apply (steps_ret R HR)]. }
  intros _.
  apply (steps_bind R HR).
  { apply (steps_print_dag R HR Hprint). intros Hc k children b t _ _ _.
    by apply Hedge. }
  intros _. destruct (arg_cascade args) eqn:Hc; [|apply (steps_ret R HR)].
  apply (steps_bind R HR);
    [apply (steps_command R), Hcheckout; by right|].
  intros [msg|]; [apply (steps_raise R HR)|].
  apply (steps_bind R HR); [apply (steps_print R Hprint)|]. intros _.
  by apply (steps_print_dag R HR Hprint).
Qed.

End MainSteps.

Section RunSafety.
Context {G : Git} {T : Termcolor}.

Lemma within_composable args : composable (within args).
Proof.
  split.
  - intros w. constructor.
  - intros w1 w2 w3 tr1 tr2 H1 H2. by apply Forall_app.
Qed.

(** X5.  A run sends a rebase or an abort only under [--cascade], and a
    push only under [--cascade] together with [--push], whatever the
    repository and however the run ends. *)
Theorem run_commands_need_flags fuel (args : Args) (w : world) :
  Forall (allowed_by args) (st_trace (run fuel args w).2).
Proof.
  destruct (steps_main (within args) (within_composable args)
              ltac:(by repeat constructor) args
              ltac:(by repeat constructor)) with (fuel := fuel)
              (s := mkState w []) as (tr & Htr & Hall).
  - intros _ branch.
    apply (steps_refresh_branch (within args) (within_composable args));
      by repeat constructor.
  - intros Hc bname parent s. unfold steps_at. rewrite cascade_child_run.
    destruct (git_rebase parent bname (st_world s)) as [[msg|] w1].
    + eexists. split; [reflexivity|]. unfold within, failed_rebase_events.
      destruct (git_rebase_abort w1).1; by repeat constructor.
    + destruct (arg_push args) eqn:Hp.
      * eexists. split; [reflexivity|]. unfold within, rebased_events,
          push_events.
        destruct (git_push_force _ w1).1; repeat constructor; cbn; by rewrite ?Hp.
      * eexists. split; [reflexivity|]. unfold within, rebased_events.
        by repeat constructor.
  - unfold run. rewrite Htr. exact Hall.
Qed.

(** X6.  A run with none of [--cascade], [--refresh] and [--branch] leaves
    the repository exactly as it found it and sends no command at all:
    its trace holds printed lines only, however the run ends. *)
Theorem plain_run_only_reads fuel (args : Args) (w : world) :
  arg_cascade args = false -> arg_refresh args = false ->
  truthy (arg_branch args) = false ->
  st_world (run fuel args w).2 = w /\
  Forall is_stdout (st_trace (run fuel args w).2).
Proof.
  intros Hc Hr Hb.
  destruct (steps_main reads_only reads_only_composable reads_only_print
              args) with (fuel := fuel) (s := mkState w [])
    as (tr & Htr & Hw & Hall).
  - rewrite Hb, Hc. by intros [|].
  - by rewrite Hr.
  - by rewrite Hc.
  - unfold run. by rewrite Htr.
Qed.

End RunSafety.

(** ** Refreshing, and a detached HEAD *)

Section Refresh.
Context {G : Git} {T : Termcolor}.

(** X7.  Refreshing a branch given by its name never raises: the fetch
    comes first, the reset onto the remote branch is attempted only after
    a fetch that succeeded, and a failure of either costs one printed line
    and nothing more. *)
Theorem refresh_resets_only_after_fetch n (s : State) :
  exists s' tr,
    refresh_branch (PyStr n) TheRepo s = (Ret tt, s') /\
    st_trace s' = st_trace s ++ tr /\
    ((exists msg, commands tr = [GitFetch n (Some msg)] /\
                  length (printed tr) = 1 /\
                  st_world s' = (git_fetch n (st_world s)).2) \/
     (exists reset, commands tr =
                      [GitFetch n None; GitResetKeep ("origin/" +:+ n) reset] /\
                    length (printed tr) = (match reset with Some _ => 1 | None => 0 end))).
Proof.
  unfold refresh_branch, try_except, bind, command, print, emit, lift, ret,
    raise; cbn.
  destruct (git_fetch n (st_world s)) as [[msg|] w1]; cbn.
  - eexists _, [_; _]. rewrite <- app_assoc. split; [reflexivity|].
    split; [reflexivity|]. left. by exists msg.
  - destruct (git_reset_keep ("origin/" +:+ n) w1) as [[msg|] w2]; cbn.
    + eexists _, [_; _; _]. rewrite <- !app_assoc. split; [reflexivity|].
      split; [reflexivity|]. right. by exists (Some msg).
    + eexists _, [_; _]. rewrite <- !app_assoc. split; [reflexivity|].
      split; [reflexivity|]. right. by exists None.
Qed.

Lemma main_located fuel (args : Args) (w : world) :
  located w ->
  run fuel args w =
    (let* branches := query git_branches in
     let '(dag, roots) := build_git_dag branches in
     let roots := Some <$> roots in
     let* initial_active_branch :=
       active_branch_from_repo (Some TheRepo) true in
     let active_branch_name :=
       (fun h => obj_name (name h)) <$> initial_active_branch in
     let branch := if truthy (arg_branch args) then arg_branch args
                   else active_branch_name in
     let roots := if truthy (arg_branch args) then [branch] else roots in
     let* active_branch_name :=
       (if bool_decide (branch <> active_branch_name) then
          checkout branch TheRepo true ;; ret branch
        else ret active_branch_name) in
     (if arg_refresh args then
        refresh_branch (of_name active_branch_name) TheRepo
      else ret tt) ;;
     let roots := if arg_cascade args then [active_branch_name] else roots in
     print_dag fuel dag roots (Some TheRepo) (arg_cascade args)
       (arg_color args) (arg_push args) ;;
     if arg_cascade args then
       let target := name <$> initial_active_branch in
       let* r := command (git_checkout target) (GitCheckout target) in
       match r with
       | Some msg => raise (GitCommandError msg)
       | None =>
           print "Status after cascade:" ;;
           print_dag fuel dag roots (Some TheRepo) false (arg_color args) false
       end
     else ret tt) (mkState w []).
Proof.
  intros (top & Htop & Hex). unfold run, main, find_git_dir.
  unfold bind at 1. unfold bind at 1. unfold query at 1. cbn [st_world].
  rewrite Htop. cbn [ret]. unfold bind at 1. unfold query at 1.
  cbn [st_world]. by rewrite Hex.
Qed.

(** X8.  With HEAD on no branch, a run under [--refresh] and without
    [--branch] ends with an [AssertionError] before it has sent a single
    command: the handler of the refresh asks for the name of a branch that
    is not there. *)
Theorem refresh_at_detached_head_raises fuel (args : Args) (w : world) msg :
  located w -> git_active_branch w = inl msg ->
  arg_refresh args = true -> truthy (arg_branch args) = false ->
  exists m,
    run fuel args w =
      (Raise (AssertionError m), mkState w [detached_notice msg]).
Proof.
  intros Hloc Hdet Hr Hb. rewrite (main_located fuel args w Hloc).
  unfold bind at 1. unfold query at 1. cbn [st_world].
  destruct (build_git_dag (git_branches w)) as [dag roots].
  unfold bind at 1. unfold active_branch_from_repo, bind at 1, query at 1.
  cbn [st_world]. rewrite Hdet, Hb, Hr.
  unfold bind at 1, print at 1, emit at 1. cbn [ret st_world st_trace app].
  rewrite bool_decide_eq_false_2 by (intros Hc; by apply Hc).
  eexists. unfold bind, print, emit, ret, refresh_branch, try_except, lift,
    raise. cbn. reflexivity.
Qed.

(** X9.  With HEAD on no branch, a run with no option at all, in a
    repository where the builder finds a root, ends with an
    [AssertionError] on the first line it has to render; nothing of the
    tree is printed and no command is sent. *)
Theorem plain_run_at_detached_head_raises fuel (args : Args) (w : world) msg :
  located w -> git_active_branch w = inl msg ->
  arg_cascade args = false -> arg_refresh args = false ->
  truthy (arg_branch args) = false ->
  (build_git_dag (git_branches w)).2 <> [] ->
  exists m,
    run (S fuel) args w =
      (Raise (AssertionError m), mkState w [detached_notice msg]).
Proof.
  intros Hloc Hdet Hc Hr Hb Hroots. rewrite (main_located _ args w Hloc).
  unfold bind at 1. unfold query at 1. cbn [st_world].
  pose proof (build_git_dag_roots (git_branches w)) as Hrs.
  pose proof (build_git_dag_lookup (git_branches w)) as Hlk.
  destruct (build_git_dag (git_branches w)) as [dag roots].
  cbn [fst snd] in *. destruct roots as [|r roots]; [done|].
  assert (Hkey : is_Some (dag !! r)).
  { assert (Hin : r ∈ omap root_of (git_branches w))
      by (rewrite <- Hrs; left).
    apply list_elem_of_omap in Hin as (b & Hb' & Hroot).
    rewrite Hlk. rewrite decide_True; [done|].
    apply Exists_exists. exists b. split; [done|].
    unfold root_of in Hroot. unfold touches, tracks.
    destruct (tracking_branch b) as [t|].
    - destruct (Py.startswith _ _); [|done]. injection Hroot as <-.
      by right.
    - injection Hroot as <-. by left. }
  destruct Hkey as [children Hchildren].
  unfold bind at 1. unfold active_branch_from_repo, bind at 1, query at 1.
  cbn [st_world]. rewrite Hdet, Hb, Hr, Hc.
  unfold bind at 1, print at 1, emit at 1. cbn [ret st_world st_trace app].
  rewrite bool_decide_eq_false_2 by (intros Hx; by apply Hx).
  unfold bind at 1. cbn [ret]. unfold bind at 1. cbn [ret fmap list_fmap].
  unfold bind at 1. cbn [print_dag]. unfold bind at 1. cbn [print_tree].
  unfold bind at 1. unfold active_branch_from_repo, bind at 1, query at 1.
  cbn [st_world]. rewrite Hdet. cbn [ret]. unfold bind at 1. cbn [ret].
  rewrite Hchildren. cbn [Nat.eqb]. unfold bind at 1.
  destruct (create_branch_str_detached r 0 "" None
              (negb (arg_color args)) (mkState w [detached_notice msg]))
    as [m Hm].
  unfold detached_notice in Hm. rewrite Hm. by exists m.
Qed.

End Refresh.

(** ** Cycles, and the loop over the roots *)

Section Returning.
Context {G : Git} {T : Termcolor}.

Lemma bind_returns {A B} (m : M A) (k : A -> M B) (s s' : State) b :
  bind m k s = (Ret b, s') ->
  exists a s1, m s = (Ret a, s1) /\ k a s1 = (Ret b, s').
Proof.
  unfold bind. destruct (m s) as [[a|e|] s1]; [|done..]. intros H.
  by exists a, s1.
Qed.

(** A rendering of a child list that returns has had every call on a
    child return. *)
Lemma for_children_returns (rec : string -> M bool) ab depth repo color
    push_updates children (s s' : State) v :
  (forall bname s, (rec bname s).1 <> Ret false) ->
  for_children rec ab depth repo false color push_updates children s
    = (Ret v, s') ->
  forall c, c ∈ child_names children ->
  exists s1 v1 s1', rec c s1 = (Ret v1, s1').
Proof.
  intros Hrec. revert s. induction children as [|b rest IH]; intros s Hrun c Hc.
  { by apply elem_of_nil in Hc. }
  cbn [for_children] in Hrun.
  apply bind_returns in Hrun as (bname & s1 & E1 & Hrun).
  cbn in E1. injection E1 as <- <-.
  apply bind_returns in Hrun as (parent & s2 & _ & Hrun).
  apply bind_returns in Hrun as (line & s3 & _ & Hrun).
  apply bind_returns in Hrun as ([] & s4 & _ & Hrun).
  apply bind_returns in Hrun as (go_on & s5 & E5 & Hrun).
  cbn in E5. injection E5 as <- <-.
  apply bind_returns in Hrun as (leaf & s6 & E6 & Hrun).
  destruct leaf; cbn [negb] in Hrun.
  - cbn in Hc. apply elem_of_cons in Hc as [->|Hc]; [by eauto|].
    by apply (IH s6).
  - exfalso. apply (Hrec (obj_name (name b)) s4). by rewrite E6.
Qed.

(** A rendering that returns has had a call with less fuel return on every
    child of its start. *)
Lemma print_tree_returns_child fuel (dag : DAG) cur depth repo color
    push_updates (s s' : State) v c :
  print_tree fuel dag (Some cur) depth repo false color push_updates s
    = (Ret v, s') ->
  child_of dag cur c ->
  exists fuel' depth' s1 v1 s1',
    fuel' < fuel /\
    print_tree fuel' dag (Some c) depth' repo false color push_updates s1
      = (Ret v1, s1').
Proof.
  intros Hrun (children & Hl & Hc).
  assert (Hlevel : forall f d s0 s0' v0,
    d <> 0 ->
    print_tree (S f) dag (Some cur) d repo false color push_updates s0
      = (Ret v0, s0') ->
    exists s1 v1 s1',
      print_tree f dag (Some c) (d + 1) repo false color push_updates s1
        = (Ret v1, s1')).
  { intros f d s0 s0' v0 Hd H0. cbn [print_tree] in H0.
    apply bind_returns in H0 as (ab & s1 & _ & H0). rewrite Hl in H0.
    apply Nat.eqb_neq in Hd. rewrite Hd in H0.
    apply (for_children_returns
             (fun bname =>
                print_tree f dag (Some bname) (d + 1) repo false color
                  push_updates)
             ab d repo color push_updates children s1 s0' v0); [|done..].
    intros bname s2. apply print_tree_never_false. }
  destruct fuel as [|fuel]; [done|].
  destruct (Nat.eqb depth 0) eqn:Hd.
  - cbn [print_tree] in Hrun.
    apply bind_returns in Hrun as (ab & s1 & _ & Hrun).
    rewrite Hl, Hd in Hrun.
    apply bind_returns in Hrun as (line & s2 & _ & Hrun).
    apply bind_returns in Hrun as ([] & s3 & _ & Hrun).
    destruct fuel as [|fuel]; [done|].
    destruct (Hlevel fuel (depth + 1) s3 s' v ltac:(lia) Hrun)
      as (s4 & v4 & s4' & H4).
    exists fuel, (depth + 1 + 1), s4, v4, s4'. split; [lia | done].
  - apply Nat.eqb_neq in Hd.
    destruct (Hlevel fuel depth s s' v Hd Hrun) as (s4 & v4 & s4' & H4).
    exists fuel, (depth + 1), s4, v4, s4'. split; [lia | done].
Qed.

Lemma print_tree_returns_reachable (dag : DAG) repo color push_updates cur x :
  reachable dag cur x ->
  forall fuel depth (s s' : State) v,
    print_tree fuel dag (Some cur) depth repo false color push_updates s
      = (Ret v, s') ->
    exists fuel' depth' s1 v1 s1',
      fuel' < fuel /\
      print_tree fuel' dag (Some x) depth' repo false color push_updates s1
        = (Ret v1, s1').
Proof.
  induction 1 as [c Hc|y c _ IH Hc]; intros fuel depth s s' v Hrun.
  - by apply (print_tree_returns_child fuel dag cur depth repo color
                push_updates s s' v c).
  - destruct (IH fuel depth s s' v Hrun)
      as (f1 & d1 & s1 & v1 & s1' & Hf1 & H1).
    destruct (print_tree_returns_child f1 dag y d1 repo color push_updates
                s1 s1' v1 c H1 Hc) as (f2 & d2 & s2 & v2 & s2' & Hf2 & H2).
    exists f2, d2, s2, v2, s2'. split; [lia | done].
Qed.

Lemma print_tree_cycle_never_returns (dag : DAG) repo color push_updates x :
  reachable dag x x ->
  forall fuel depth (s : State) v,
    (print_tree fuel dag (Some x) depth repo false color push_updates s).1
      <> Ret v.
Proof.
  intros Hcycle fuel.
  induction fuel as [fuel IH] using lt_wf_ind. intros depth s v Hrun.
  destruct (print_tree fuel dag (Some x) depth repo false color push_updates s)
    as [o s'] eqn:E. cbn in Hrun. subst o.
  destruct (print_tree_returns_reachable dag repo color push_updates x x
              Hcycle fuel depth s s' v E)
    as (f1 & d1 & s1 & v1 & s1' & Hf1 & H1).
  apply (IH f1 Hf1 d1 s1 v1). by rewrite H1.
Qed.

(** X10.  A rendering that starts on a cycle of the DAG, or comes to one,
    returns with no amount of fuel: the walk keeps no record of the
    branches it has visited, so it ends only by an exception or by running
    out of depth. *)
Theorem rendering_a_cycle_never_returns (dag : DAG) start x repo color
    push_updates fuel depth (s : State) v :
  start = x \/ reachable dag start x ->
  reachable dag x x ->
  (print_tree fuel dag (Some start) depth repo false color push_updates s).1
    <> Ret v.
Proof.
  intros [->|Hreach] Hcycle; [by apply print_tree_cycle_never_returns|].
  intros Hrun.
  destruct (print_tree fuel dag (Some start) depth repo false color
              push_updates s) as [o s'] eqn:E. cbn in Hrun. subst o.
  destruct (print_tree_returns_reachable dag repo color push_updates start x
              Hreach fuel depth s s' v E)
    as (f1 & d1 & s1 & v1 & s1' & _ & H1).
  apply (print_tree_cycle_never_returns dag repo color push_updates x Hcycle
           f1 d1 s1 v1). by rewrite H1.
Qed.

(** X11.  The loop over the roots is the loop over a first part of them
    followed by the loop over the rest: its early exit is never taken, and
    only an exception, or the depth running out, keeps the later roots from
    being walked. *)
Theorem print_dag_app fuel (dag : DAG) roots1 roots2 repo cascade color
    push_updates (s : State) :
  print_dag fuel dag (roots1 ++ roots2) repo cascade color push_updates s =
    (print_dag fuel dag roots1 repo cascade color push_updates ;;
     print_dag fuel dag roots2 repo cascade color push_updates) s.
Proof.
  revert s. induction roots1 as [|r roots1 IH]; intros s; [done|].
  cbn [app print_dag]. unfold bind.
  pose proof (print_tree_never_false fuel dag r 0 repo cascade color
                push_updates s) as Hnf.
  destruct (print_tree fuel dag r 0 repo cascade color push_updates s)
    as [[[|]|e|] s1]; cbn [negb]; [|done..].
  rewrite IH. unfold bind. done.
Qed.

End Returning.

(** ** Names, keys and roots *)

Section Names.

Lemma lstrip_idemp chars s : Py.lstrip chars (Py.lstrip chars s) = Py.lstrip chars s.
Proof.
  induction s as [|c s IH]; [done|]. cbn.
  destruct (bool_decide (c ∈ chars)) eqn:E; [done|]. cbn. by rewrite E.
Qed.

Lemma lstrip_head chars s c rest :
  Py.lstrip chars s = String c rest -> c ∉ chars.
Proof.
  induction s as [|c' s IH]; [done|]. cbn.
  destruct (bool_decide (c' ∈ chars)) eqn:E; [done|].
  intros [= <- _]. by apply bool_decide_eq_false in E.
Qed.

Lemma lstrip_keeps chars c rest :
  c ∉ chars -> Py.lstrip chars (String c rest) = String c rest.
Proof. intros H. cbn. by rewrite bool_decide_eq_false_2. Qed.

(** X12.  The name [branch_name] gives for a branch object never begins
    with a dot or a slash, is the raw name itself when that begins with
    neither, and is not changed by being stripped again; so a local
    upstream written [./x] and the branch [x] have one name.  A string is
    handed back as it is. *)
Theorem branch_name_strips_leading_dots_and_slashes (raw : string) :
  (forall c rest, branch_name (PyObj raw) = inr (String c rest) ->
     c <> "."%char /\ c <> "/"%char) /\
  (forall c rest, raw = String c rest -> c <> "."%char -> c <> "/"%char ->
     branch_name (PyObj raw) = inr raw) /\
  branch_name (PyObj (obj_name raw)) = branch_name (PyObj raw) /\
  branch_name (PyObj ("./" +:+ raw)) = branch_name (PyObj raw) /\
  branch_name (PyStr raw) = inr raw.
Proof.
  unfold branch_name, obj_name. split; [|split; [|split; [|done]]].
  - intros c rest H. injection H as H. apply lstrip_head in H.
    split; intros ->; apply H; [left | right; left].
  - intros c rest -> H1 H2. f_equal. apply lstrip_keeps.
    rewrite !not_elem_of_cons. repeat split; [done..|]. apply not_elem_of_nil.
  - f_equal. apply lstrip_idemp.
Qed.

End Names.

Section Builder.

(** X13.  The keys of the built DAG are the names of the branches together
    with the names of the branches they track, and nothing else; under a
    key stand exactly the branches that track it, in the order in which the
    repository lists them. *)
Theorem build_git_dag_keys_and_children (bs : list Head) (k : string) :
  (is_Some ((build_git_dag bs).1 !! k) <->
     exists b, b ∈ bs /\
       (obj_name (name b) = k \/ obj_name <$> tracking_branch b = Some k)) /\
  (forall children, (build_git_dag bs).1 !! k = Some children ->
     children = filter (fun b => obj_name <$> tracking_branch b = Some k) bs).
Proof.
  rewrite build_git_dag_lookup. split.
  - destruct (decide (Exists (touches k) bs)) as [He|He].
    + split; [|done]. intros _. apply Exists_exists in He as (b & Hb & Ht).
      by exists b.
    + split; [by intros [? ?]|]. intros (b & Hb & Ht). exfalso. apply He.
      apply Exists_exists. by exists b.
  - intros children. destruct (decide _); [|done]. by intros [= <-].
Qed.

Lemma build_git_dag_child_of bs p c :
  child_of (build_git_dag bs).1 p c <->
  exists b, b ∈ bs /\ tracks p b /\ obj_name (name b) = c.
Proof.
  unfold child_of. rewrite build_git_dag_lookup. split.
  - intros (children & Hl & Hc). destruct (decide _); [|done].
    injection Hl as <-. apply list_elem_of_fmap in Hc as (b & -> & Hb).
    apply list_elem_of_filter in Hb as [Ht Hb]. by exists b.
  - intros (b & Hb & Ht & <-). exists (filter (tracks p) bs).
    rewrite decide_True.
    + split; [done|]. apply list_elem_of_fmap. exists b. split; [done|].
      by apply list_elem_of_filter.
    + apply Exists_exists. exists b. split; [done | by right].
Qed.

Lemma build_git_dag_root bs r :
  r ∈ (build_git_dag bs).2 <->
  exists b, b ∈ bs /\
    ((tracking_branch b = None /\ obj_name (name b) = r) \/
     (tracks r b /\ Py.startswith r "origin" = true)).
Proof.
  rewrite build_git_dag_roots, list_elem_of_omap. unfold root_of, tracks.
  split.
  - intros (b & Hb & Hr). exists b. split; [done|].
    destruct (tracking_branch b) as [t|]; cbn.
    + destruct (Py.startswith (obj_name t) "origin") eqn:E; [|done].
      injection Hr as <-. by right.
    + injection Hr as <-. by left.
  - intros (b & Hb & [[Hn <-]|[Ht Ho]]); exists b; (split; [done|]).
    + by rewrite Hn.
    + destruct (tracking_branch b) as [t|]; cbn in *; [|done].
      injection Ht as ->. by rewrite Ho.
Qed.

(** X14.  When the tracking configuration has no cycle and every branch
    that tracks one tracks a local branch or a reference named
    [origin...], every branch is on a tree of the output: it is a root or
    a walk from a root comes to it. *)
Theorem every_branch_is_shown (bs : list Head) :
  acyclic (build_git_dag bs).1 ->
  (forall b t, b ∈ bs -> tracks t b ->
     Py.startswith t "origin" = true \/ t ∈ child_names bs) ->
  forall b, b ∈ bs ->
    shown (build_git_dag bs).1 (build_git_dag bs).2 (obj_name (name b)).
Proof.
  intros [rank Hrank] Hclosed.
  set (bound := S (max_list (rank <$> child_names bs))).
  assert (Hbound : forall b, b ∈ bs -> rank (obj_name (name b)) < bound).
  { intros b Hb. unfold bound. apply Nat.lt_succ_r, max_list_elem_of_le.
    apply list_elem_of_fmap. exists (obj_name (name b)). split; [done|].
    apply list_elem_of_fmap. by exists b. }
  assert (Hall : forall n b, b ∈ bs -> bound - rank (obj_name (name b)) <= n ->
            shown (build_git_dag bs).1 (build_git_dag bs).2 (obj_name (name b))).
  { induction n as [|n IH]; intros b Hb Hn.
    { specialize (Hbound b Hb). lia. }
    destruct (tracking_branch b) as [t|] eqn:Ht.
    - assert (Htr : tracks (obj_name t) b) by (unfold tracks; by rewrite Ht).
      assert (Hc : child_of (build_git_dag bs).1 (obj_name t)
                     (obj_name (name b))).
      { apply build_git_dag_child_of. by exists b. }
      destruct (Hclosed b (obj_name t) Hb Htr) as [Ho|Hl].
      + right. exists (obj_name t). split; [|by apply reach_child].
        apply build_git_dag_root. exists b. split; [done|]. by right.
      + apply list_elem_of_fmap in Hl as (p & Hp & Hpin).
        pose proof (ranked_child rank _ _ _ Hrank Hc) as Hlt.
        rewrite Hp in Hlt, Hc.
        destruct (IH p Hpin ltac:(lia)) as [Hroot|(r & Hr & Hreach)].
        * right. exists (obj_name (name p)). split; [done|].
          by apply reach_child.
        * right. exists r. split; [done|]. by eapply reach_step.
    - left. apply build_git_dag_root. exists b. split; [done|]. by left. }
  intros b Hb. apply (Hall bound); [done | lia].
Qed.

(** X15.  With distinct branch names, a branch that tracks a reference
    which is neither a local branch nor named [origin...] is on no tree of
    the output, unless its own name begins with [origin]: it is no root,
    and no walk from a root comes to it. *)
Theorem branch_on_foreign_upstream_is_not_shown (bs : list Head) (b : Head)
    (t : string) :
  NoDup (child_names bs) -> b ∈ bs -> tracks t b ->
  Py.startswith t "origin" = false -> t ∉ child_names bs ->
  Py.startswith (obj_name (name b)) "origin" = false ->
  ~ shown (build_git_dag bs).1 (build_git_dag bs).2 (obj_name (name b)).
Proof.
  intros Hnd Hb Ht Ho Hforeign Hown.
  assert (Hnoroot : t ∉ (build_git_dag bs).2).
  { intros Hr. apply build_git_dag_root in Hr as (b' & Hb' & [[_ Hn]|[_ Hs]]).
    - apply Hforeign. apply list_elem_of_fmap. by exists b'.
    - congruence. }
  assert (Hnochild : forall y, ~ child_of (build_git_dag bs).1 y t).
  { intros y Hy. apply build_git_dag_child_of in Hy as (b' & Hb' & _ & Hn).
    apply Hforeign. apply list_elem_of_fmap. by exists b'. }
  assert (Hparent : forall y, child_of (build_git_dag bs).1 y
                                (obj_name (name b)) -> y = t).
  { intros y Hy. apply build_git_dag_child_of in Hy as (b' & Hb' & Ht' & Hn).
    assert (b' = b)
      by (by apply (NoDup_fmap_same (fun b => obj_name (name b)) bs)).
    subst b'. unfold tracks in *. congruence. }
  intros [Hroot|(r & Hr & Hreach)].
  - apply build_git_dag_root in Hroot as (b' & Hb' & [[Hn Hname]|[_ Hs]]).
    + assert (b' = b)
        by (by apply (NoDup_fmap_same (fun b => obj_name (name b)) bs)).
      subst b'. unfold tracks in Ht. by rewrite Hn in Ht.
    + congruence.
  - inversion Hreach as [c Hc|y c Hy Hc]; subst.
    + apply Hparent in Hc. by subst r.
    + apply Hparent in Hc. subst y.
      inversion Hy as [c Hc'|y' c Hy' Hc']; subst; by apply (Hnochild _ Hc').
Qed.

End Builder.

(** ** One line for every branch below a root *)

Section EntriesOfWalk.
Context {G : Git} {T : Termcolor}.

Lemma subtree_lines_entries fuel (dag : DAG) (w : world) ab color depth cur :
  subtree_lines fuel dag w ab color depth cur =
    entry_line w ab color <$> subtree_entries fuel dag depth cur.
Proof.
  revert depth cur. induction fuel as [|fuel IH]; intros depth cur; [done|].
  cbn [subtree_lines subtree_entries].
  induction (default [] (dag !! cur)) as [|b l IHl]; [done|].
  cbn [flat_map]. rewrite fmap_app, <- IHl. cbn [fmap list_fmap].
  by rewrite IH.
Qed.

Lemma entry_names_cons_app d b l l' :
  entry_names (((d, b) :: l) ++ l') =
    obj_name (name b) :: entry_names l ++ entry_names l'.
Proof. unfold entry_names. cbn. by rewrite fmap_app. Qed.

(** The names among the entries of the blocks of a child list. *)
Lemma entries_of_children (F : Head -> list (nat * Head)) children x :
  x ∈ entry_names (flat_map F children) <->
  exists b, b ∈ children /\ x ∈ entry_names (F b).
Proof.
  unfold entry_names. rewrite list_elem_of_fmap. split.
  - intros (e & -> & He). apply list_elem_of_In, in_flat_map in He
      as (b & Hb & He). exists b. split; [by apply list_elem_of_In|].
    apply list_elem_of_fmap. exists e. split; [done|]. by apply list_elem_of_In.
  - intros (b & Hb & Hx). apply list_elem_of_fmap in Hx as (e & -> & He).
    exists e. split; [done|]. apply list_elem_of_In, in_flat_map. exists b.
    split; by apply list_elem_of_In.
Qed.

Lemma subtree_entries_reachable fuel (dag : DAG) depth cur x :
  x ∈ entry_names (subtree_entries fuel dag depth cur) -> reachable dag cur x.
Proof.
  revert depth cur. induction fuel as [|fuel IH]; intros depth cur Hx.
  { by apply elem_of_nil in Hx. }
  cbn [subtree_entries] in Hx.
  apply entries_of_children in Hx as (b & Hb & Hx).
  assert (Hc : child_of dag cur (obj_name (name b))).
  { apply kids_child_of. unfold kids. apply list_elem_of_fmap. by exists b. }
  unfold entry_names in Hx. cbn in Hx. apply elem_of_cons in Hx as [->|Hx].
  - by apply reach_child.
  - apply (reachable_from_child dag cur (obj_name (name b))); [done|].
    by apply (IH (depth + 1)).
Qed.

Lemma subtree_entries_complete rank fuel (dag : DAG) depth cur x :
  ranked rank dag -> rank cur < fuel -> reachable dag cur x ->
  x ∈ entry_names (subtree_entries fuel dag depth cur).
Proof.
  intros Hrank. revert depth cur.
  induction fuel as [|fuel IH]; intros depth cur Hlt Hx; [lia|].
  apply reachable_first in Hx as (c & Hc & Hx).
  pose proof (ranked_child rank dag cur c Hrank Hc) as Hrc.
  apply kids_child_of in Hc. unfold kids in Hc.
  apply list_elem_of_fmap in Hc as (b & -> & Hb).
  cbn [subtree_entries]. apply entries_of_children. exists b. split; [done|].
  unfold entry_names. cbn. destruct Hx as [->|Hx]; [left|right].
  apply (IH (depth + 1)); [lia | done].
Qed.

Lemma subtree_entries_NoDup rank fuel (dag : DAG) depth cur :
  ranked rank dag -> forest dag ->
  NoDup (entry_names (subtree_entries fuel dag depth cur)).
Proof.
  intros Hrank Hforest. revert depth cur.
  induction fuel as [|fuel IH]; intros depth cur; [constructor|].
  cbn [subtree_entries].
  assert (Hnd : NoDup (child_names (default [] (dag !! cur)))).
  { destruct (dag !! cur) as [l|] eqn:Hl; [|constructor].
    by apply (proj1 Hforest cur). }
  assert (Hkids : forall c, c ∈ child_names (default [] (dag !! cur)) ->
                    child_of dag cur c).
  { intros c Hc. by apply kids_child_of. }
  induction (default [] (dag !! cur)) as [|b l IHl]; [constructor|].
  cbn [flat_map]. rewrite entry_names_cons_app.
  cbn in Hnd. apply NoDup_cons in Hnd as [Hb Hl].
  assert (Hcb : child_of dag cur (obj_name (name b))) by (apply Hkids; left).
  assert (Hrest : forall x,
    x ∈ entry_names
          (flat_map
             (fun b => (depth, b)
                :: subtree_entries fuel dag (depth + 1) (obj_name (name b)))
             l) ->
    exists c, c ∈ child_names l /\ (x = c \/ reachable dag c x)).
  { intros x Hx. apply entries_of_children in Hx as (b' & Hb' & Hx).
    exists (obj_name (name b')). split.
    - apply list_elem_of_fmap. by exists b'.
    - unfold entry_names in Hx. cbn in Hx.
      apply elem_of_cons in Hx as [->|Hx]; [by left|]. right.
      by apply (subtree_entries_reachable fuel dag (depth + 1)). }
  apply NoDup_cons. split; [|apply NoDup_app; split; [|split]].
  - intros Hin. apply elem_of_app in Hin as [Hin|Hin].
    + apply subtree_entries_reachable in Hin.
      by apply (acyclic_irreflexive dag (obj_name (name b)));
        [exists rank|].
    + apply Hrest in Hin as (c & Hc & Hx).
      apply (siblings_disjoint rank dag cur (obj_name (name b)) c
               (obj_name (name b))); try done.
      * apply Hkids. by right.
      * intros <-. done.
      * by left.
  - apply IH.
  - intros x Hx Hx'. apply subtree_entries_reachable in Hx.
    apply Hrest in Hx' as (c & Hc & Hx').
    apply (siblings_disjoint rank dag cur (obj_name (name b)) c x); try done.
    + apply Hkids. by right.
    + intros <-. done.
    + by right.
  - apply IHl; [done|]. intros c Hc. apply Hkids. by right.
Qed.

(** X16.  The rendering of a root of a DAG that is a forest without
    cycles, with HEAD on a branch, prints the line of the root and then
    one line for every branch a walk from the root comes to, and for no
    other: each such branch has exactly one line. *)
Theorem rendering_has_one_line_per_branch rank (dag : DAG) (w : world)
    (h : Head) color push_updates fuel cur children tr :
  ranked rank dag -> tracked dag -> forest dag ->
  git_active_branch w = inr h -> dag !! cur = Some children ->
  rank cur + 1 < fuel ->
  exists entries,
    print_tree fuel dag (Some cur) 0 (Some TheRepo) false color push_updates
      (mkState w tr)
    = (Ret true,
       mkState w
         (tr ++ Stdout (branch_line w cur (Some h) 0 "" None (negb color))
             :: (Stdout ∘ entry_line w (Some h) color <$> entries))) /\
    NoDup (entry_names entries) /\
    (forall x, x ∈ entry_names entries <-> reachable dag cur x).
Proof.
  intros Hrank Htracked Hforest Hh Hl Hfuel.
  exists (subtree_entries (fuel - 1) dag 1 cur). split; [|split].
  - rewrite (render_root rank dag w h color push_updates Hrank Htracked Hh
               (Some cur) tr fuel Hfuel).
    unfold tree_lines. cbn [mbind option_bind]. rewrite Hl.
    rewrite subtree_lines_entries. cbn [fmap list_fmap].
    by rewrite <- list_fmap_compose.
  - by apply (subtree_entries_NoDup rank).
  - intros x. split.
    + apply subtree_entries_reachable.
    + apply (subtree_entries_complete rank); [done|]. lia.
Qed.

End EntriesOfWalk.

(** ** Reading the status back: [prune_branches.py] *)

Section ReadingBack.

Lemma append_assoc_string (a b c : string) : (a +:+ b) +:+ c = a +:+ b +:+ c.
Proof.
  induction a as [|x a IH]; [done|].
  change (String x ((a +:+ b) +:+ c) = String x (a +:+ b +:+ c)).
  by rewrite IH.
Qed.

Lemma append_nil_r (a : string) : a +:+ "" = a.
Proof.
  induction a as [|x a IH]; [done|].
  change (String x (a +:+ "") = String x a). by rewrite IH.
Qed.

Lemma search_skip c rest :
  c <> "|"%char -> Prune.search (String c rest) = Prune.search rest.
Proof.
  intros Hc. cbn [Prune.search Prune.strip_prefix].
  destruct (Ascii.eqb_spec "|" c) as [<-|_]; done.
Qed.

Lemma search_without_bar line :
  Forall (fun c => c <> "|"%char) (list_ascii_of_string line) ->
  Prune.search line = None.
Proof.
  induction line as [|c line IH]; [done|]. cbn [list_ascii_of_string].
  intros H. apply Forall_cons in H as [Hc H]. rewrite search_skip by done.
  by apply IH.
Qed.

Lemma group_end_name acc bname rest :
  Forall (fun c => c <> " "%char /\ c <> "010"%char)
    (list_ascii_of_string bname) ->
  Prune.group_end acc (bname +:+ String " " rest) = Some (acc +:+ bname).
Proof.
  revert acc. induction bname as [|c bname IH]; intros acc H.
  - cbn. by rewrite append_nil_r.
  - cbn [list_ascii_of_string] in H. apply Forall_cons in H as [[H1 H2] H].
    change (Prune.group_end acc (String c (bname +:+ String " " rest)) =
              Some (acc +:+ String c bname)).
    cbn [Prune.group_end].
    destruct (Ascii.eqb_spec c " ") as [->|_]; [done|].
    destruct (Ascii.eqb_spec c "010") as [->|_]; [done|].
    rewrite IH by done. by rewrite append_assoc_string.
Qed.

Lemma search_arrow bname rest :
  plain_name bname ->
  Prune.search ("|-> " +:+ bname +:+ String " " rest) = Some bname.
Proof.
  intros [Hne Hall]. destruct bname as [|c bname]; [done|].
  cbn [list_ascii_of_string] in Hall.
  apply Forall_cons in Hall as [[_ Hnl] Hall].
  change ("|-> " +:+ String c bname +:+ String " " rest)
    with (String "|" (String "-" (String ">" (String " "
            (String c (bname +:+ String " " rest)))))).
  cbn -[Prune.group_end append].
  destruct (Ascii.eqb_spec c "010") as [->|_]; [done|].
  by rewrite group_end_name.
Qed.

Lemma search_tabs depth line :
  Prune.search (tabs depth +:+ line) = Prune.search line.
Proof.
  induction depth as [|d IH]; [done|].
  cbn [tabs]. rewrite append_assoc_string.
  change ("  " +:+ tabs d +:+ line)
    with (String " " (String " " (tabs d +:+ line))).
  by rewrite !search_skip.
Qed.

Context {G : Git} {T : Termcolor}.

(** The line of a child in a rendering without colours: the indentation,
    the arrow, the name, two spaces and the status. *)
Lemma child_line_shape (w : world) bname h depth parent :
  parent <> "" ->
  exists rest,
    branch_line w bname (Some h) (S depth) parent (Some TheRepo) true =
      tabs (S depth) +:+ " |-> " +:+ bname +:+ "  " +:+ rest.
Proof.
  intros Hp. unfold branch_line, create_branch_str.
  apply String.eqb_neq in Hp. rewrite Hp.
  rewrite bool_decide_eq_true_2 by done. cbn [negb andb Nat.eqb].
  unfold bind at 1. unfold bind at 1.
  destruct (commit_delta_total bname parent (Some TheRepo) (mkState w []))
    as [[ca pa] ->].
  unfold replace_colored, bind, ret, lift.
  destruct ca as [c|], pa as [p|]; cbn -[append tabs Py.str_int String.eqb];
    destruct (String.eqb bname (obj_name (name h)));
    cbn -[append tabs Py.str_int String.eqb];
    rewrite ?append_assoc_string; eexists; reflexivity.
Qed.

Lemma child_line_extracted (w : world) bname h depth parent :
  plain_name bname -> parent <> "" ->
  Prune.extract_raw_branch_name
    (branch_line w bname (Some h) (S depth) parent (Some TheRepo) true)
  = Some bname.
Proof.
  intros Hname Hp.
  destruct (child_line_shape w bname h depth parent Hp) as [rest ->].
  unfold Prune.extract_raw_branch_name. rewrite search_tabs.
  change (" |-> " +:+ bname +:+ "  " +:+ rest)
    with (String " " ("|-> " +:+ bname +:+ String " " (" " +:+ rest))).
  rewrite search_skip by done. by apply search_arrow.
Qed.

(** X17.  Read back by [extract_raw_branch_name], the line that a
    rendering without colours prints for a child gives the name of that
    child, when the name is not empty and holds no space and no line feed:
    the two programs agree on the format of a line. *)
Theorem child_line_read_back (w : world) bname h depth parent :
  plain_name bname -> parent <> "" ->
  Prune.extract_raw_branch_name
    (branch_line w bname (Some h) (S depth) parent (Some TheRepo) true)
  = Some bname.
Proof. apply child_line_extracted. Qed.

(** X18.  The line of a root gives no name, whatever the colours, as long
    as the name of the root holds no vertical bar: a root can be selected
    but never read back, so never deleted. *)
Theorem root_line_gives_no_name (w : world) cur h :
  Forall (fun c => c <> "|"%char) (list_ascii_of_string cur) ->
  Prune.extract_raw_branch_name (branch_line w cur (Some h) 0 "" None true)
  = None.
Proof.
  intros Hcur. unfold branch_line, create_branch_str, replace_colored, bind.
  cbn. unfold Prune.extract_raw_branch_name.
  assert (Hline : forall tail,
    Forall (fun c => c <> "|"%char) (list_ascii_of_string tail) ->
    Prune.search (String " " (cur +:+ tail)) = None).
  { intros tail Htail. apply search_without_bar. cbn. constructor; [done|].
    clear -Hcur Htail. induction cur as [|c cur IH]; [done|].
    cbn in *. apply Forall_cons in Hcur as [Hc Hcur].
    constructor; [done | by apply IH]. }
  destruct (String.eqb cur (obj_name (name h))); cbn.
  - apply Hline. cbn. repeat constructor; done.
  - rewrite <- (append_nil_r cur). apply Hline. constructor.
Qed.

End ReadingBack.

Section PruneMain.
Context {Sh : Prune.Shell}.

Lemma raw_branch_map_lookup gf_status line :
  Prune.raw_branch_map gf_status !! line =
    if bool_decide (line ∈ gf_status) then Prune.extract_raw_branch_name line
    else None.
Proof.
  unfold Prune.raw_branch_map.
  assert (Hgen : forall (m : gmap string string),
    foldl (fun m line =>
             match Prune.extract_raw_branch_name line with
             | None => m
             | Some raw_branch_name => <[line := raw_branch_name]> m
             end) m gf_status !! line =
    if bool_decide (line ∈ gf_status) then
      match Prune.extract_raw_branch_name line with
      | Some n => Some n
      | None => m !! line
      end
    else m !! line).
  { induction gf_status as [|l ls IH]; intros m; [done|].
    cbn [foldl]. rewrite IH.
    destruct (decide (line = l)) as [->|Hne].
    - rewrite (bool_decide_eq_true_2 (l ∈ l :: ls)) by left.
      destruct (Prune.extract_raw_branch_name l) as [n|] eqn:E.
      + rewrite lookup_insert_eq. by destruct (bool_decide (l ∈ ls)).
      + by destruct (bool_decide (l ∈ ls)).
    - assert (Hm : (match Prune.extract_raw_branch_name l with
                    | Some n => <[l:=n]> m
                    | None => m
                    end) !! line = m !! line).
      { destruct (Prune.extract_raw_branch_name l); [|done].
        by rewrite lookup_insert_ne. }
      rewrite Hm.
      destruct (decide (line ∈ ls)) as [Hin|Hin].
      + rewrite !bool_decide_eq_true_2; [done | by right | done].
      + rewrite !bool_decide_eq_false_2; [done | | done].
        intros Hx. apply elem_of_cons in Hx as [?|?]; done. }
  rewrite Hgen, lookup_empty.
  destruct (bool_decide _); [|done].
  by destruct (Prune.extract_raw_branch_name line).
Qed.

Lemma prune_selected_run gf_status selections (w : Prune.shell_world) :
  let r := Prune.prune_selected (Prune.raw_branch_map gf_status) selections
             w [] in
  Forall (fun e =>
    match e with
    | Prune.Called cmd _ =>
        exists line raw_branch_name,
          line ∈ selections /\ line ∈ gf_status /\
          Prune.is_remote line = false /\
          Prune.extract_raw_branch_name line = Some raw_branch_name /\
          cmd = "git branch -D " +:+ raw_branch_name
    | Prune.Warned _ => True
    end) r.2 /\
  (r.1.1 = Prune.Returned 0 /\
     Forall (fun e => match e with
                      | Prune.Called _ ok => ok = true
                      | _ => True
                      end) r.2 \/
   exists cmd tr, r.1.1 = Prune.CalledProcessError cmd /\
                  r.2 = tr ++ [Prune.Called cmd false]).
Proof.
  cbn zeta.
  set (m := Prune.raw_branch_map gf_status).
  set (good e :=
    match e with
    | Prune.Called cmd _ =>
        exists line raw_branch_name,
          line ∈ selections /\ line ∈ gf_status /\
          Prune.is_remote line = false /\
          Prune.extract_raw_branch_name line = Some raw_branch_name /\
          cmd = "git branch -D " +:+ raw_branch_name
    | Prune.Warned _ => True
    end).
  set (fine e := match e with Prune.Called _ ok => ok = true | _ => True end).
  assert (Hgen : forall sel w0 tr,
    (forall line, line ∈ sel -> line ∈ selections) ->
    Forall good tr -> Forall fine tr ->
    let r := Prune.prune_selected m sel w0 tr in
    Forall good r.2 /\
    (r.1.1 = Prune.Returned 0 /\ Forall fine r.2 \/
     exists cmd tr', r.1.1 = Prune.CalledProcessError cmd /\
                     r.2 = tr' ++ [Prune.Called cmd false])).
  { induction sel as [|line sel IH]; intros w0 tr Hsub Hgood Hfine; cbn zeta.
    { cbn. auto. }
    assert (Hsub' : forall l, l ∈ sel -> l ∈ selections)
      by (intros l Hl; apply Hsub; by right).
    cbn [Prune.prune_selected].
    destruct (Prune.is_remote line) eqn:Hrem; [by apply IH|].
    destruct (m !! line) as [n|] eqn:Hm.
    - unfold m in Hm. rewrite raw_branch_map_lookup in Hm.
      destruct (bool_decide (line ∈ gf_status)) eqn:Hin; [|done].
      apply bool_decide_eq_true in Hin.
      assert (Hcall : forall ok,
                good (Prune.Called ("git branch -D " +:+ n) ok)).
      { intros ok. exists line, n. split; [apply Hsub; left | done]. }
      destruct (Prune.check_call ("git branch -D " +:+ n) w0) as [[|] w1].
      + apply IH; [done | |]; apply Forall_app; split; try done;
          by repeat constructor.
      + cbn. split.
        * apply Forall_app. split; [done|]. by repeat constructor.
        * right. by exists ("git branch -D " +:+ n), tr.
    - apply IH; [done | |]; apply Forall_app; split; try done;
        by repeat constructor. }
  apply (Hgen selections w []); [done | constructor | constructor].
Qed.

(** X19.  Every command line [main] hands to the shell after the status is
    read is [git branch -D ] followed by the name read from a line that the
    user selected, that is a line of the status and that does not begin with
    [origin/]: the name stands in the command line as it was read, without
    quotes, and what the shell makes of the line is not stated here.  [main]
    returns zero unless the shell reports that a command line failed, which
    then is the last thing [main] does, or the status or the selection could
    not be had, and then nothing was handed to the shell. *)
Theorem prune_command_lines_come_from_selection (gitflow : option string)
    (pick : list string -> option (list string)) (w : Prune.shell_world) :
  let r := Prune.main gitflow pick w in
  Forall (fun e =>
    match e with
    | Prune.Called cmd _ =>
        exists output selections line raw_branch_name,
          gitflow = Some output /\
          pick (Prune.status_lines output) = Some selections /\
          line ∈ selections /\ line ∈ Prune.status_lines output /\
          Prune.is_remote line = false /\
          Prune.extract_raw_branch_name line = Some raw_branch_name /\
          cmd = "git branch -D " +:+ raw_branch_name
    | Prune.Warned _ => True
    end) r.2 /\
  (r.1.1 = Prune.Returned 0 /\
     Forall (fun e => match e with
                      | Prune.Called _ ok => ok = true
                      | _ => True
                      end) r.2 \/
   (exists cmd tr, r.1.1 = Prune.CalledProcessError cmd /\
                   r.2 = tr ++ [Prune.Called cmd false]) \/
   (r.1.1 <> Prune.Returned 0 /\ r.2 = [] /\ r.1.2 = w)).
Proof.
  cbn zeta. unfold Prune.main.
  destruct gitflow as [output|]; [|split; [constructor | auto]].
  destruct (pick (Prune.status_lines output)) as [selections|] eqn:Hpick;
    [|split; [constructor | auto]].
  destruct (prune_selected_run (Prune.status_lines output) selections w)
    as [Hev Hres].
  split; [|destruct Hres; auto].
  eapply Forall_impl; [exact Hev|]. intros [line|cmd ok]; [done|].
  intros (line & n & H). by exists output, selections, line, n.
Qed.

End PruneMain.

(** ** The rest of [gitflow.py] *)

Section Rest.
Context {G : Git} {T : Termcolor}.

(** X20.  [commit_delta_by_branch] fails its assertion, before any
    command, on a branch without a tracking branch; on any other branch
    it returns what [commit_delta_by_branch_name] returns for the two
    stripped names, and so never raises. *)
Theorem commit_delta_by_branch_needs_tracking (b : Head) repo (s : State) :
  match tracking_branch b with
  | None =>
      exists msg,
        commit_delta_by_branch b repo s = (Raise (AssertionError msg), s)
  | Some t =>
      commit_delta_by_branch b repo s =
        commit_delta_by_branch_name (obj_name (name b)) (obj_name t) repo s /\
      exists d, commit_delta_by_branch b repo s = (Ret d, s)
  end.
Proof.
  unfold commit_delta_by_branch. destruct (tracking_branch b) as [t|].
  - cbn [of_ref of_head branch_name lift]. unfold bind at 1 2. cbn [ret].
    split; [done|]. apply commit_delta_total.
  - cbn. eauto.
Qed.

(** X21.  [get_commit_for_branch] ends, and the commit it returns has at
    most one parent; it is come to from the tip by first parents, through
    merges only; and a tip with at most one parent is returned as it
    is. *)
Theorem get_commit_for_branch_skips_merges (c : Commit) :
  length (parents (get_commit_for_branch c)) <= 1 /\
  through_merges c (get_commit_for_branch c) /\
  (length (parents c) <= 1 -> get_commit_for_branch c = c) /\
  get_commit_for_branch (get_commit_for_branch c) = get_commit_for_branch c.
Proof.
  induction c as [hexsha|hexsha first rest IH] using Commit_first_parent_ind.
  - cbn. repeat split; [lia | constructor].
  - destruct rest as [|second rest].
    + cbn. repeat split; [lia | constructor].
    + destruct IH as (H1 & H2 & H3 & H4). cbn [get_commit_for_branch].
      repeat split; [done | by constructor | cbn; lia | done].
Qed.

End Rest.

Section NoCascadeException.
Context {G : Git} {T : Termcolor}.

Lemma bind_cascade_free {A B} (m : M A) (k : A -> M B) (s : State) :
  (forall msg, (m s).1 <> Raise (CascadeException msg)) ->
  (forall a s', m s = (Ret a, s') ->
     forall msg, (k a s').1 <> Raise (CascadeException msg)) ->
  forall msg, (bind m k s).1 <> Raise (CascadeException msg).
Proof.
  intros Hm Hk msg. unfold bind.
  destruct (m s) as [[a|e|] s'] eqn:E; cbn in *; [by apply (Hk a s')| |done].
  intros [= ->]. by apply (Hm msg).
Qed.

Lemma cascade_child_cascade_free bname parent push_updates (s : State) msg :
  (cascade_child (Some TheRepo) bname parent push_updates s).1
    <> Raise (CascadeException msg).
Proof.
  rewrite cascade_child_run.
  destruct (git_rebase parent bname (st_world s)) as [[m|] w1]; [done|].
  by destruct push_updates.
Qed.

Lemma for_children_cascade_free (rec : string -> M bool) ab depth repo cascade
    color push_updates children :
  (is_Some ab -> repo = Some TheRepo) ->
  (forall bname s msg, (rec bname s).1 <> Raise (CascadeException msg)) ->
  forall s msg,
    (for_children rec ab depth repo cascade color push_updates children s).1
      <> Raise (CascadeException msg).
Proof.
  intros Hab Hrec. destruct ab as [h|].
  - assert (repo = Some TheRepo) as -> by (by apply Hab).
    induction children as [|b rest IH]; intros s; [done|].
    cbn [for_children].
    apply bind_cascade_free; [intros msg; by cbn|]. intros bname s1 _.
    apply bind_cascade_free.
    { intros msg. destruct (tracking_branch b); by cbn. }
    intros parent s2 _.
    apply bind_cascade_free.
    { intros msg.
      destruct (create_branch_str_attached bname h depth parent
                  (Some TheRepo) (negb color) s2) as [line ->]. done. }
    intros line s3 _.
    apply bind_cascade_free; [done|]. intros [] s4 _.
    apply bind_cascade_free.
    { intros msg. destruct cascade; [apply cascade_child_cascade_free|done]. }
    intros [|] s5 _; [|apply IH].
    apply bind_cascade_free; [intros msg; apply Hrec|].
    intros [|] s6 _; cbn [negb]; [apply IH | done].
  - destruct children as [|b rest]; intros s; [done|].
    cbn [for_children].
    apply bind_cascade_free; [intros msg; by cbn|]. intros bname s1 _.
    apply bind_cascade_free.
    { intros msg. destruct (tracking_branch b); by cbn. }
    intros parent s2 _ msg. unfold bind.
    destruct (create_branch_str_detached bname depth parent repo
                (negb color) s2) as [m ->]. done.
Qed.

(** X22.  A walk never raises the [CascadeException] of its guard for a
    missing repository: without a repository there is no active branch,
    and the line of the first branch fails its assertion before the guard
    is come to. *)
Theorem print_tree_never_raises_cascade_exception fuel (dag : DAG) start depth
    repo cascade color push_updates (s : State) msg :
  (print_tree fuel dag start depth repo cascade color push_updates s).1
    <> Raise (CascadeException msg).
Proof.
  revert start depth s msg.
  induction fuel as [|fuel IH]; intros start depth s; [done|].
  cbn [print_tree].
  apply bind_cascade_free.
  { intros msg. destruct (active_branch_quiet repo s) as [a ->]. done. }
  intros ab s1 Hab.
  assert (Hrepo : is_Some ab -> repo = Some TheRepo).
  { intros [h ->]. destruct repo as [[]|]; [done|]. by inversion Hab. }
  destruct start as [cur|]; [|done].
  destruct (dag !! cur) as [children|]; [|done].
  destruct (Nat.eqb depth 0).
  - apply bind_cascade_free.
    { intros msg. destruct ab as [h|].
      - destruct (create_branch_str_attached cur h depth "" None
                    (negb color) s1) as [line ->]. done.
      - destruct (create_branch_str_detached cur depth "" None
                    (negb color) s1) as [m ->]. done. }
    intros line s2 _. apply bind_cascade_free; [done|]. intros [] s3 _.
    apply IH.
  - apply for_children_cascade_free; [done|]. intros bname s2. apply IH.
Qed.

End NoCascadeException.

(** ** The further properties on the repository of the tests *)

(** X3 on a cascade with pushes over [master], [A] and [B]. *)
Lemma push_only_after_own_rebase_witness :
  let s := Sim.state (Sim.repo3 (Some "master") [] []) [] in
  let tr := st_trace (@print_tree Sim.git Sim.tags 4 Sim.dag3 (Some "master") 0
                        (Some TheRepo) true true true s).2 in
  commands tr =
    [GitRebase "master" "A" None] ++
    GitPush "A" None :: [GitRebase "A" "B" None; GitPush "B" None] /\
  exists before' new_base,
    [GitRebase "master" "A" None] = before' ++ [GitRebase new_base "A" None].
Proof.
  cbn zeta.
  assert (H : commands
    (st_trace (@print_tree Sim.git Sim.tags 4 Sim.dag3 (Some "master") 0
                 (Some TheRepo) true true true
                 (Sim.state (Sim.repo3 (Some "master") [] []) [])).2) =
    [GitRebase "master" "A" None] ++
    GitPush "A" None :: [GitRebase "A" "B" None; GitPush "B" None])
    by (vm_compute; reflexivity).
  split; [exact H|].
  exact (proj2 (@push_only_after_own_rebase Sim.git Sim.tags 4 Sim.dag3
                  (Some "master") 0 (Some TheRepo) true true true
                  (Sim.state (Sim.repo3 (Some "master") [] []) []) _
                  [GitRebase "master" "A" None] "A" None
                  [GitRebase "A" "B" None; GitPush "B" None] eq_refl H)).
Defined.

(** X6 on a run without options, with HEAD on [B]. *)
Lemma plain_run_only_reads_witness :
  let w := Sim.repo3 (Some "B") [] [] in
  let args := mkArgs false None false true false in
  arg_cascade args = false /\ arg_refresh args = false /\
  truthy (arg_branch args) = false /\
  st_world (@run Sim.git Sim.tags 5 args w).2 = w /\
  Forall is_stdout (st_trace (@run Sim.git Sim.tags 5 args w).2).
Proof.
  cbn zeta. split; [reflexivity|]. split; [reflexivity|].
  split; [reflexivity|].
  exact (@plain_run_only_reads Sim.git Sim.tags 5
           (mkArgs false None false true false) (Sim.repo3 (Some "B") [] [])
           eq_refl eq_refl eq_refl).
Defined.

(** X8 with HEAD on no branch. *)
Lemma refresh_at_detached_head_raises_witness :
  let w := Sim.repo3 None [] [] in
  let args := mkArgs false None true true false in
  @located Sim.git w /\
  @git_active_branch Sim.git w = inl "HEAD is a detached symbolic reference" /\
  arg_refresh args = true /\ truthy (arg_branch args) = false /\
  exists m,
    @run Sim.git Sim.tags 5 args w =
      (Raise (AssertionError m),
       Sim.state w [detached_notice "HEAD is a detached symbolic reference"]).
Proof.
  cbn zeta.
  assert (H : @located Sim.git (Sim.repo3 None [] []))
    by (exists "/repo"; split; reflexivity).
  split; [exact H|]. split; [reflexivity|]. split; [reflexivity|].
  split; [reflexivity|].
  exact (@refresh_at_detached_head_raises Sim.git Sim.tags 5
           (mkArgs false None true true false) (Sim.repo3 None [] [])
           "HEAD is a detached symbolic reference" H eq_refl eq_refl eq_refl).
Defined.

(** X9 with HEAD on no branch. *)
Lemma plain_run_at_detached_head_raises_witness :
  let w := Sim.repo3 None [] [] in
  let args := mkArgs false None false true false in
  @located Sim.git w /\
  @git_active_branch Sim.git w = inl "HEAD is a detached symbolic reference" /\
  arg_cascade args = false /\ arg_refresh args = false /\
  truthy (arg_branch args) = false /\
  (build_git_dag (@git_branches Sim.git w)).2 <> [] /\
  exists m,
    @run Sim.git Sim.tags 5 args w =
      (Raise (AssertionError m),
       Sim.state w [detached_notice "HEAD is a detached symbolic reference"]).
Proof.
  cbn zeta.
  assert (H : @located Sim.git (Sim.repo3 None [] []))
    by (exists "/repo"; split; reflexivity).
  assert (Hr : (build_git_dag
                  (@git_branches Sim.git (Sim.repo3 None [] []))).2 <> [])
    by (vm_compute; discriminate).
  split; [exact H|]. split; [reflexivity|]. split; [reflexivity|].
  split; [reflexivity|]. split; [reflexivity|]. split; [exact Hr|].
  exact (@plain_run_at_detached_head_raises Sim.git Sim.tags 4
           (mkArgs false None false true false) (Sim.repo3 None [] [])
           "HEAD is a detached symbolic reference" H eq_refl eq_refl eq_refl
           eq_refl Hr).
Defined.

(** X10 on a branch that tracks itself. *)
Lemma rendering_a_cycle_never_returns_witness :
  reachable Cases.dag_loop "A" "A" /\
  (@print_tree Sim.git Sim.tags 7 Cases.dag_loop (Some "A") 0 (Some TheRepo)
     false true false (Sim.state (Sim.repo3 (Some "B") [] []) [])).1
    <> Ret true.
Proof.
  assert (H : reachable Cases.dag_loop "A" "A").
  { apply reach_child. exists Cases.branches_loop.
    split; [vm_compute; reflexivity | left]. }
  split; [exact H|].
  exact (@rendering_a_cycle_never_returns Sim.git Sim.tags Cases.dag_loop
           "A" "A" (Some TheRepo) true false 7 0
           (Sim.state (Sim.repo3 (Some "B") [] []) []) true
           (or_introl eq_refl) H).
Defined.

(** X12 on the name [master]. *)
Lemma branch_name_strips_leading_dots_and_slashes_witness :
  "master" = String "m" "aster" /\ "m"%char <> "."%char /\
  "m"%char <> "/"%char /\
  branch_name (PyObj "master") = inr "master".
Proof.
  assert (H1 : "m"%char <> "."%char) by discriminate.
  assert (H2 : "m"%char <> "/"%char) by discriminate.
  split; [reflexivity|]. split; [exact H1|]. split; [exact H2|].
  exact (proj1 (proj2 (branch_name_strips_leading_dots_and_slashes "master"))
           "m"%char "aster" eq_refl H1 H2).
Defined.

(** X13 on the key [master] of the repository of the tests. *)
Lemma build_git_dag_keys_and_children_witness :
  (build_git_dag Sim.branches3).1 !! "master" = Some [Sim.branch_A] /\
  [Sim.branch_A] =
    filter (fun b => obj_name <$> tracking_branch b = Some "master")
      Sim.branches3.
Proof.
  assert (H : (build_git_dag Sim.branches3).1 !! "master"
                = Some [Sim.branch_A]) by (vm_compute; reflexivity).
  split; [exact H|].
  exact (proj2 (build_git_dag_keys_and_children Sim.branches3 "master")
           [Sim.branch_A] H).
Defined.

(** X14 on [B] in the repository of the tests. *)
Lemma every_branch_is_shown_witness :
  acyclic (build_git_dag Sim.branches3).1 /\
  Sim.branch_B ∈ Sim.branches3 /\
  shown (build_git_dag Sim.branches3).1 (build_git_dag Sim.branches3).2 "B".
Proof.
  assert (H1 : acyclic (build_git_dag Sim.branches3).1)
    by (exists Sim.rank3; exact sim_ranked3).
  assert (H2 : forall b t, b ∈ Sim.branches3 -> tracks t b ->
            Py.startswith t "origin" = true \/ t ∈ child_names Sim.branches3).
  { intros b t Hb Ht. right.
    apply elem_of_cons in Hb as [->|Hb];
      [|apply elem_of_cons in Hb as [->|Hb];
        [|apply elem_of_cons in Hb as [->|Hb];
          [|by apply elem_of_nil in Hb]]];
      unfold tracks in Ht; cbn in Ht; inversion Ht; subst;
      apply (bool_decide_unpack _); vm_compute; exact I. }
  assert (H3 : Sim.branch_B ∈ Sim.branches3) by (right; left).
  split; [exact H1|]. split; [exact H3|].
  exact (every_branch_is_shown Sim.branches3 H1 H2 Sim.branch_B H3).
Defined.

(** X15 on a branch that tracks [upstream/main]. *)
Lemma branch_on_foreign_upstream_is_not_shown_witness :
  NoDup (child_names Cases.branches_foreign) /\
  Cases.branch_feature ∈ Cases.branches_foreign /\
  tracks "upstream/main" Cases.branch_feature /\
  Py.startswith "upstream/main" "origin" = false /\
  ("upstream/main" ∉ child_names Cases.branches_foreign) /\
  Py.startswith "feature" "origin" = false /\
  ~ shown (build_git_dag Cases.branches_foreign).1
      (build_git_dag Cases.branches_foreign).2 "feature".
Proof.
  assert (H1 : NoDup (child_names Cases.branches_foreign))
    by (apply (bool_decide_unpack _); vm_compute; exact I).
  assert (H2 : Cases.branch_feature ∈ Cases.branches_foreign) by left.
  assert (H3 : tracks "upstream/main" Cases.branch_feature) by reflexivity.
  assert (H5 : "upstream/main" ∉ child_names Cases.branches_foreign)
    by (apply (bool_decide_unpack _); vm_compute; exact I).
  split; [exact H1|]. split; [exact H2|]. split; [exact H3|].
  split; [reflexivity|]. split; [exact H5|]. split; [reflexivity|].
  exact (branch_on_foreign_upstream_is_not_shown Cases.branches_foreign
           Cases.branch_feature "upstream/main" H1 H2 H3 eq_refl H5 eq_refl).
Defined.

(** X16 on the tree of [master] in the repository of the tests. *)
Lemma rendering_has_one_line_per_branch_witness :
  let w := Sim.repo3 (Some "B") [] [] in
  ranked Sim.rank3 Sim.dag3 /\ tracked Sim.dag3 /\ forest Sim.dag3 /\
  @git_active_branch Sim.git w = inr Sim.branch_B /\
  Sim.dag3 !! "master" = Some [Sim.branch_A] /\
  Sim.rank3 "master" + 1 < 4 /\
  exists entries,
    @print_tree Sim.git Sim.tags 4 Sim.dag3 (Some "master") 0 (Some TheRepo)
      false true false (Sim.state w [])
    = (Ret true,
       Sim.state w
         ([] ++ Stdout (@branch_line Sim.git Sim.tags w "master"
                          (Some Sim.branch_B) 0 "" None (negb true))
             :: (Stdout ∘ @entry_line Sim.git Sim.tags w (Some Sim.branch_B)
                            true <$> entries))) /\
    NoDup (entry_names entries) /\
    (forall x, x ∈ entry_names entries <-> reachable Sim.dag3 "master" x).
Proof.
  cbn zeta.
  assert (H2 : tracked Sim.dag3) by apply build_git_dag_tracked.
  assert (H5 : Sim.dag3 !! "master" = Some [Sim.branch_A])
    by (vm_compute; reflexivity).
  assert (H6 : Sim.rank3 "master" + 1 < 4) by (vm_compute; lia).
  split; [exact sim_ranked3|]. split; [exact H2|]. split; [exact sim_forest3|].
  split; [reflexivity|]. split; [exact H5|]. split; [exact H6|].
  exact (@rendering_has_one_line_per_branch Sim.git Sim.tags Sim.rank3
           Sim.dag3 (Sim.repo3 (Some "B") [] []) Sim.branch_B true false 4
           "master" [Sim.branch_A] [] sim_ranked3 H2 sim_forest3 eq_refl H5
           H6).
Defined.

(** X17 on the line of [A] under [master]. *)
Lemma child_line_read_back_witness :
  plain_name "A" /\ "master" <> "" /\
  Prune.extract_raw_branch_name
    (@branch_line Sim.git Sim.tags (Sim.repo3 (Some "B") [] []) "A"
       (Some Sim.branch_B) 1 "master" (Some TheRepo) true)
  = Some "A".
Proof.
  assert (H1 : plain_name "A").
  { split; [discriminate|]. repeat constructor; discriminate. }
  assert (H2 : "master" <> "") by discriminate.
  split; [exact H1|]. split; [exact H2|].
  exact (@child_line_read_back Sim.git Sim.tags (Sim.repo3 (Some "B") [] [])
           "A" Sim.branch_B 0 "master" H1 H2).
Defined.

(** X18 on the line of the root [master]. *)
Lemma root_line_gives_no_name_witness :
  Forall (fun c => c <> "|"%char) (list_ascii_of_string "master") /\
  Prune.extract_raw_branch_name
    (@branch_line Sim.git Sim.tags (Sim.repo3 (Some "B") [] []) "master"
       (Some Sim.branch_B) 0 "" None true)
  = None.
Proof.
  assert (H : Forall (fun c => c <> "|"%char) (list_ascii_of_string "master"))
    by (repeat constructor; discriminate).
  split; [exact H|].
  exact (@root_line_gives_no_name Sim.git Sim.tags
           (Sim.repo3 (Some "B") [] []) "master" Sim.branch_B H).
Defined.

(** X21 on a commit without parents, which is returned as it is. *)
Lemma get_commit_for_branch_skips_merges_witness :
  length (parents Cases.commit_a) <= 1 /\
  get_commit_for_branch Cases.commit_a = Cases.commit_a.
Proof.
  assert (H : length (parents Cases.commit_a) <= 1) by (cbn; lia).
  split; [exact H|].
  exact (proj1 (proj2 (proj2
           (get_commit_for_branch_skips_merges Cases.commit_a))) H).
Defined.

(** ** Where a cascade works, and how it ends *)

Section Subtree.
Context {G : Git} {T : Termcolor}.

Lemma steps_mono {A} (R1 R2 : world -> world -> list event -> Prop) (m : M A) :
  (forall w w' tr, R1 w w' tr -> R2 w w' tr) -> steps R1 m -> steps R2 m.
Proof.
  intros Hsub Hm s. destruct (Hm s) as (tr & Htr & H). exists tr.
  split; [done | by apply Hsub].
Qed.

Lemma below_composable dag cur : composable (below dag cur).
Proof.
  split.
  - intros w. constructor.
  - intros w1 w2 w3 tr1 tr2 H1 H2. by apply Forall_app.
Qed.

Lemma below_print dag cur (w : world) line : below dag cur w w [Stdout line].
Proof. by repeat constructor. Qed.

Lemma below_cascade_child dag cur repo bname parent push_updates :
  reachable dag cur bname ->
  steps (below dag cur) (cascade_child repo bname parent push_updates).
Proof.
  intros Hreach.
  destruct repo as [[]|]; [|apply steps_raise, below_composable].
  assert (Hall : forall l,
    Forall (fun e => match e with
                     | GitRebase _ f _ | GitPush f _ => f = bname
                     | _ => True
                     end) l ->
    Forall (in_subtree dag cur) l).
  { intros l Hl. eapply Forall_impl; [exact Hl|].
    intros [] He; try done; cbn in *; by subst. }
  intros s. unfold steps_at. rewrite cascade_child_run.
  destruct (git_rebase parent bname (st_world s)) as [[msg|] w1].
  - eexists. split; [reflexivity|]. apply Hall. unfold failed_rebase_events.
    destruct (git_rebase_abort w1).1; by repeat constructor.
  - destruct push_updates.
    + eexists. split; [reflexivity|]. apply Hall.
      unfold rebased_events, push_events.
      destruct (git_push_force _ w1).1; by repeat constructor.
    + eexists. split; [reflexivity|]. apply Hall. unfold rebased_events.
      by repeat constructor.
Qed.

Lemma below_print_tree fuel (dag : DAG) cur depth repo cascade color
    push_updates :
  steps (below dag cur)
    (print_tree fuel dag (Some cur) depth repo cascade color push_updates).
Proof.
  revert cur depth.
  induction fuel as [|fuel IH]; intros cur depth; cbn [print_tree];
    [apply steps_out_of_fuel, below_composable|].
  apply (steps_bind _ (below_composable dag cur));
    [apply (steps_active_branch _ (below_composable dag cur)
              (below_print dag cur))|].
  intros ab. destruct (dag !! cur) as [children|] eqn:Hl;
    [|apply steps_ret, below_composable].
  assert (Hchild : forall b, b ∈ children ->
            child_of dag cur (obj_name (name b))).
  { intros b Hb. exists children. split; [done|].
    apply list_elem_of_fmap. by exists b. }
  destruct (Nat.eqb depth 0).
  - apply (steps_bind _ (below_composable dag cur));
      [apply (steps_create_branch_str _ (below_composable dag cur))|].
    intros line.
    apply (steps_bind _ (below_composable dag cur));
      [apply (steps_print _ (below_print dag cur)) | intros _; apply IH].
  - apply (steps_for_children _ (below_composable dag cur)
             (below_print dag cur)).
    + intros b Hb.
      apply (steps_mono (below dag (obj_name (name b)))); [|apply IH].
      intros w w' tr Htr. eapply Forall_impl; [exact Htr|].
      intros [] He; try done; cbn in *;
        by apply (reachable_from_child dag cur (obj_name (name b))); auto.
    + intros _ b t Hb _. apply below_cascade_child, reach_child. auto.
Qed.

(** X23.  A walk from a branch rebases and pushes only branches that a
    walk from it comes to, in any DAG and however the walk ends: a cascade
    does not touch a branch outside the subtree of its start. *)
Theorem cascade_touches_only_descendants fuel (dag : DAG) cur depth repo
    cascade color push_updates (s : State) :
  exists tr,
    st_trace (print_tree fuel dag (Some cur) depth repo cascade color
                push_updates s).2 = st_trace s ++ tr /\
    Forall (in_subtree dag cur) tr.
Proof. apply below_print_tree. Qed.

(** X24.  A run under [--cascade] that returns has sent, as its last
    command, the checkout of the branch that was active when it started,
    under the name the repository gives it, and that checkout has
    succeeded; what follows is printed lines only. *)
Theorem cascade_run_ends_with_checkout_back fuel (args : Args) (w : world)
    (s' : State) :
  arg_cascade args = true ->
  run fuel args w = (Ret tt, s') ->
  exists tr1 tr2,
    st_trace s' =
      tr1 ++
      GitCheckout (match git_active_branch w with
                   | inr h => Some (name h)
                   | inl _ => None
                   end) None :: tr2 /\
    Forall is_stdout tr2.
Proof.
  intros Hc Hrun. unfold run, main in Hrun.
  apply bind_returns in Hrun as (git_dir & s1 & E1 & Hrun).
  assert (s1 = mkState w []) as ->.
  { unfold find_git_dir, bind, query in E1. cbn in E1.
    destruct (git_toplevel w); by inversion E1. }
  apply bind_returns in Hrun as (found & s2 & E2 & Hrun).
  cbn in E2. injection E2 as <- <-.
  destruct (negb _); [done|].
  apply bind_returns in Hrun as (branches & s3 & E3 & Hrun).
  cbn in E3. injection E3 as <- <-.
  destruct (build_git_dag (git_branches w)) as [dag roots].
  apply bind_returns in Hrun as (initial & s4 & E4 & Hrun).
  assert (Hinit : name <$> initial =
                    match git_active_branch w with
                    | inr h => Some (name h)
                    | inl _ => None
                    end).
  { unfold active_branch_from_repo, bind, query in E4. cbn in E4.
    destruct (git_active_branch w); inversion E4; done. }
  rewrite <- Hinit.
  apply bind_returns in Hrun as (active & s5 & _ & Hrun).
  apply bind_returns in Hrun as ([] & s6 & _ & Hrun).
  apply bind_returns in Hrun as ([] & s7 & _ & Hrun).
  rewrite Hc in Hrun.
  apply bind_returns in Hrun as (r & s8 & E8 & Hrun).
  unfold command in E8.
  destruct (git_checkout (name <$> initial) (st_world s7)) as [r' w8] eqn:Eco.
  injection E8 as <- <-.
  destruct r' as [msg|]; [done|].
  apply bind_returns in Hrun as ([] & s9 & E9 & Hrun).
  cbn in E9. injection E9 as <-.
  destruct (steps_print_dag reads_only reads_only_composable
              reads_only_print fuel dag [active] (Some TheRepo) false
              (arg_color args) false ltac:(done)
              (mkState w8
                 ((st_trace s7 ++ [GitCheckout (name <$> initial) None]) ++
                  [Stdout "Status after cascade:"])))
    as (tr & Htr & _ & Hall).
  rewrite Hrun in Htr. cbn [snd st_trace] in Htr.
  exists (st_trace s7), (Stdout "Status after cascade:" :: tr).
  split; [|by constructor].
  rewrite Htr. by rewrite <- !app_assoc.
Qed.

End Subtree.

Section PruneChild.
Context {G : Git} {T : Termcolor} {Sh : Prune.Shell}.

Lemma lstrip_space_tabs depth line :
  Py.lstrip_space (tabs depth +:+ line) = Py.lstrip_space line.
Proof.
  induction depth as [|d IH]; [done|].
  cbn [tabs]. rewrite append_assoc_string.
  change ("  " +:+ tabs d +:+ line)
    with (String " " (String " " (tabs d +:+ line))).
  by cbn.
Qed.

Lemma shell_char_plain c :
  Prune.shell_char c = true -> c <> " "%char /\ c <> "010"%char.
Proof. intros H. split; intros ->; by vm_compute in H. Qed.

Lemma shell_word_plain s : Prune.shell_word s -> plain_name s.
Proof.
  intros [Hne Hall]. split; [done|].
  eapply Forall_impl; [exact Hall|]. apply shell_char_plain.
Qed.

(** X25.  When the user selects the line that the rendering without
    colours printed for a child whose name is a word of letters, digits and
    [_ - . /], and the shell runs [git] on the words of a line of such
    words that begins with [git], the loop runs one program, [git] on
    [branch], [-D] and that very name, and returns zero if it succeeds. *)
Theorem prune_deletes_the_selected_child (w : world) bname h depth parent
    gf_status (exec : list string -> Prune.shell_world ->
                      bool * Prune.shell_world)
    (sw : Prune.shell_world) :
  Prune.runs_git exec ->
  Prune.shell_word bname -> parent <> "" ->
  let line :=
    branch_line w bname (Some h) (S depth) parent (Some TheRepo) true in
  let cmd := "git branch -D " +:+ bname in
  let run := exec ["git"; "branch"; "-D"; bname] sw in
  line ∈ gf_status ->
  Prune.prune_selected (Prune.raw_branch_map gf_status) [line] sw [] =
    (if run.1 then Prune.Returned 0 else Prune.CalledProcessError cmd,
     run.2, [Prune.Called cmd run.1]).
Proof.
  intros Hsh Hword Hp line cmd run Hin. cbn [Prune.prune_selected].
  assert (Hname : plain_name bname) by by apply shell_word_plain.
  assert (Hremote : Prune.is_remote line = false).
  { unfold line.
    destruct (child_line_shape w bname h depth parent Hp) as [rest ->].
    unfold Prune.is_remote. rewrite lstrip_space_tabs. by cbn. }
  rewrite Hremote, raw_branch_map_lookup, bool_decide_eq_true_2 by done.
  unfold line. rewrite (child_line_extracted w bname h depth parent Hname Hp).
  fold cmd.
  assert (Hrun : Prune.check_call cmd sw = run).
  { apply (Hsh ["branch"; "-D"; bname] sw).
    repeat (constructor; [by split; [|repeat constructor]|]).
    constructor; [exact Hword|constructor]. }
  rewrite Hrun. by destruct run as [[|] sw'].
Qed.

End PruneChild.

(** ** A shell to run the deletions in *)

Section Words.

Lemma append_empty_string (s : string) : s +:+ "" = s.
Proof.
  induction s as [|c s IH]; [done|].
  change (String c s +:+ "") with (String c (s +:+ "")). by rewrite IH.
Qed.

Lemma chars_append (a b : string) :
  list_ascii_of_string (a +:+ b)
  = list_ascii_of_string a ++ list_ascii_of_string b.
Proof.
  induction a as [|c a IH]; [done|].
  change (String c a +:+ b) with (String c (a +:+ b)).
  cbn [list_ascii_of_string]. by rewrite IH.
Qed.

Lemma split_on_plain sep cur s :
  Forall (fun c => c <> sep) (list_ascii_of_string s) ->
  Prune.split_on sep cur s = [cur +:+ s].
Proof.
  revert cur. induction s as [|c s IH]; intros cur H.
  - by rewrite append_empty_string.
  - inversion H as [|? ? Hc Hs]; subst. cbn [Prune.split_on].
    destruct (Ascii.eqb_spec c sep) as [|_]; [done|].
    rewrite IH by done. by rewrite append_assoc_string.
Qed.

Lemma split_on_sep sep cur s rest :
  Forall (fun c => c <> sep) (list_ascii_of_string s) ->
  Prune.split_on sep cur (s +:+ String sep rest)
  = (cur +:+ s) :: Prune.split_on sep "" rest.
Proof.
  revert cur. induction s as [|c s IH]; intros cur H.
  - rewrite append_empty_string. change ("" +:+ String sep rest)
      with (String sep rest). cbn [Prune.split_on].
    by rewrite Ascii.eqb_refl.
  - inversion H as [|? ? Hc Hs]; subst.
    change (String c s +:+ String sep rest)
      with (String c (s +:+ String sep rest)). cbn [Prune.split_on].
    destruct (Ascii.eqb_spec c sep) as [|_]; [done|].
    rewrite IH by done. by rewrite append_assoc_string.
Qed.

Lemma shell_word_chars (P : ascii -> Prop) s :
  (forall c, Prune.shell_char c = true -> P c) ->
  Prune.shell_word s -> Forall P (list_ascii_of_string s).
Proof. intros HP [_ H]. eapply Forall_impl; [exact H|]. exact HP. Qed.

Lemma command_line_cons a b rest :
  Prune.command_line (a :: b :: rest)
  = a +:+ String " " (Prune.command_line (b :: rest)).
Proof. reflexivity. Qed.

Lemma command_line_chars (P : ascii -> Prop) args :
  (forall c, Prune.shell_char c = true -> P c) -> P " "%char ->
  Forall Prune.shell_word args ->
  Forall P (list_ascii_of_string (Prune.command_line args)).
Proof.
  intros HP Hsp. induction args as [|a [|b rest] IH]; intros Hall.
  - constructor.
  - inversion Hall; subst. by apply shell_word_chars.
  - inversion Hall as [|? ? Ha Hrest]; subst.
    rewrite command_line_cons, chars_append. apply Forall_app. split.
    + by apply shell_word_chars.
    + cbn. constructor; [exact Hsp | by apply IH].
Qed.

Lemma words_command_line args :
  Forall Prune.shell_word args ->
  Cases.words (Prune.command_line args) = args.
Proof.
  assert (Hsp : forall c, Prune.shell_char c = true -> c <> " "%char)
    by (intros c H ->; by vm_compute in H).
  assert (Hkeep : forall a, Prune.shell_word a ->
                            negb (String.eqb a "") = true).
  { intros a [Hne _]. by destruct (String.eqb_spec a ""). }
  induction args as [|a [|b rest] IH]; intros Hall.
  - reflexivity.
  - inversion Hall as [|? ? Ha _]; subst. unfold Cases.words.
    change (Prune.command_line [a]) with a.
    rewrite split_on_plain by by apply shell_word_chars.
    cbn. change ("" +:+ a) with a. by rewrite Hkeep.
  - inversion Hall as [|? ? Ha Hrest]; subst. unfold Cases.words.
    rewrite command_line_cons, split_on_sep by by apply shell_word_chars.
    cbn [List.filter]. change ("" +:+ a) with a. rewrite Hkeep by done.
    f_equal. by apply IH.
Qed.

Lemma sh_runs_git : @Prune.runs_git Cases.sh Cases.execvp.
Proof.
  intros args w Hall.
  assert (Hgit : Forall Prune.shell_word ("git" :: args)).
  { constructor; [|done]. split; [done|]. by repeat constructor. }
  cbn [Prune.check_call Cases.sh]. unfold Cases.execvp.
  rewrite split_on_plain.
  - change ("" +:+ ?s) with s. cbn [fmap list_fmap].
    by rewrite (words_command_line _ Hgit).
  - apply command_line_chars; [|done|exact Hgit].
    intros c H ->. by vm_compute in H.
Qed.

(** A name is handed to the shell as it is: selecting the line of a branch
    [a;b], a name without a space and without a line feed, has this shell
    run [git branch -D a] and then [b]. *)
Example unquoted_name_is_read_by_the_shell :
  let line :=
    @branch_line Sim.git Sim.tags (Sim.repo3 (Some "B") [] []) "a;b"
      (Some Sim.branch_B) 1 "master" (Some TheRepo) true in
  plain_name "a;b" /\
  @Prune.prune_selected Cases.sh (Prune.raw_branch_map [line]) [line] [] []
    = (Prune.Returned 0, [["git"; "branch"; "-D"; "a"]; ["b"]],
       [Prune.Called "git branch -D a;b" true]).
Proof.
  cbn zeta. split.
  - split; [discriminate|]. repeat constructor; discriminate.
  - vm_compute. reflexivity.
Qed.

End Words.


(** X24 on a cascade from [B], which has nothing below it. *)
Lemma cascade_run_ends_with_checkout_back_witness :
  let w := Sim.repo3 (Some "B") [] [] in
  let args := mkArgs true None false true false in
  arg_cascade args = true /\
  (@run Sim.git Sim.tags 5 args w).1 = Ret tt /\
  exists tr1 tr2,
    st_trace (@run Sim.git Sim.tags 5 args w).2 =
      tr1 ++ GitCheckout (Some "B") None :: tr2 /\
    Forall is_stdout tr2.
Proof.
  cbn zeta.
  assert (H : @run Sim.git Sim.tags 5 (mkArgs true None false true false)
                (Sim.repo3 (Some "B") [] []) =
              (Ret tt,
               (@run Sim.git Sim.tags 5 (mkArgs true None false true false)
                  (Sim.repo3 (Some "B") [] [])).2))
    by (vm_compute; reflexivity).
  split; [reflexivity|]. split; [vm_compute; reflexivity|].
  exact (@cascade_run_ends_with_checkout_back Sim.git Sim.tags 5
           (mkArgs true None false true false) (Sim.repo3 (Some "B") [] [])
           _ eq_refl H).
Defined.

(** X25 on the line of [A] under [master]. *)
Lemma prune_deletes_the_selected_child_witness :
  let line :=
    @branch_line Sim.git Sim.tags (Sim.repo3 (Some "B") [] []) "A"
      (Some Sim.branch_B) 1 "master" (Some TheRepo) true in
  @Prune.runs_git Cases.sh Cases.execvp /\
  Prune.shell_word "A" /\ "master" <> "" /\ line ∈ [line] /\
  @Prune.prune_selected Cases.sh (Prune.raw_branch_map [line]) [line] [] []
    = (Prune.Returned 0, [["git"; "branch"; "-D"; "A"]],
       [Prune.Called "git branch -D A" true]).
Proof.
  cbn zeta.
  assert (H1 : Prune.shell_word "A").
  { split; [discriminate|]. by repeat constructor. }
  assert (H2 : "master" <> "") by discriminate.
  split; [exact sh_runs_git|]. split; [exact H1|]. split; [exact H2|].
  split; [left|].
  exact (@prune_deletes_the_selected_child Sim.git Sim.tags Cases.sh
           (Sim.repo3 (Some "B") [] []) "A" Sim.branch_B 0 "master" _
           Cases.execvp [] sh_runs_git H1 H2 (list_elem_of_here _ _)).
Defined.

(** * Walks and runs, however they end *)

(** ** The repository along the trace *)

Section Replaying.
Context {G : Git} {T : Termcolor}.

Lemma replay_app tr1 tr2 (w : world) :
  replay (tr1 ++ tr2) w = replay tr2 (replay tr1 w).
Proof. apply foldl_app. Qed.

Lemma replay_lines lines (w : world) : replay (Stdout <$> lines) w = w.
Proof. induction lines as [|l lines IH]; [done|]. exact IH. Qed.

Lemma replay_failed bname parent msg (w : world) :
  replay (failed_rebase_events bname parent msg
            (git_rebase_abort (git_rebase parent bname w).2).1) w
  = (git_rebase_abort (git_rebase parent bname w).2).2.
Proof.
  unfold failed_rebase_events.
  by destruct (git_rebase_abort (git_rebase parent bname w).2).1.
Qed.

Lemma replay_rebased bname parent (w : world) :
  replay (rebased_events bname parent) w = (git_rebase parent bname w).2.
Proof. done. Qed.

Lemma replay_push bname (w : world) :
  replay (push_events bname (git_push_force bname w).1) w
  = (git_push_force bname w).2.
Proof. unfold push_events. by destruct (git_push_force bname w).1. Qed.


Lemma head_lost_app_l (w : world) tr1 tr2 :
  head_lost w tr1 -> head_lost w (tr1 ++ tr2).
Proof.
  intros (a & b & -> & H). exists a, (b ++ tr2). by rewrite <- app_assoc.
Qed.





(** *** Computations that end as [ends_at] says *)






Lemma ends_at_cascade_child bname parent push_updates (s : State) :
  ends_at (cascade_child (Some TheRepo) bname parent push_updates) s.
Proof.
  unfold ends_at. rewrite cascade_child_run.
  pose proof (replay_failed bname parent) as Hf.
  pose proof (replay_push bname) as Hp.
  destruct (git_rebase parent bname (st_world s)) as [[msg|] w1] eqn:Hreb.
  - eexists. split; [reflexivity|]. cbn [fst snd st_world].
    split; [|done]. specialize (Hf msg (st_world s)). rewrite Hreb in Hf.
    cbn [snd] in Hf. by rewrite Hf.
  - destruct push_updates.
    + eexists. split; [reflexivity|]. cbn [fst snd st_world].
      split; [|done]. rewrite replay_app, replay_rebased, Hreb.
      cbn [snd]. by rewrite Hp.
    + eexists. split; [reflexivity|]. cbn [fst snd st_world].
      split; [|done]. by rewrite replay_rebased, Hreb.
Qed.




End Replaying.

(** ** What a cascade that returns has attempted *)

Section Attempts.
Context {G : Git} {T : Termcolor}.




End Attempts.

(** ** Enough fuel *)

Section Fuel.
Context {G : Git} {T : Termcolor}.






End Fuel.

(** ** The order of the attempts *)

Section Order.
Context {G : Git} {T : Termcolor}.











End Order.

(** ** Walks over the DAG of the builder *)

Section BuiltWalks.
Context {G : Git} {T : Termcolor}.






End BuiltWalks.

(** ** How a run ends *)

Section RunEnds.
Context {G : Git} {T : Termcolor}.

(** *** The repository follows the trace *)

Lemma follows_composable : composable follows.
Proof.
  split.
  - done.
  - intros w1 w2 w3 tr1 tr2 -> ->. unfold follows. by rewrite replay_app.
Qed.

Lemma follows_print (w : world) line : follows w w [Stdout line].
Proof. done. Qed.

Lemma follows_cascade_child bname parent push_updates :
  steps follows (cascade_child (Some TheRepo) bname parent push_updates).
Proof.
  intros s.
  destruct (ends_at_cascade_child bname parent push_updates s)
    as (tr & Htr & Hw & _).
  by exists tr.
Qed.

Lemma follows_refresh_branch branch :
  steps follows (refresh_branch branch TheRepo).
Proof.
  by apply (steps_refresh_branch follows follows_composable follows_print).
Qed.

Lemma follows_main fuel (args : Args) :
  steps follows (main fuel args).
Proof.
  apply (steps_main follows follows_composable follows_print args).
  - done.
  - intros _ branch. apply follows_refresh_branch.
  - intros _ bname parent. apply follows_cascade_child.
Qed.

(** *** Failures are reported *)







(** *** The causes of an exception *)










(** *** Enough fuel for a run *)




End RunEnds.

(** ** Cascades and runs on repositories *)

Section Amended.








(** The third cause of a status 1: the checkout of [origin/main] succeeds
    and leaves HEAD on no branch, and the rendering that follows fails the
    assertion of [branch_name]. *)
Example checkout_of_remote_branch_exits_nonzero :
  let w := Sim.repo_origin in
  let r := @run Cases.git_remotes Sim.tags 5
             (mkArgs false (Some "origin/main") false true false) w in
  @located Cases.git_remotes w /\
  r.1 = Raise (AssertionError "Must have a valid branch to get the name!") /\
  exit_status r.1 = Some 1%Z /\
  st_trace r.2 = [GitCheckout (Some "origin/main") None] /\
  @head_lost Cases.git_remotes w (st_trace r.2).
Proof.
  cbn zeta. split; [|split; [|split; [|split]]].
  - exists "/repo". split; vm_compute; reflexivity.
  - vm_compute. reflexivity.
  - vm_compute. reflexivity.
  - vm_compute. reflexivity.
  - exists [GitCheckout (Some "origin/main") None], []. split.
    + vm_compute. reflexivity.
    + intros [h Hh]. by vm_compute in Hh.
Qed.


End Amended.
